(** * rma.application: key-pattern aggregation pipeline

    A shallow embedding of [src/rma/application.py]: the name normalizer
    ([ptransform] and the [:US:] masking substitution), the pattern grouper
    ([get_pattern_aggregated_data]), the census ([do_scanner]), the type rule
    engine ([do_ram]) and the version check ([check_redis_version],
    [connect_to_redis]).

    Key names are text in ASCII ([string]); a [dict] is an association list
    in insertion order with one entry per key; a function that can raise
    returns in [py_exn + A]; what the statements of the module do to the
    outside (store queries, the scan, the error stream, the reporter) is a
    list of events.  The collaborators that the module imports (pattern
    deriver, analysis rules, scanner, store, [floored_percentage]) are
    parameters of the pipeline: they return a value, and what they send to
    the store on their own is not recorded. *)

From Equations Require Import Equations.
From Stdlib Require Import String Ascii List Bool Arith ZArith Lia.
From Stdlib Require Import Sorting.Sorted Sorting.Permutation.
Import ListNotations.

Local Open Scope list_scope.
Local Open Scope string_scope.

(* ===================================================================== *)
(** ** Python string primitives used by the module *)
(* ===================================================================== *)

Module Py.

(** [s.startswith(p)] *)
Definition startswith (s p : string) : bool := String.prefix p s.

(** [s[n:]] on strings *)
Fixpoint drop (n : nat) (s : string) : string :=
  match n, s with
  | O, _ => s
  | S _, EmptyString => EmptyString
  | S n', String _ s' => drop n' s'
  end.

(** [s.endswith(p)] *)
Definition endswith (s p : string) : bool :=
  Nat.leb (String.length p) (String.length s)
  && String.eqb (drop (String.length s - String.length p) s) p.

(** [s.split(sep)] for a one-character separator: the result always has at
    least one element, and [n] separators give [n + 1] segments. *)
Fixpoint split (sep : ascii) (s : string) : list string :=
  match s with
  | EmptyString => [EmptyString]
  | String c s' =>
      if Ascii.eqb c sep then EmptyString :: split sep s'
      else match split sep s' with
           | [] => [String c EmptyString]
           | w :: ws => String c w :: ws
           end
  end.

(** [sep.join(l)] *)
Definition join (sep : string) (l : list string) : string := String.concat sep l.

(** [l[a:b]] with [0 <= a <= b] and [l[a:]] *)
Definition slice {A} (a b : nat) (l : list A) : list A := firstn (b - a) (skipn a l).
Definition slice_from {A} (a : nat) (l : list A) : list A := skipn a l.

(** [l[0]] of a list of strings; [split] never returns the empty list, so the
    default is never used on its results. *)
Definition item0 (l : list string) : string := hd EmptyString l.

End Py.

(* ===================================================================== *)
(** ** Name normalizer *)
(* ===================================================================== *)

(** [ptransform], lines 18-36: an if/elif chain, first match wins. *)
Definition ptransform (nm : string) : string :=
  if Py.startswith nm "celery-task-meta" then
    let spl := Py.split "-" nm in
    Py.join "-" (Py.slice 0 3 spl) ++ ":" ++ Py.join "-" (Py.slice_from 3 spl)
  else if Py.startswith nm "qo_cli.aff_aggregations.aggregate_aff_aname_aname" then
    let spl := Py.split "-" nm in
    Py.join "-" (Py.slice 0 1 spl) ++ ":" ++ Py.join "-" (Py.slice_from 1 spl)
  else if Py.endswith nm "_trigger_queue_user_job" then
    let spl := Py.split "_" nm in
    Py.join "_" (Py.slice_from 1 spl) ++ ":" ++ Py.join "_" (Py.slice 0 1 spl)
  else if Py.endswith nm ".reply.celery.pidbox" then
    let spl := Py.split "." nm in
    Py.join "." (Py.slice_from 1 spl) ++ ":" ++ Py.item0 spl
  else if Py.endswith nm "_user_queue_user_job" then
    let spl := Py.split "_" nm in
    Py.join "_" (Py.slice_from 1 spl) ++ ":" ++ Py.item0 spl
  else nm.

(** *** The masking substitution [re.sub(r':US:[^:]+', ':US:1', name)] *)

Definition is_colon (c : ascii) : bool := Ascii.eqb c ":".

(** The greedy run [[^:]+] consumes every leading character that is not a
    colon; [skip_run] is what is left after it. *)
Fixpoint skip_run (s : string) : string :=
  match s with
  | EmptyString => EmptyString
  | String c s' => if is_colon c then s else skip_run s'
  end.

(** An attempt to match [:US:[^:]+] at the start of [s]: the text after the
    match, if there is one.  Nothing follows the run in the expression, so the
    greedy match is the match. *)
Definition match_US (s : string) : option string :=
  match s with
  | String c0 (String c1 (String c2 (String c3 (String c r)))) =>
      if Ascii.eqb c0 ":" && Ascii.eqb c1 "U" && Ascii.eqb c2 "S"
         && Ascii.eqb c3 ":" && negb (is_colon c)
      then Some (skip_run r) else None
  | _ => None
  end.

Definition inspect {A} (a : A) : {b : A | a = b} := exist _ a eq_refl.

(** [re.sub] scans from the left; at each position it either replaces the
    match found there and resumes after it, or copies one character. *)
Equations re_sub_US (s : string) : string by wf (String.length s) lt :=
  re_sub_US EmptyString := EmptyString;
  re_sub_US (String c s') with inspect (match_US (String c s')) := {
    | exist _ (Some r) Hm := ":US:1" ++ re_sub_US r;
    | exist _ None _ := String c (re_sub_US s') }.
Next Obligation.
  assert (L : forall t, String.length (skip_run t) <= String.length t).
  { induction t as [|a t IH]; simpl; [lia|]. destruct (is_colon a); simpl; lia. }
  destruct s' as [|c1 [|c2 [|c3 [|c4 t]]]]; simpl in Hm; try discriminate.
  destruct (_ && _); [|discriminate].
  injection Hm as <-. specialize (L t). simpl. lia.
Qed.

(** The name from which templates are derived (line 194): masking, then
    transposition. *)
Definition normalize (name : string) : string := ptransform (re_sub_US name).

(** Whether one of the five special cases of [ptransform] applies. *)
Definition transposes (nm : string) : bool :=
  Py.startswith nm "celery-task-meta"
  || Py.startswith nm "qo_cli.aff_aggregations.aggregate_aff_aname_aname"
  || Py.endswith nm "_trigger_queue_user_job"
  || Py.endswith nm ".reply.celery.pidbox"
  || Py.endswith nm "_user_queue_user_job".

(* ===================================================================== *)
(** ** [fnmatch.fnmatch] (POSIX: [os.path.normcase] is the identity) *)
(* ===================================================================== *)

Module Fnmatch.

(** What [fnmatch.translate] turns a pattern into, one token per construct. *)
Inductive tok : Type :=
| Star                                              (* [*]  *)
| Any                                               (* [?]  *)
| Class (neg : bool) (items : list (ascii * ascii)) (* [[seq]], [[!seq]] *)
| Lit (c : ascii).

(** The search for the closing bracket, started just after [[]: an optional
    [!], then an optional []], are content; the class ends at the next []].
    The result is the content up to it and the text after it. *)
Fixpoint until_close (s : string) : option (string * string) :=
  match s with
  | EmptyString => None
  | String c s' =>
      if Ascii.eqb c "]" then Some (EmptyString, s')
      else match until_close s' with
           | Some (stuff, rest) => Some (String c stuff, rest)
           | None => None
           end
  end.

Definition keep (c : ascii) (r : option (string * string)) : option (string * string) :=
  match r with
  | Some (stuff, rest) => Some (String c stuff, rest)
  | None => None
  end.

Definition after_bang (s : string) : option (string * string) :=
  match s with
  | String c s' => if Ascii.eqb c "]" then keep c (until_close s') else until_close s
  | EmptyString => None
  end.

Definition find_close (s : string) : option (bool * string * string) :=
  match s with
  | String c s' =>
      if Ascii.eqb c "!"
      then match after_bang s' with
           | Some (stuff, rest) => Some (true, stuff, rest)
           | None => None
           end
      else match after_bang s with
           | Some (stuff, rest) => Some (false, stuff, rest)
           | None => None
           end
  | EmptyString => None
  end.

(** The members of a class: [lo-hi] is a range when a character follows the
    hyphen, every other character stands for itself. *)
Fixpoint class_items (stuff : string) : list (ascii * ascii) :=
  match stuff with
  | EmptyString => []
  | String lo (String h (String hi rest) as tl) =>
      if Ascii.eqb h "-" then (lo, hi) :: class_items rest
      else (lo, lo) :: class_items tl
  | String c rest => (c, c) :: class_items rest
  end.

(** [translate]: a [[] with no closing bracket is a literal. *)
Equations translate (pat : string) : list tok by wf (String.length pat) lt :=
  translate EmptyString := [];
  translate (String c p) with Ascii.eqb c "*" := {
    | true := Star :: translate p;
    | false with Ascii.eqb c "?" := {
      | true := Any :: translate p;
      | false with Ascii.eqb c "[" := {
        | false := Lit c :: translate p;
        | true with inspect (find_close p) := {
          | exist _ None _ := Lit c :: translate p;
          | exist _ (Some (neg, stuff, rest)) Hc :=
              Class neg (class_items stuff) :: translate rest } } } }.
Next Obligation.
  assert (U : forall s st r, until_close s = Some (st, r) ->
                             String.length r < String.length s).
  { induction s as [|a s IH]; simpl; [discriminate|]. intros st r.
    destruct (Ascii.eqb a "]"); [intros [= <- <-]; lia|].
    destruct (until_close s) as [[st' r']|]; [|discriminate].
    intros [= <- <-]. specialize (IH _ _ eq_refl). lia. }
  assert (B : forall s st r, after_bang s = Some (st, r) ->
                             String.length r < String.length s).
  { intros [|a s] st r; [discriminate|]. unfold after_bang.
    destruct (Ascii.eqb a "]"); [|apply U].
    destruct (until_close s) as [[st' r']|] eqn:E; simpl; [|discriminate].
    intros [= <- <-]. apply U in E. lia. }
  destruct p as [|a p]; [discriminate|]. unfold find_close in Hc.
  destruct (Ascii.eqb a "!").
  - destruct (after_bang p) as [[st r]|] eqn:E; [|discriminate].
    injection Hc as <- <- <-. apply B in E. simpl. lia.
  - destruct (after_bang (String a p)) as [[st r]|] eqn:E; [|discriminate].
    injection Hc as <- <- <-. apply B in E. simpl in *. lia.
Qed.

Definition in_range (c : ascii) (r : ascii * ascii) : bool :=
  (nat_of_ascii (fst r) <=? nat_of_ascii c)%nat && (nat_of_ascii c <=? nat_of_ascii (snd r))%nat.

Definition tok_ok (t : tok) (c : ascii) : bool :=
  match t with
  | Star | Any => true
  | Lit d => Ascii.eqb c d
  | Class neg items => xorb neg (existsb (in_range c) items)
  end.

(** Matching the whole name: [*] takes any run of characters, the other
    tokens exactly one. *)
Fixpoint gmatch (ts : list tok) (s : string) : bool :=
  match ts with
  | [] => match s with EmptyString => true | _ => false end
  | Star :: ts' =>
      (fix star (s : string) : bool :=
         gmatch ts' s || match s with
                         | EmptyString => false
                         | String _ s' => star s'
                         end) s
  | t :: ts' =>
      match s with
      | EmptyString => false
      | String c s' => tok_ok t c && gmatch ts' s'
      end
  end.

Definition fnmatch (name pat : string) : bool := gmatch (translate pat) name.

End Fnmatch.


(** First character, and the shape of what is left after a greedy run. *)
Definition hd_char (s : string) : option ascii :=
  match s with EmptyString => None | String c _ => Some c end.

Definition colon_or_end (s : string) : Prop :=
  match s with EmptyString => True | String c _ => c = ":"%char end.
(* ===================================================================== *)
(** ** Exceptions and insertion-ordered dictionaries *)
(* ===================================================================== *)

Inductive py_exn : Type :=
| IndexError | ValueError | ZeroDivisionError | KeyError
| ConnectionError | ResponseError | TypeError.

(** A computation that returns or raises. *)
Definition exc (A : Type) : Type := (py_exn + A)%type.

Definition ret {A} (a : A) : exc A := inr a.
Definition raise {A} (e : py_exn) : exc A := inl e.
Definition bind {A B} (m : exc A) (k : A -> exc B) : exc B :=
  match m with
  | inl e => inl e
  | inr a => k a
  end.

Notation "x <- m ;; k" := (bind m (fun x => k))
  (at level 61, m at next level, right associativity).

(** A [for] loop whose body may raise. *)
Fixpoint for_each {A S} (body : S -> A -> exc S) (l : list A) (s : S) : exc S :=
  match l with
  | [] => ret s
  | a :: l' => s' <- body s a ;; for_each body l' s'
  end.

(** A Python [dict] iterates in insertion order and assigning to a key that
    is present keeps its position: an association list with one entry per
    key. *)
Section Dict.
Context {K V : Type} (eqb : K -> K -> bool).

Fixpoint dict_get (k : K) (d : list (K * V)) : option V :=
  match d with
  | [] => None
  | (k', v) :: d' => if eqb k k' then Some v else dict_get k d'
  end.

(** [d[k] = v] *)
Fixpoint dict_set (k : K) (v : V) (d : list (K * V)) : list (K * V) :=
  match d with
  | [] => [(k, v)]
  | (k', v') :: d' =>
      if eqb k k' then (k', v) :: d' else (k', v') :: dict_set k v d'
  end.

Definition dict_keys (d : list (K * V)) : list K := map fst d.

(** [k in l] *)
Definition contains (k : K) (l : list K) : bool := existsb (eqb k) l.

End Dict.

(* ===================================================================== *)
(** ** Data model *)
(* ===================================================================== *)

(** The type identifiers named by [types_rules] (lines 76-82). *)
Inductive type_id : Type :=
| REDIS_TYPE_ID_STRING
| REDIS_TYPE_ID_HASH
| REDIS_TYPE_ID_LIST
| REDIS_TYPE_ID_SET
| REDIS_TYPE_ID_ZSET.

Definition type_id_eqb (a b : type_id) : bool :=
  match a, b with
  | REDIS_TYPE_ID_STRING, REDIS_TYPE_ID_STRING
  | REDIS_TYPE_ID_HASH, REDIS_TYPE_ID_HASH
  | REDIS_TYPE_ID_LIST, REDIS_TYPE_ID_LIST
  | REDIS_TYPE_ID_SET, REDIS_TYPE_ID_SET
  | REDIS_TYPE_ID_ZSET, REDIS_TYPE_ID_ZSET => true
  | _, _ => false
  end.

Definition REDIS_TYPE_ID_ALL : list type_id :=
  [REDIS_TYPE_ID_STRING; REDIS_TYPE_ID_HASH; REDIS_TYPE_ID_LIST;
   REDIS_TYPE_ID_SET; REDIS_TYPE_ID_ZSET].

(** Modelled from the spec: [type_id_to_redis_type] of [rma.redis_types],
    which is not among the sources; the type names are the ones the spec
    uses for filters and census rows. *)
Definition type_id_to_redis_type (t : type_id) : string :=
  match t with
  | REDIS_TYPE_ID_STRING => "string"
  | REDIS_TYPE_ID_HASH => "hash"
  | REDIS_TYPE_ID_LIST => "list"
  | REDIS_TYPE_ID_SET => "set"
  | REDIS_TYPE_ID_ZSET => "zset"
  end.

(** Modelled from the spec: [redis_type_to_id] of [rma.redis_types], the
    inverse on the five type names; a name that is none of them stands for
    no accepted type. *)
Definition redis_type_to_id (n : string) : list type_id :=
  filter (fun t => String.eqb (type_id_to_redis_type t) n) REDIS_TYPE_ID_ALL.

(** One scanned key, as in the docstring of [get_pattern_aggregated_data]:
    [{'name': 'a:b:c:0123', 'type': 1, 'encoding': 4, 'ttl': -1}]. *)
Record KeyRecord : Type := mkKey {
  name : string;
  type : type_id;
  encoding : Z;
  ttl : Z
}.

(** The groups of one type: template to member records. *)
Definition groups : Type := list (string * list KeyRecord).

(** [len(l)] *)
Definition len {A} (l : list A) : Z := Z.of_nat (length l).

(* ===================================================================== *)
(** ** Pattern deriver *)
(* ===================================================================== *)

Module SimpleSplitter.

Definition is_digit (c : ascii) : bool :=
  (48 <=? nat_of_ascii c)%nat && (nat_of_ascii c <=? 57)%nat.

Fixpoint all_digits (s : string) : bool :=
  match s with
  | EmptyString => true
  | String c s' => is_digit c && all_digits s'
  end.

Definition glob_part (seg : string) : string :=
  match seg with
  | EmptyString => seg
  | String _ _ => if all_digits seg then "*" else seg
  end.

Definition template_of (sep : ascii) (nm : string) : string :=
  Py.join (String sep EmptyString) (map glob_part (Py.split sep nm)).

Fixpoint distinct (seen l : list string) : list string :=
  match l with
  | [] => []
  | x :: l' =>
      if contains String.eqb x seen then distinct seen l'
      else x :: distinct (x :: seen) l'
  end.

(** Modelled from the spec: the Pattern Deriver, [SimpleSplitter.split] of
    [rma.splitter], which is not among the sources.  The spec leaves its
    algorithm open and says only that it returns the distinct wildcard
    templates covering the names, with variable segments replaced by a glob
    wildcard; its examples turn [user:1:p] and [user:2:p] into [user:*:p], and
    the docstring of [get_pattern_aggregated_data] turns [a:b:c:0123] into
    [a:b:c:*].  Here a segment between separators that is made of decimal
    digits only is the variable one. *)
Definition split (sep : ascii) (data : list string) : list string :=
  distinct [] (map (template_of sep) data).

End SimpleSplitter.

(* ===================================================================== *)
(** ** Pattern grouper *)
(* ===================================================================== *)

Section Grouper.

(** [self.splitter.split]: the pattern deriver, consumed as a function from
    the names it is given to the templates. *)
Variable splitter_split : list string -> list string.

(** The membership test of line 201. *)
Definition member_of (pattern : string) (obj : KeyRecord) : bool :=
  Fnmatch.fnmatch (ptransform (name obj)) pattern.

(** Line 194: the templates derived from the masked and transposed names. *)
Definition derived_templates (data : list KeyRecord) : list string :=
  splitter_split (map (fun obj => ptransform (re_sub_US (name obj))) data).

(** Lines 185-204.  [data[0]] raises [IndexError] on an empty list. *)
Definition get_pattern_aggregated_data (data : list KeyRecord) : exc groups :=
  match data with
  | [] => raise IndexError
  | _ :: _ =>
      let split_patterns := derived_templates data in
      let aggregate_patterns : groups :=
        fold_left (fun d item => dict_set String.eqb item [] d) split_patterns [] in
      ret (fold_left
             (fun d pattern =>
                dict_set String.eqb pattern (filter (member_of pattern) data) d)
             split_patterns aggregate_patterns)
  end.

(** Lines 129-131: [keys = defaultdict(list)], then
    [keys[v["type"]].append(v)] for every scanned record. *)
Definition defaultdict_append (keys : list (type_id * list KeyRecord)) (v : KeyRecord)
  : list (type_id * list KeyRecord) :=
  match dict_get type_id_eqb (type v) keys with
  | Some l => dict_set type_id_eqb (type v) (l ++ [v])%list keys
  | None => dict_set type_id_eqb (type v) ([] ++ [v])%list keys
  end.

Definition keys_by_type (scanned : list KeyRecord) : list (type_id * list KeyRecord) :=
  fold_left defaultdict_append scanned [].

(** Line 136: the dict comprehension over [keys.items()]. *)
Definition aggregate_all (keys : list (type_id * list KeyRecord))
  : exc (list (type_id * groups)) :=
  for_each (fun d kv =>
              g <- get_pattern_aggregated_data (snd kv) ;;
              ret (dict_set type_id_eqb (fst kv) g d))
           keys [].

End Grouper.

(* ===================================================================== *)
(** ** [list.sort(key=..., reverse=True)] *)
(* ===================================================================== *)

(** Python's sort is stable, also with [reverse=True]: elements with equal
    keys keep the order they had.  The model inserts each element, from the
    right, before the first element whose key is not larger. *)
Section Sort.
Context {A : Type} (key : A -> Z).

Fixpoint insert_desc (x : A) (l : list A) : list A :=
  match l with
  | [] => [x]
  | y :: l' => if (key x <? key y)%Z then y :: insert_desc x l' else x :: y :: l'
  end.

Definition sort_reverse (l : list A) : list A := fold_right insert_desc [] l.

(** The elements with a given key, in the order of the list, and lists whose
    keys never increase. *)
Definition with_key (c : Z) (l : list A) : list A :=
  filter (fun a => (key a =? c)%Z) l.

Definition descending : list A -> Prop :=
  StronglySorted (fun a b => (key b <= key a)%Z).

End Sort.

(* ===================================================================== *)
(** ** Rules, registries and the store *)
(* ===================================================================== *)

(** The rule classes of [rma.rule] that [init_types_rules] instantiates; the
    class [Set] is written [Set_]. *)
Inductive rule : Type := KeyString | ValueString | Hash | List | Set_.

Inductive global : Type := GlobalKeySpace.

(** The class attributes [globals] and [types_rules] (lines 74-82): shared by
    every instance and extended by every [run]. *)
Record class_state : Type := mkClass {
  globals : list global;
  types_rules : list (type_id * list rule)
}.

Definition class_initial : class_state :=
  {| globals := [];
     types_rules := [(REDIS_TYPE_ID_STRING, []); (REDIS_TYPE_ID_HASH, []);
                     (REDIS_TYPE_ID_LIST, []); (REDIS_TYPE_ID_SET, []);
                     (REDIS_TYPE_ID_ZSET, [])] |}.

(** [d[k]] *)
Definition getitem {K V} (eqb : K -> K -> bool) (k : K) (d : list (K * V)) : exc V :=
  match dict_get eqb k d with
  | Some v => ret v
  | None => raise KeyError
  end.

(** [self.types_rules[t].append(r)] *)
Definition rules_append (t : type_id) (r : rule) (reg : list (type_id * list rule))
  : exc (list (type_id * list rule)) :=
  l <- getitem type_id_eqb t reg ;;
  ret (dict_set type_id_eqb t (l ++ [r])%list reg).

(** Lines 109-120. *)
Definition init_types_rules (reg : list (type_id * list rule))
  : exc (list (type_id * list rule)) :=
  reg <- rules_append REDIS_TYPE_ID_STRING KeyString reg ;;
  reg <- rules_append REDIS_TYPE_ID_STRING ValueString reg ;;
  reg <- rules_append REDIS_TYPE_ID_HASH KeyString reg ;;
  reg <- rules_append REDIS_TYPE_ID_HASH Hash reg ;;
  reg <- rules_append REDIS_TYPE_ID_LIST KeyString reg ;;
  reg <- rules_append REDIS_TYPE_ID_LIST List reg ;;
  reg <- rules_append REDIS_TYPE_ID_SET KeyString reg ;;
  reg <- rules_append REDIS_TYPE_ID_SET Set_ reg ;;
  rules_append REDIS_TYPE_ID_ZSET KeyString reg.

(** Lines 106-107. *)
Definition init_globals (g : list global) : list global := (g ++ [GlobalKeySpace])%list.

(* ===================================================================== *)
(** ** [int(s)] and the version check *)
(* ===================================================================== *)

Module Int.

Definition is_digit (c : ascii) : bool :=
  (48 <=? nat_of_ascii c)%nat && (nat_of_ascii c <=? 57)%nat.

Definition digit (c : ascii) : Z := Z.of_nat (nat_of_ascii c - 48).

Definition is_space (c : ascii) : bool :=
  let n := nat_of_ascii c in
  ((9 <=? n) && (n <=? 13) || (28 <=? n) && (n <=? 32))%nat.

Fixpoint all_space (s : string) : bool :=
  match s with
  | EmptyString => true
  | String c s' => is_space c && all_space s'
  end.

Fixpoint lstrip (s : string) : string :=
  match s with
  | EmptyString => s
  | String c s' => if is_space c then lstrip s' else s
  end.

(** The digits of the literal: single underscores may separate digits, and
    only blanks may follow the last digit. *)
Fixpoint digits (acc : Z) (after_digit : bool) (s : string) : option Z :=
  match s with
  | EmptyString => if after_digit then Some acc else None
  | String c s' =>
      if is_digit c then digits (10 * acc + digit c)%Z true s'
      else if after_digit && Ascii.eqb c "_" then digits acc false s'
      else if after_digit && is_space c && all_space s' then Some acc
      else None
  end.

(** [int(s)] on text in ASCII, base ten; [None] is [ValueError]. *)
Definition parse (s : string) : option Z :=
  match lstrip s with
  | String c s' =>
      if Ascii.eqb c "-" then option_map Z.opp (digits 0 false s')
      else if Ascii.eqb c "+" then digits 0 false s'
      else digits 0 false (String c s')
  | EmptyString => None
  end.

End Int.

(** [tuple(map(int, l))] *)
Fixpoint map_int (l : list string) : exc (list Z) :=
  match l with
  | [] => ret []
  | s :: l' =>
      match Int.parse s with
      | None => raise ValueError
      | Some z => zs <- map_int l' ;; ret (z :: zs)
      end
  end.

(** [t[i]] on a tuple, [i >= 0] *)
Definition index (t : list Z) (i : nat) : exc Z :=
  match nth_error t i with
  | Some z => ret z
  | None => raise IndexError
  end.

(** Lines 63-65, on the reply of [redis.info()]. *)
Definition reported_version (redis_info : exc (list (string * string))) : exc (list Z) :=
  server_info <- redis_info ;;
  version_str <- getitem String.eqb "redis_version" server_info ;;
  map_int (Py.split "." version_str).

(** Lines 62-70.  The second component is read only when the first one
    is 2. *)
Definition check_redis_version (redis_info : exc (list (string * string))) : exc bool :=
  version <- reported_version redis_info ;;
  v0 <- index version 0 ;;
  if (v0 >? 2)%Z then ret true
  else
    v0' <- index version 0 ;;
    if (v0' =? 2)%Z then
      v1 <- index version 1 ;;
      if (v1 >=? 6)%Z then ret true else ret false
    else ret false.

(** The versions the check lets through: [major > 2], or [major == 2] and
    [minor >= 6]. *)
Definition supported (version : list Z) : Prop :=
  match version with
  | major :: rest =>
      (2 < major)%Z
      \/ (major = 2%Z /\ match rest with
                        | minor :: _ => (6 <= minor)%Z
                        | [] => False
                        end)
  | [] => False
  end.

(* ===================================================================== *)
(** ** The application *)
(* ===================================================================== *)

(** The entries of the [filters] dictionary that [__init__] looks up, each
    present or not. *)
Record filters : Type := mkFilters {
  filter_types : option (list string);
  filter_behaviour : option string
}.

(** The options of [__init__] that the pipeline reads.  [filters] is [None]
    when the caller leaves it out (the default of line 84). *)
Record config : Type := mkConfig {
  cfg_format : string;
  cfg_separator : string;
  cfg_match : string;
  cfg_limit : Z;
  cfg_filters : option filters
}.

(** The fields of an instance. *)
Record RmaApplication : Type := mkApp {
  separator : string;
  isTextFormat : bool;
  match_ : string;
  limit : Z;
  types : list type_id;
  behaviour : string
}.

Definition sys_maxsize : Z := 2 ^ 63 - 1.

Definition newline : string := String (ascii_of_nat 10) EmptyString.

Section Application.

(** Collaborators that are not part of the module: the pattern deriver, the
    analysis rules, the global analyzers, the float quotient of two integers
    with [floored_percentage], and the store with its scanner. *)
Variable splitter_split : string -> list string -> list string.
Context {float percent stat node : Type}.
Variable truediv : Z -> Z -> float.
Variable floored_percentage : float -> Z -> percent.
Variable analyze : rule -> groups -> Z -> stat.
Variable global_analyze : global -> node.
Variable redis_info : exc (list (string * string)).
Variable redis_dbsize : Z.
Variable scanner_scan : string -> list type_id -> Z -> list KeyRecord.

(** A census row [[name, count, type, percent]]. *)
Record row : Type := mkRow {
  row_name : string;
  row_count : Z;
  row_type : string;
  row_percent : percent
}.

(** The partial results that [run] collects in [str_res]. *)
Inductive partial_result : Type :=
| Nodes (nodes : list node)
| Keys (data : list row) (headers : list string)
| Stat (stat_map : list (string * stat)).

(** What the statements of the module do that can be seen from outside: the
    queries they send to the store, the scan they start, what they write and
    what they hand to the reporter.  The queries that a rule or a global
    analyzer sends on its own inside [analyze] are not among the sources and
    are not recorded. *)
Inductive event : Type :=
| CallInfo
| WriteStderr (msg : string)
| CallScan (pattern : string) (accepted_types : list type_id) (scan_limit : Z)
| CallDbsize
| ReporterPrint (str_res : list partial_result).

Inductive halt : Type :=
| SystemExit (code : Z)
| Uncaught (e : py_exn).

(** A step of the process: the events so far, and a value or the end. *)
Definition prog (A : Type) : Type := (list event * (halt + A))%type.

Definition pret {A} (a : A) : prog A := ([], inr a).
Definition emit (e : event) : prog unit := ([e], inr tt).
Definition stop {A} (h : halt) : prog A := ([], inl h).
Definition lift {A} (m : exc A) : prog A :=
  match m with
  | inl e => ([], inl (Uncaught e))
  | inr a => ([], inr a)
  end.
Definition pbind {A B} (m : prog A) (k : A -> prog B) : prog B :=
  match m with
  | (t, inl h) => (t, inl h)
  | (t, inr a) => let (t', r) := k a in ((t ++ t')%list, r)
  end.

Notation "x <~ m ;; k" := (pbind m (fun x => k))
  (at level 61, m at next level, right associativity).

(** Before the scan only the version query and the message on the error
    stream can have happened. *)
Definition before_scan (ev : event) : Prop :=
  ev = CallInfo \/ exists msg, ev = WriteStderr msg.

(** The exit status of the process: the argument of [sys.exit], and 1 after
    an exception that nothing catches. *)
Definition exit_status (h : halt) : Z :=
  match h with
  | SystemExit code => code
  | Uncaught _ => 1
  end.

(** Lines 39-59.  [sys.exit(-1)] raises [SystemExit], which neither [except]
    clause catches. *)
Definition connect_to_redis : prog unit :=
  _ <~ emit CallInfo ;;
  match check_redis_version redis_info with
  | inr true => pret tt
  | inr false =>
      _ <~ emit (WriteStderr
                   ("This script only works with Redis Server version 2.6.x or higher"
                      ++ newline)) ;;
      stop (SystemExit (-1))
  | inl ConnectionError | inl ResponseError =>
      _ <~ emit (WriteStderr ("Could not connect to Redis Server" ++ newline)) ;;
      stop (SystemExit (-1))
  | inl e => stop (Uncaught e)
  end.

(** Lines 84-104.  With [filters] left at [None], the test
    ['types' in filters] of line 96 raises [TypeError]. *)
Definition init (cfg : config) : prog RmaApplication :=
  _ <~ connect_to_redis ;;
  match cfg_filters cfg with
  | None => stop (Uncaught TypeError)
  | Some given =>
      pret {| separator := cfg_separator cfg;
              isTextFormat := String.eqb (cfg_format cfg) "text";
              match_ := cfg_match cfg;
              limit := if (cfg_limit cfg =? 0)%Z then sys_maxsize else cfg_limit cfg;
              types := match filter_types given with
                       | Some names => flat_map redis_type_to_id names
                       | None => REDIS_TYPE_ID_ALL
                       end;
              behaviour := match filter_behaviour given with
                           | Some b => b
                           | None => "all"
                           end |}
  end.

(** Lines 150-155. *)
Definition do_globals (gs : list global) : partial_result :=
  Nodes (map global_analyze gs).

Definition census_headers : list string := ["name"; "count"; "type"; "percent"].

(** The row appended at line 166; the division raises when [total] is 0. *)
Definition census_row (total : Z) (r_type : string) (kv : string * list KeyRecord)
  : exc row :=
  if (total =? 0)%Z then raise ZeroDivisionError
  else ret {| row_name := fst kv;
              row_count := len (snd kv);
              row_type := r_type;
              row_percent := floored_percentage (truediv (len (snd kv)) total) 2 |}.

(** Lines 157-169: every row is appended and the list sorted again. *)
Definition do_scanner (self : RmaApplication) (res : list (type_id * groups))
  : exc partial_result :=
  let total := Z.min redis_dbsize (limit self) in
  keys <- for_each
            (fun keys ta =>
               let r_type := type_id_to_redis_type (fst ta) in
               for_each
                 (fun keys kv =>
                    r <- census_row total r_type kv ;;
                    ret (sort_reverse row_count (keys ++ [r])%list))
                 (snd ta) keys)
            res [] ;;
  ret (Keys keys census_headers).

(** The rows in the order in which line 166 appends them, and the census
    that sorts them once after the last insertion. *)
Definition census_rows (total : Z) (res : list (type_id * groups)) : exc (list row) :=
  for_each
    (fun acc ta =>
       for_each
         (fun acc kv =>
            r <- census_row total (type_id_to_redis_type (fst ta)) kv ;;
            ret (acc ++ [r])%list)
         (snd ta) acc)
    res [].

Definition do_scanner_sorting_once (self : RmaApplication) (res : list (type_id * groups))
  : exc partial_result :=
  rows <- census_rows (Z.min redis_dbsize (limit self)) res ;;
  ret (Keys (sort_reverse row_count rows) census_headers).

(** [sum(len(values) for key, values in aggregate_patterns.items())] *)
Definition total_keys (aggregate_patterns : groups) : Z :=
  fold_left Z.add (map (fun kv => len (snd kv)) aggregate_patterns) 0%Z.

(** Lines 178-181: the loop over the rules of one type; every rule assigns
    to the slot of the type. *)
Definition apply_rules (redis_type : string) (aggregate_patterns : groups)
  (rules : list rule) (ret : list (string * stat)) : list (string * stat) :=
  fold_left
    (fun ret rule =>
       dict_set String.eqb redis_type
         (analyze rule aggregate_patterns (total_keys aggregate_patterns)) ret)
    rules ret.

(** Lines 174-181: the loop over the types of the grouped data. *)
Definition ram_loop (self : RmaApplication) (cls : class_state)
  (res : list (type_id * groups)) (ret : list (string * stat)) : list (string * stat) :=
  fold_left
    (fun ret ta =>
       let key := fst ta in
       let aggregate_patterns := snd ta in
       if contains type_id_eqb key (dict_keys (types_rules cls))
          && contains type_id_eqb key (types self)
       then
         let redis_type := type_id_to_redis_type key in
         match dict_get type_id_eqb key (types_rules cls) with
         | Some rules => apply_rules redis_type aggregate_patterns rules ret
         | None => ret
         end
       else ret)
    res ret.

(** Lines 171-183. *)
Definition do_ram (self : RmaApplication) (cls : class_state)
  (res : list (type_id * groups)) : partial_result :=
  Stat (ram_loop self cls res []).

(** Lines 122-148.  The class attributes are read and extended; the result
    is their new value. *)
Definition run (self : RmaApplication) (cls : class_state) : prog class_state :=
  reg <~ lift (init_types_rules (types_rules cls)) ;;
  let cls := {| globals := init_globals (globals cls); types_rules := reg |} in
  let is_all := String.eqb (behaviour self) "all" in
  _ <~ emit (CallScan (match_ self) (types self) (limit self)) ;;
  let keys := keys_by_type (scanner_scan (match_ self) (types self) (limit self)) in
  _ <~ (if isTextFormat self then emit CallDbsize else pret tt) ;;
  keys <~ lift (aggregate_all (splitter_split (separator self)) keys) ;;
  let str_res := [] in
  let str_res :=
    if String.eqb (behaviour self) "global" || is_all
    then (str_res ++ [do_globals (globals cls)])%list else str_res in
  str_res <~ (if String.eqb (behaviour self) "scanner" || is_all
              then _ <~ emit CallDbsize ;;
                   r <~ lift (do_scanner self keys) ;;
                   pret (str_res ++ [r])%list
              else pret str_res) ;;
  let str_res :=
    if String.eqb (behaviour self) "ram" || is_all
    then (str_res ++ [do_ram self cls keys])%list else str_res in
  _ <~ emit (ReporterPrint str_res) ;;
  pret cls.

(** An instance exists only once [__init__] has returned: constructing the
    application and calling [run] on it. *)
Definition session (cfg : config) (cls : class_state) : prog class_state :=
  self <~ init cfg ;;
  run self cls.

End Application.

Arguments row : clear implicits.
Arguments partial_result : clear implicits.
Arguments event : clear implicits.
Arguments prog : clear implicits.

(* ===================================================================== *)
(** ** Sample collaborators and data *)
(* ===================================================================== *)

(** Stand-ins for the collaborators, used to run the pipeline on examples:
    a quotient is kept as the pair of its operands and floored exactly, a
    rule answers with its own name and the total it was given, and the
    scanner reads a fixed store. *)
Module Sample.

Definition truediv (a b : Z) : Z * Z := (a, b).

Definition floored_percentage (q : Z * Z) (digits : Z) : Z :=
  (fst q * 100 * 10 ^ digits / snd q)%Z.

Definition analyze (r : rule) (g : groups) (total : Z) : rule * Z := (r, total).

Definition global_analyze (g : global) : unit := tt.

Definition key (nm : string) (t : type_id) : KeyRecord :=
  {| name := nm; type := t; encoding := 0; ttl := -1 |}.

Definition store : list KeyRecord :=
  [key "rank:7" REDIS_TYPE_ID_ZSET; key "user:1:p" REDIS_TYPE_ID_STRING;
   key "user:2:p" REDIS_TYPE_ID_STRING; key "cart:9" REDIS_TYPE_ID_HASH].

Fixpoint take (n : Z) (l : list KeyRecord) : list KeyRecord :=
  match l with
  | [] => []
  | k :: l' => if (n <=? 0)%Z then [] else k :: take (n - 1) l'
  end.

Definition scanner_scan (pattern : string) (accepted : list type_id) (scan_limit : Z)
  : list KeyRecord :=
  take scan_limit (filter (fun k => contains type_id_eqb (type k) accepted) store).

(** The pattern deriver for a separator given as a string: its first
    character. *)
Definition splitter_split (sep : string) (data : list string) : list string :=
  match sep with
  | String c _ => SimpleSplitter.split c data
  | EmptyString => data
  end.

Definition redis_info (version_str : string) : exc (list (string * string)) :=
  ret [("redis_version", version_str)].

Definition cfg (mode : string) (wanted : option (list string)) : config :=
  {| cfg_format := "json"; cfg_separator := ":"; cfg_match := "*"; cfg_limit := 0;
     cfg_filters := Some {| filter_types := wanted; filter_behaviour := Some mode |} |}.

Definition app (mode : string) (accepted : list type_id) : RmaApplication :=
  {| separator := ":"; isTextFormat := false; match_ := "*"; limit := sys_maxsize;
     types := accepted; behaviour := mode |}.

(** The registry after one [init_types_rules] on the class's initial one. *)
Definition registry : list (type_id * list rule) :=
  [(REDIS_TYPE_ID_STRING, [KeyString; ValueString]);
   (REDIS_TYPE_ID_HASH, [KeyString; Hash]);
   (REDIS_TYPE_ID_LIST, [KeyString; List]);
   (REDIS_TYPE_ID_SET, [KeyString; Set_]);
   (REDIS_TYPE_ID_ZSET, [KeyString])].

(** The grouped data of the sample store. *)
Definition grouped : list (type_id * groups) :=
  [(REDIS_TYPE_ID_ZSET, [("rank:*", [key "rank:7" REDIS_TYPE_ID_ZSET])]);
   (REDIS_TYPE_ID_STRING,
    [("user:*:p", [key "user:1:p" REDIS_TYPE_ID_STRING;
                   key "user:2:p" REDIS_TYPE_ID_STRING])]);
   (REDIS_TYPE_ID_HASH, [("cart:*", [key "cart:9" REDIS_TYPE_ID_HASH])])].

(** A key whose [:US:] run swallows the suffix that the third transposition
    rule looks for. *)
Definition queue_key : KeyRecord :=
  key "x:US:a_trigger_queue_user_job" REDIS_TYPE_ID_STRING.

End Sample.

(* ===================================================================== *)
(** ** Notions used to state the properties *)
(* ===================================================================== *)

(** The number of occurrences of a character, and text without it. *)
Fixpoint count_char (c : ascii) (s : string) : nat :=
  match s with
  | EmptyString => 0
  | String d s' => (if Ascii.eqb d c then 1 else 0) + count_char c s'
  end.

Definition free_of (c : ascii) (s : string) : Prop := count_char c s = 0.

(** The rules that [init_types_rules] appends for a type, in its order. *)
Definition registered (t : type_id) : list rule :=
  match t with
  | REDIS_TYPE_ID_STRING => [KeyString; ValueString]
  | REDIS_TYPE_ID_HASH => [KeyString; Hash]
  | REDIS_TYPE_ID_LIST => [KeyString; List]
  | REDIS_TYPE_ID_SET => [KeyString; Set_]
  | REDIS_TYPE_ID_ZSET => [KeyString]
  end.

(** The scanned records of one type, in scan order. *)
Definition of_type (t : type_id) (scanned : list KeyRecord) : list KeyRecord :=
  filter (fun r => type_id_eqb (type r) t) scanned.

(** The elements of a list without repetition, each at its first place. *)
Fixpoint first_occurrences {K} (eqb : K -> K -> bool) (l : list K) : list K :=
  match l with
  | [] => []
  | x :: l' => x :: filter (fun y => negb (eqb y x)) (first_occurrences eqb l')
  end.

(** The lists handed to the reporter in a run of events. *)
Fixpoint printed {percent stat node : Type} (trace : list (event percent stat node))
  : list (list (partial_result percent stat node)) :=
  match trace with
  | [] => []
  | ReporterPrint str_res :: trace' => str_res :: printed trace'
  | _ :: trace' => printed trace'
  end.

(** The census row of a template and its group, and the rows of the grouped
    data in the order of the two loops of [do_scanner]. *)
Section CensusRows.
Context {float percent : Type}.
Variable truediv : Z -> Z -> float.
Variable floored_percentage : float -> Z -> percent.

Definition row_of (total : Z) (r_type : string) (kv : string * list KeyRecord)
  : row percent :=
  {| row_name := fst kv;
     row_count := len (snd kv);
     row_type := r_type;
     row_percent := floored_percentage (truediv (len (snd kv)) total) 2 |}.

Definition rows_of (total : Z) (res : list (type_id * groups)) : list (row percent) :=
  flat_map (fun ta => map (row_of total (type_id_to_redis_type (fst ta))) (snd ta)) res.

End CensusRows.

(** The scans started in a run of events, with their arguments. *)
Fixpoint scans {percent stat node : Type} (trace : list (event percent stat node))
  : list (string * list type_id * Z) :=
  match trace with
  | [] => []
  | CallScan pattern accepted_types scan_limit :: trace' =>
      (pattern, accepted_types, scan_limit) :: scans trace'
  | _ :: trace' => scans trace'
  end.

(** The instance that [__init__] builds from the options and a [filters]
    dictionary (lines 88-104). *)
Definition instance_of (cfg : config) (given : filters) : RmaApplication :=
  {| separator := cfg_separator cfg;
     isTextFormat := String.eqb (cfg_format cfg) "text";
     match_ := cfg_match cfg;
     limit := if (cfg_limit cfg =? 0)%Z then sys_maxsize else cfg_limit cfg;
     types := match filter_types given with
              | Some names => flat_map redis_type_to_id names
              | None => REDIS_TYPE_ID_ALL
              end;
     behaviour := match filter_behaviour given with
                  | Some b => b
                  | None => "all"
                  end |}.

(** Whether one of the two prefix rules of [ptransform] applies to a name. *)
Definition prefixed (nm : string) : bool :=
  Py.startswith nm "celery-task-meta"
  || Py.startswith nm "qo_cli.aff_aggregations.aggregate_aff_aname_aname".

(** Whether a behaviour asks for a branch of [run], and the kind of a
    partial result. *)
Definition wants (self : RmaApplication) (mode : string) : bool :=
  String.eqb (behaviour self) mode || String.eqb (behaviour self) "all".

Inductive kind : Type := OfGlobals | OfScanner | OfRam.

Definition kind_of {percent stat node : Type} (r : partial_result percent stat node)
  : kind :=
  match r with
  | Nodes _ => OfGlobals
  | Keys _ _ => OfScanner
  | Stat _ => OfRam
  end.

(* ===================================================================== *)
(** * Properties *)
(* ===================================================================== *)

(** ** Name normalizer *)

Lemma match_US_length s r : match_US s = Some r -> String.length r < String.length s.
Proof.
  destruct s as [|c0 [|c1 [|c2 [|c3 [|c t]]]]]; simpl; try discriminate.
  destruct (_ && _); [|discriminate].
  intros [= <-].
  assert (L : forall u, String.length (skip_run u) <= String.length u).
  { induction u as [|a u IH]; simpl; [lia|]. destruct (is_colon a); simpl; lia. }
  specialize (L t). lia.
Qed.

Lemma re_sub_US_cons c s :
  re_sub_US (String c s) =
  match match_US (String c s) with
  | Some r => ":US:1" ++ re_sub_US r
  | None => String c (re_sub_US s)
  end.
Proof.
  simp re_sub_US.
  destruct (inspect (match_US (String c s))) as [[r|] H];
    simp re_sub_US; rewrite H; reflexivity.
Qed.


Lemma match_US_colon c s r : match_US (String c s) = Some r -> c = ":"%char.
Proof.
  destruct s as [|c1 [|c2 [|c3 [|c4 t]]]]; simpl; try discriminate.
  destruct (Ascii.eqb_spec c ":"); simpl; [auto | discriminate].
Qed.

Lemma re_sub_US_hd s : hd_char (re_sub_US s) = hd_char s.
Proof.
  destruct s as [|c s]; [reflexivity|].
  rewrite re_sub_US_cons.
  destruct (match_US (String c s)) eqn:E; [|reflexivity].
  apply match_US_colon in E. subst c. reflexivity.
Qed.

Lemma skip_run_colon_or_end s : colon_or_end (skip_run s).
Proof.
  induction s as [|c s IH]; simpl; [exact I|].
  unfold is_colon. destruct (Ascii.eqb_spec c ":"); simpl; auto.
Qed.

Lemma skip_run_fixed s : colon_or_end s -> skip_run s = s.
Proof. destruct s as [|c s]; simpl; [reflexivity|]. intros ->. reflexivity. Qed.

Lemma re_sub_US_colon_or_end s : colon_or_end s -> colon_or_end (re_sub_US s).
Proof.
  intros H. pose proof (re_sub_US_hd s) as E.
  destruct s as [|c s], (re_sub_US _) as [|d t]; simpl in *; congruence.
Qed.

Lemma re_sub_US_skip c s :
  c <> ":"%char -> re_sub_US (String c s) = String c (re_sub_US s).
Proof.
  intros Hc. rewrite re_sub_US_cons.
  destruct (match_US (String c s)) eqn:E; [|reflexivity].
  apply match_US_colon in E. contradiction.
Qed.

(** A position where the expression does not match still fails to match once
    the text after it has been masked. *)
Lemma match_US_None_masked c s :
  match_US (String c s) = None -> match_US (String c (re_sub_US s)) = None.
Proof.
  intros HN.
  destruct (match_US (String c (re_sub_US s))) as [r|] eqn:HS; [exfalso|reflexivity].
  pose proof (match_US_colon _ _ _ HS) as ->.
  destruct s as [|c1 s1]; [simp re_sub_US in HS; discriminate|].
  destruct (Ascii.eqb_spec c1 "U") as [->|N1].
  2:{ pose proof (re_sub_US_hd (String c1 s1)) as E.
      destruct (re_sub_US (String c1 s1)) as [|d1 [|d2 [|d3 [|d4 t]]]];
        simpl in HS; try discriminate.
      simpl in E. injection E as ->.
      destruct (Ascii.eqb_spec c1 "U"); [contradiction|]. simpl in HS. discriminate. }
  rewrite re_sub_US_skip in HS by discriminate.
  destruct s1 as [|c2 s2]; [simp re_sub_US in HS; discriminate|].
  destruct (Ascii.eqb_spec c2 "S") as [->|N2].
  2:{ pose proof (re_sub_US_hd (String c2 s2)) as E.
      destruct (re_sub_US (String c2 s2)) as [|d2 [|d3 [|d4 t]]];
        simpl in HS; try discriminate.
      simpl in E. injection E as ->.
      destruct (Ascii.eqb_spec c2 "S"); [contradiction|]. simpl in HS. discriminate. }
  rewrite re_sub_US_skip in HS by discriminate.
  destruct s2 as [|c3 s3]; [simp re_sub_US in HS; discriminate|].
  destruct (Ascii.eqb_spec c3 ":") as [->|N3].
  2:{ pose proof (re_sub_US_hd (String c3 s3)) as E.
      destruct (re_sub_US (String c3 s3)) as [|d3 [|d4 t]];
        simpl in HS; try discriminate.
      simpl in E. injection E as ->.
      destruct (Ascii.eqb_spec c3 ":"); [contradiction|]. simpl in HS. discriminate. }
  destruct s3 as [|c4 s4].
  { rewrite re_sub_US_cons in HS. simpl in HS. simp re_sub_US in HS.
    simpl in HS. discriminate. }
  (* the original text is ":US:" followed by c4: it matched unless c4 is a colon *)
  simpl in HN. unfold is_colon in HN.
  destruct (Ascii.eqb_spec c4 ":") as [->|N4]; [|simpl in HN; discriminate].
  rewrite re_sub_US_cons in HS.
  destruct (match_US (String ":" (String ":" s4))) eqn:E1.
  { destruct s4 as [|? [|? [|? ?]]]; simpl in E1; discriminate. }
  pose proof (re_sub_US_colon_or_end (String ":" s4) eq_refl) as E.
  destruct (re_sub_US (String ":" s4)) as [|d4 t]; simpl in HS; [discriminate|].
  simpl in E. subst d4. simpl in HS. discriminate.
Qed.

Lemma re_sub_US_idempotent s : re_sub_US (re_sub_US s) = re_sub_US s.
Proof.
  induction s as [s IH] using (well_founded_induction
                                 (Wf_nat.well_founded_ltof _ String.length)).
  destruct s as [|c s]; [reflexivity|].
  rewrite re_sub_US_cons.
  destruct (match_US (String c s)) as [r|] eqn:E.
  - pose proof (match_US_length _ _ E) as Hlt.
    assert (Hr : colon_or_end r).
    { destruct s as [|c1 [|c2 [|c3 [|c4 t]]]]; simpl in E; try discriminate.
      destruct (_ && _); [|discriminate]. injection E as <-.
      apply skip_run_colon_or_end. }
    pose proof (re_sub_US_colon_or_end r Hr) as Hr'.
    change (":US:1" ++ re_sub_US r) with
      (String ":" (String "U" (String "S" (String ":" (String "1" (re_sub_US r)))))).
    rewrite re_sub_US_cons. simpl match_US.
    rewrite (skip_run_fixed _ Hr'). simpl.
    rewrite (IH r Hlt). reflexivity.
  - rewrite re_sub_US_cons, (match_US_None_masked _ _ E).
    rewrite (IH s); [reflexivity|]. unfold Wf_nat.ltof. simpl. lia.
Qed.


Lemma ptransform_untouched nm : transposes nm = false -> ptransform nm = nm.
Proof.
  unfold transposes, ptransform. intros H.
  repeat (apply orb_false_iff in H; destruct H as [H ?]).
  repeat match goal with E : _ = false |- _ => rewrite E; clear E end.
  reflexivity.
Qed.

(** C4, as the code computes it: the first three segments are [celery],
    [task] and [meta], so the colon replaces the hyphen after
    [celery-task-meta]. *)
Theorem normalize_celery_example :
  normalize "celery-task-meta-aa-bb-cc-dd-ee" = "celery-task-meta:aa-bb-cc-dd-ee".
Proof. vm_compute. reflexivity. Qed.

Lemma celery_example_other_value :
  normalize "celery-task-meta-aa-bb-cc-dd-ee" <> "celery-task-meta-aa-bb:cc-dd-ee".
Proof. vm_compute. discriminate. Qed.

(** The [celery-task-meta] prefix survives the rewrite, so the rule applies
    again to its own output. *)
Lemma normalize_not_idempotent : ~ (forall x, normalize (normalize x) = normalize x).
Proof.
  intros H. specialize (H "celery-task-meta"). vm_compute in H. discriminate.
Qed.

(** The masking step is idempotent on every name, and the whole
    normalization is idempotent on every name whose masked form triggers
    none of the five transposition rules. *)
Lemma normalize_idempotent_untransposed (x : string) :
  re_sub_US (re_sub_US x) = re_sub_US x
  /\ (transposes (re_sub_US x) = false -> normalize (normalize x) = normalize x).
Proof.
  split; [apply re_sub_US_idempotent|].
  intros H. unfold normalize.
  rewrite (ptransform_untouched _ H), re_sub_US_idempotent.
  apply ptransform_untouched, H.
Qed.

(** ** Dictionaries *)

Section DictFacts.
Context {K V : Type} (eqb : K -> K -> bool).
Hypothesis eqb_spec : forall a b, reflect (a = b) (eqb a b).

Lemma contains_In (k : K) l : contains eqb k l = true <-> In k l.
Proof.
  unfold contains. rewrite existsb_exists. split.
  - intros (x & Hx & E). destruct (eqb_spec k x); [subst; exact Hx | discriminate].
  - intros H. exists k. split; [exact H|]. destruct (eqb_spec k k); congruence.
Qed.

Lemma dict_get_set_same (k : K) (v : V) d : dict_get eqb k (dict_set eqb k v d) = Some v.
Proof.
  induction d as [|[k' v'] d IH]; simpl.
  - destruct (eqb_spec k k); [reflexivity | contradiction].
  - destruct (eqb_spec k k') as [->|N]; simpl.
    + destruct (eqb_spec k' k'); [reflexivity | contradiction].
    + destruct (eqb_spec k k'); [contradiction | exact IH].
Qed.

Lemma dict_get_set_other (k k' : K) (v : V) d :
  k <> k' -> dict_get eqb k (dict_set eqb k' v d) = dict_get eqb k d.
Proof.
  intros N. induction d as [|[k0 v0] d IH]; simpl.
  - destruct (eqb_spec k k'); [contradiction | reflexivity].
  - destruct (eqb_spec k' k0) as [->|N0]; simpl.
    + destruct (eqb_spec k k0); [contradiction | reflexivity].
    + destruct (eqb_spec k k0); [reflexivity | exact IH].
Qed.

Lemma dict_keys_set (k : K) (v : V) d :
  dict_keys (dict_set eqb k v d) =
  if contains eqb k (dict_keys d) then dict_keys d else (dict_keys d ++ [k])%list.
Proof.
  unfold contains, dict_keys.
  induction d as [|[k0 v0] d IH]; simpl; [reflexivity|].
  destruct (eqb_spec k k0) as [->|N0]; simpl; [reflexivity|].
  rewrite IH. destruct (existsb (eqb k) (map fst d)); reflexivity.
Qed.

Lemma dict_get_In (k : K) (v : V) d : dict_get eqb k d = Some v -> In (k, v) d.
Proof.
  induction d as [|[k0 v0] d IH]; simpl; [discriminate|].
  destruct (eqb_spec k k0) as [->|N0]; [intros [= ->]; auto | auto].
Qed.

Lemma dict_In_get (k : K) (v : V) d :
  NoDup (dict_keys d) -> In (k, v) d -> dict_get eqb k d = Some v.
Proof.
  induction d as [|[k0 v0] d IH]; simpl; [contradiction|].
  intros ND [E|HI].
  - injection E as -> ->. destruct (eqb_spec k k); [reflexivity | contradiction].
  - inversion ND as [|? ? Hn ND']; subst.
    destruct (eqb_spec k k0) as [->|N0]; [|auto].
    exfalso. apply Hn. unfold dict_keys. apply in_map_iff. exists (k0, v). auto.
Qed.

Lemma dict_set_NoDup (k : K) (v : V) d :
  NoDup (dict_keys d) -> NoDup (dict_keys (dict_set eqb k v d)).
Proof.
  intros ND. rewrite dict_keys_set.
  destruct (contains eqb k (dict_keys d)) eqn:E; [exact ND|].
  apply NoDup_app; [exact ND | constructor; [intros [] | constructor] |].
  intros a Ha [<-|[]].
  apply contains_In in Ha. congruence.
Qed.

(** A loop that assigns [f p] to every key [p] of a list. *)
Lemma fold_set_get (f : K -> V) l d t :
  dict_get eqb t (fold_left (fun d p => dict_set eqb p (f p) d) l d) =
  if contains eqb t l then Some (f t) else dict_get eqb t d.
Proof.
  revert d. induction l as [|p l IH]; intros d; simpl; [reflexivity|].
  rewrite IH. unfold contains in *.
  destruct (existsb (eqb t) l); [rewrite orb_true_r; reflexivity|].
  rewrite orb_false_r.
  destruct (eqb_spec t p) as [->|N].
  - apply dict_get_set_same.
  - apply dict_get_set_other, N.
Qed.

End DictFacts.

Lemma type_id_eqb_spec a b : reflect (a = b) (type_id_eqb a b).
Proof. destruct a, b; constructor; congruence. Qed.

(** ** Pattern grouper *)

Section GrouperFacts.
Variable splitter_split : list string -> list string.

Lemma gpad_get data g t :
  get_pattern_aggregated_data splitter_split data = inr g ->
  dict_get String.eqb t g =
  if contains String.eqb t (derived_templates splitter_split data)
  then Some (filter (member_of t) data) else None.
Proof.
  destruct data as [|r0 data']; [discriminate|].
  unfold get_pattern_aggregated_data, ret.
  set (sp := derived_templates splitter_split (r0 :: data')). intros [= <-].
  rewrite (fold_set_get String.eqb String.eqb_spec
             (fun p => filter (member_of p) (r0 :: data'))).
  destruct (contains String.eqb t _) eqn:E; [reflexivity|].
  rewrite (fold_set_get String.eqb String.eqb_spec (fun _ => [])), E.
  reflexivity.
Qed.

(** Line 201 for every deriver: membership in the group of a template is
    decided on the transposed name [ptransform (name r)]; the [:US:] masking
    is not applied to it. *)
Lemma group_membership data g t members r :
  get_pattern_aggregated_data splitter_split data = inr g ->
  dict_get String.eqb t g = Some members ->
  (In r members <-> In r data /\ Fnmatch.fnmatch (ptransform (name r)) t = true).
Proof.
  intros Hg Ht. rewrite (gpad_get _ _ t Hg) in Ht.
  destruct (contains String.eqb t _); [|discriminate].
  injection Ht as <-. apply filter_In.
Qed.

(** The groups hold scanned records only, and a record is in some group
    exactly when a derived template matches its transposed name. *)
Lemma group_union data g r :
  get_pattern_aggregated_data splitter_split data = inr g ->
  ((exists t members, dict_get String.eqb t g = Some members /\ In r members)
   <-> In r data /\ exists t, In t (derived_templates splitter_split data) /\ member_of t r = true).
Proof.
  intros Hg. split.
  - intros (t & members & Ht & Hr).
    pose proof (gpad_get _ _ t Hg) as E. rewrite Ht in E.
    destruct (contains String.eqb t _) eqn:C; [|discriminate].
    injection E as ->. apply filter_In in Hr. destruct Hr as [Hd Hm].
    split; [exact Hd|]. exists t. split; [|exact Hm].
    apply (contains_In String.eqb String.eqb_spec), C.
  - intros (Hd & t & Ht & Hm).
    exists t, (filter (member_of t) data). split.
    + rewrite (gpad_get _ _ t Hg).
      apply (contains_In String.eqb String.eqb_spec) in Ht. rewrite Ht. reflexivity.
    + apply filter_In. auto.
Qed.

Lemma gpad_nonempty r0 data : exists g, get_pattern_aggregated_data splitter_split (r0 :: data) = inr g.
Proof. eexists. reflexivity. Qed.

End GrouperFacts.

(** Every bucket built by the scan loop has at least one record. *)
Lemma dict_set_values {K V} (eqb : K -> K -> bool) (Q : V -> Prop) k v d :
  Q v -> Forall (fun kv => Q (snd kv)) d ->
  Forall (fun kv => Q (snd kv)) (dict_set eqb k v d).
Proof.
  intros Hv. induction 1 as [|[k0 v0] d H0 Hd IH]; simpl.
  - constructor; [exact Hv | constructor].
  - destruct (eqb k k0); constructor; auto.
Qed.

Lemma keys_by_type_values scanned :
  Forall (fun kv => snd kv <> []) (keys_by_type scanned).
Proof.
  unfold keys_by_type.
  assert (G : forall l d, Forall (fun kv : type_id * list KeyRecord => snd kv <> []) d ->
                          Forall (fun kv => snd kv <> []) (fold_left defaultdict_append l d)).
  { induction l as [|v l IH]; intros d Hd; simpl; [exact Hd|].
    apply IH. unfold defaultdict_append.
    destruct (dict_get type_id_eqb (type v) d);
      apply (dict_set_values type_id_eqb (fun l : list KeyRecord => l <> []));
      auto; intros E; apply app_eq_nil in E; destruct E; discriminate. }
  apply G. constructor.
Qed.

Lemma aggregate_all_ok splitter_split keys :
  Forall (fun kv : type_id * list KeyRecord => snd kv <> []) keys ->
  exists res, aggregate_all splitter_split keys = inr res.
Proof.
  intros H. unfold aggregate_all. generalize (@nil (type_id * groups)) as d.
  induction H as [|[k v] keys Hv Hk IH]; intros d; simpl.
  - eexists. reflexivity.
  - destruct v as [|r0 v]; [contradiction|]. simpl. apply IH.
Qed.

(** ** The masking is skipped at the membership test *)

Lemma translate_literal c p :
  Ascii.eqb c "*" = false -> Ascii.eqb c "?" = false -> Ascii.eqb c "[" = false ->
  Fnmatch.translate (String c p) = Fnmatch.Lit c :: Fnmatch.translate p.
Proof.
  intros H1 H2 H3. simp translate. rewrite H1. simpl. rewrite H2. simpl.
  rewrite H3. reflexivity.
Qed.

Lemma fnmatch_first_char c p d s :
  Ascii.eqb c "*" = false -> Ascii.eqb c "?" = false -> Ascii.eqb c "[" = false ->
  Ascii.eqb d c = false ->
  Fnmatch.fnmatch (String d s) (String c p) = false.
Proof.
  intros H1 H2 H3 H. unfold Fnmatch.fnmatch.
  rewrite (translate_literal _ _ H1 H2 H3). simpl. rewrite H. reflexivity.
Qed.

(** C1, the code at the failing input: the template [x:US:*] derived for the
    record matches its fully normalized name [x:US:1], but line 201 tests the
    transposed name [trigger_queue_user_job:x:US:a], which has not been
    masked, and leaves the record out of the group. *)
Theorem membership_test_skips_masking :
  normalize (name Sample.queue_key) = "x:US:1"
  /\ ptransform (name Sample.queue_key) = "trigger_queue_user_job:x:US:a"
  /\ get_pattern_aggregated_data (SimpleSplitter.split ":") [Sample.queue_key]
     = inr [("x:US:*", [])]
  /\ Fnmatch.fnmatch (normalize (name Sample.queue_key)) "x:US:*" = true
  /\ member_of "x:US:*" Sample.queue_key = false.
Proof. vm_compute. repeat split; reflexivity. Qed.

(** C2, the code at the failing input: whatever the pattern deriver is, if
    the templates it derives from the normalized name [x:US:1] begin with
    the letter [x], the scanned record is in none of the groups. *)
Theorem masked_record_in_no_group (splitter_split : list string -> list string) :
  (forall t, In t (splitter_split ["x:US:1"]) -> hd_char t = Some "x"%char) ->
  exists g, get_pattern_aggregated_data splitter_split [Sample.queue_key] = inr g
            /\ forall t members, dict_get String.eqb t g = Some members ->
                                 ~ In Sample.queue_key members.
Proof.
  intros Hx. eexists. split; [reflexivity|].
  intros t members Ht Hin.
  assert (Hg : get_pattern_aggregated_data splitter_split [Sample.queue_key] = inr
    (fold_left (fun d pattern => dict_set String.eqb pattern
                  (filter (member_of pattern) [Sample.queue_key]) d)
       (derived_templates splitter_split [Sample.queue_key])
       (fold_left (fun d item => dict_set String.eqb item [] d)
          (derived_templates splitter_split [Sample.queue_key]) []))) by reflexivity.
  pose proof (proj1 (group_union _ _ _ Sample.queue_key Hg)
                (ex_intro _ t (ex_intro _ members (conj Ht Hin)))) as (_ & t' & Ht' & Hm).
  change (derived_templates splitter_split [Sample.queue_key])
    with (splitter_split [normalize (name Sample.queue_key)]) in Ht'.
  replace (normalize (name Sample.queue_key)) with "x:US:1" in Ht' by (vm_compute; reflexivity).
  specialize (Hx _ Ht'). destruct t' as [|c p]; [discriminate|].
  injection Hx as ->. unfold member_of in Hm.
  replace (ptransform (name Sample.queue_key)) with "trigger_queue_user_job:x:US:a" in Hm
    by (vm_compute; reflexivity).
  rewrite fnmatch_first_char in Hm by reflexivity. discriminate.
Qed.

Lemma masked_record_in_no_group_witness :
  (forall t, In t (SimpleSplitter.split ":" ["x:US:1"]) -> hd_char t = Some "x"%char)
  /\ exists g, get_pattern_aggregated_data (SimpleSplitter.split ":") [Sample.queue_key] = inr g
               /\ forall t members, dict_get String.eqb t g = Some members ->
                                    ~ In Sample.queue_key members.
Proof.
  assert (H : forall t, In t (SimpleSplitter.split ":" ["x:US:1"]) ->
                        hd_char t = Some "x"%char).
  { vm_compute. intros t [<-|[]]. reflexivity. }
  split; [exact H|]. apply (masked_record_in_no_group _ H).
Defined.

(** ** The stable descending sort *)

Section SortFacts.
Context {A : Type} (key : A -> Z).

Lemma insert_desc_perm x l : Permutation (x :: l) (insert_desc key x l).
Proof.
  induction l as [|y l IH]; simpl; [reflexivity|].
  destruct (key x <? key y)%Z; [|reflexivity].
  rewrite perm_swap. constructor. exact IH.
Qed.

Lemma sort_reverse_perm l : Permutation l (sort_reverse key l).
Proof.
  induction l as [|x l IH]; simpl; [constructor|].
  rewrite <- insert_desc_perm. constructor. exact IH.
Qed.

Lemma insert_desc_descending x l : descending key l -> descending key (insert_desc key x l).
Proof.
  unfold descending. induction 1 as [|y l Hl IH Hy]; simpl.
  - repeat constructor.
  - destruct (Z.ltb_spec (key x) (key y)).
    + constructor; [exact IH|].
      rewrite Forall_forall in *. intros b Hb.
      apply (Permutation_in _ (Permutation_sym (insert_desc_perm x l))) in Hb.
      destruct Hb as [<-|Hb]; [lia | auto].
    + constructor; [constructor; assumption|].
      constructor; [lia|].
      rewrite Forall_forall in *. intros b Hb. specialize (Hy b Hb). lia.
Qed.

Lemma sort_reverse_descending l : descending key (sort_reverse key l).
Proof.
  induction l as [|x l IH]; simpl; [constructor|].
  apply insert_desc_descending, IH.
Qed.

(** Stability: rows with one and the same key keep their order. *)
Lemma insert_desc_with_key c x l :
  with_key key c (insert_desc key x l) = with_key key c (x :: l).
Proof.
  induction l as [|y l IH]; [reflexivity|].
  simpl insert_desc. destruct (Z.ltb_spec (key x) (key y)); [|reflexivity].
  unfold with_key in *. simpl in *. rewrite IH.
  destruct (Z.eqb_spec (key x) c), (Z.eqb_spec (key y) c); try reflexivity. lia.
Qed.

Lemma sort_reverse_with_key c l : with_key key c (sort_reverse key l) = with_key key c l.
Proof.
  induction l as [|x l IH]; [reflexivity|].
  simpl sort_reverse. rewrite insert_desc_with_key.
  unfold with_key in *. simpl. rewrite IH. reflexivity.
Qed.

Lemma with_key_head a l : with_key key (key a) (a :: l) = a :: with_key key (key a) l.
Proof. unfold with_key. simpl. rewrite Z.eqb_refl. reflexivity. Qed.

Lemma with_key_In c a l : In a (with_key key c l) -> In a l /\ key a = c.
Proof.
  unfold with_key. rewrite filter_In. intros [H E]. split; [exact H|].
  apply Z.eqb_eq, E.
Qed.

(** A list is determined by being descending and by its rows of each key. *)
Lemma descending_unique l1 l2 :
  descending key l1 -> descending key l2 ->
  (forall c, with_key key c l1 = with_key key c l2) -> l1 = l2.
Proof.
  intros H1. revert l2. induction H1 as [|a l1 Hl1 IH Ha]; intros l2 H2 E.
  - destruct l2 as [|b l2]; [reflexivity|].
    specialize (E (key b)). rewrite with_key_head in E. discriminate.
  - destruct H2 as [|b l2 Hl2 Hb].
    + specialize (E (key a)). rewrite with_key_head in E. discriminate.
    + assert (Hk : key a = key b).
      { pose proof (E (key a)) as Ea. pose proof (E (key b)) as Eb.
        rewrite with_key_head in Ea, Eb.
        assert (In a (with_key key (key a) (b :: l2))) as Ia by (rewrite <- Ea; left; reflexivity).
        assert (In b (with_key key (key b) (a :: l1))) as Ib by (rewrite Eb; left; reflexivity).
        apply with_key_In in Ia, Ib. destruct Ia as [Ia _], Ib as [Ib _].
        rewrite Forall_forall in Ha, Hb.
        destruct Ia as [->|Ia]; [reflexivity|]. destruct Ib as [->|Ib]; [reflexivity|].
        specialize (Ha _ Ib). specialize (Hb _ Ia). lia. }
      pose proof (E (key a)) as Ea. rewrite with_key_head, Hk, with_key_head in Ea.
      injection Ea as -> Ea. f_equal. apply IH; [exact Hl2|].
      intros c. specialize (E c). unfold with_key in *. simpl in E.
      destruct (key b =? c)%Z; [injection E as E|]; exact E.
Qed.

(** Sorting again after an append is sorting once. *)
Lemma sort_reverse_resort l m :
  sort_reverse key (sort_reverse key l ++ m) = sort_reverse key (l ++ m).
Proof.
  apply descending_unique; try apply sort_reverse_descending.
  intros c. rewrite !sort_reverse_with_key. unfold with_key.
  rewrite !filter_app. f_equal. apply sort_reverse_with_key.
Qed.

End SortFacts.

(** ** The census *)

Section CensusFacts.
Variables float percent stat node : Type.
Variable truediv : Z -> Z -> float.
Variable floored_percentage : float -> Z -> percent.
Variable redis_dbsize : Z.

Lemma census_inner total r_type kvs (acc : list (row percent)) :
  for_each
    (fun keys kv =>
       r <- census_row truediv floored_percentage total r_type kv ;;
       ret (sort_reverse (@row_count percent) (keys ++ [r])%list))
    kvs (sort_reverse (@row_count percent) acc)
  = (rows <- for_each
               (fun acc kv =>
                  r <- census_row truediv floored_percentage total r_type kv ;;
                  ret (acc ++ [r])%list)
               kvs acc ;;
     ret (sort_reverse (@row_count percent) rows)).
Proof.
  revert acc. induction kvs as [|kv kvs IH]; intros acc; simpl; [reflexivity|].
  destruct (census_row truediv floored_percentage total r_type kv) as [e|r]; simpl;
    [reflexivity|].
  rewrite sort_reverse_resort. apply IH.
Qed.

Lemma census_outer total res (acc : list (row percent)) :
  for_each
    (fun keys ta =>
       for_each
         (fun keys kv =>
            r <- census_row truediv floored_percentage total
                   (type_id_to_redis_type (fst ta)) kv ;;
            ret (sort_reverse (@row_count percent) (keys ++ [r])%list))
         (snd ta) keys)
    res (sort_reverse (@row_count percent) acc)
  = (rows <- for_each
               (fun acc ta =>
                  for_each
                    (fun acc kv =>
                       r <- census_row truediv floored_percentage total
                              (type_id_to_redis_type (fst ta)) kv ;;
                       ret (acc ++ [r])%list)
                    (snd ta) acc)
               res acc ;;
     ret (sort_reverse (@row_count percent) rows)).
Proof.
  revert acc. induction res as [|ta res IH]; intros acc; simpl; [reflexivity|].
  rewrite census_inner.
  destruct (for_each _ (snd ta) acc) as [e|rows]; simpl; [reflexivity|].
  apply IH.
Qed.

Lemma census_rows_of_result (self : RmaApplication) res rows headers :
  do_scanner truediv floored_percentage redis_dbsize (stat := stat) (node := node)
    self res = inr (Keys rows headers) ->
  exists appended,
    census_rows truediv floored_percentage (Z.min redis_dbsize (limit self)) res
    = inr appended
    /\ rows = sort_reverse (@row_count percent) appended.
Proof.
  unfold do_scanner, census_rows.
  pose proof (census_outer (Z.min redis_dbsize (limit self)) res []) as H.
  simpl sort_reverse in H. rewrite H.
  match goal with
  | |- context [for_each ?f res []] => destruct (for_each f res []) as [e|appended]
  end; simpl; [discriminate|].
  intros [= <- _]. exists appended. split; reflexivity.
Qed.

(** C6: the list that [do_scanner] returns, sorted again after every append,
    is the list obtained by sorting the appended rows once; it is in
    descending order of count, and the rows of any one count are in the
    order in which they were appended. *)
Theorem census_sorted_and_stable (self : RmaApplication) (res : list (type_id * groups)) :
  do_scanner truediv floored_percentage redis_dbsize (stat := stat) (node := node) self res
  = do_scanner_sorting_once truediv floored_percentage redis_dbsize self res
  /\ forall rows headers,
       do_scanner truediv floored_percentage redis_dbsize (stat := stat) (node := node)
         self res = inr (Keys rows headers) ->
       Sorted (fun a b => (row_count b <= row_count a)%Z) rows
       /\ exists appended,
            census_rows truediv floored_percentage (Z.min redis_dbsize (limit self)) res
            = inr appended
            /\ Permutation appended rows
            /\ forall c, with_key (@row_count percent) c rows
                         = with_key (@row_count percent) c appended.
Proof.
  assert (E : do_scanner truediv floored_percentage redis_dbsize
                (stat := stat) (node := node) self res
              = do_scanner_sorting_once truediv floored_percentage redis_dbsize self res).
  { unfold do_scanner, do_scanner_sorting_once, census_rows.
    pose proof (census_outer (Z.min redis_dbsize (limit self)) res []) as H.
    simpl sort_reverse in H. rewrite H.
    match goal with
    | |- context [for_each ?f res []] => destruct (for_each f res []) as [e|rows]
    end; reflexivity. }
  split; [exact E|].
  intros rows headers H. rewrite E in H. unfold do_scanner_sorting_once in H.
  destruct (census_rows _ _ _ res) as [e|appended]; [discriminate|].
  simpl in H. injection H as <- _.
  split; [|exists appended; split; [reflexivity|split]].
  - apply StronglySorted_Sorted, sort_reverse_descending.
  - apply sort_reverse_perm.
  - intros c. apply sort_reverse_with_key.
Qed.

(** C5, amended: the percent field of every row is [floored_percentage] of
    the quotient of the row's count by [min(dbsize, limit)], to 2 digits, and
    that minimum is not 0 when there is a row; the size of the type's bucket
    plays no part.  Nothing bounds the count by the minimum, so the percent
    is not bounded by 100. *)
Theorem census_percent_denominator (self : RmaApplication) res rows headers r :
  do_scanner truediv floored_percentage redis_dbsize (stat := stat) (node := node)
    self res = inr (Keys rows headers) ->
  In r rows ->
  Z.min redis_dbsize (limit self) <> 0%Z
  /\ row_percent r
     = floored_percentage (truediv (row_count r) (Z.min redis_dbsize (limit self))) 2.
Proof.
  intros H Hr.
  destruct (census_rows_of_result self res rows headers H) as (appended & Ha & ->).
  apply (Permutation_in _ (Permutation_sym (sort_reverse_perm _ appended))) in Hr.
  clear H.
  unfold census_rows in Ha. revert Ha Hr.
  set (total := Z.min redis_dbsize (limit self)).
  assert (G : forall res acc out,
             Forall (fun x => total <> 0%Z /\ row_percent x
                       = floored_percentage (truediv (row_count x) total) 2) acc ->
             for_each
               (fun acc ta =>
                  for_each
                    (fun acc kv =>
                       r <- census_row truediv floored_percentage total
                              (type_id_to_redis_type (fst ta)) kv ;;
                       ret (acc ++ [r])%list)
                    (snd ta) acc) res acc = inr out ->
             Forall (fun x => total <> 0%Z /\ row_percent x
                       = floored_percentage (truediv (row_count x) total) 2) out).
  { clear. induction res as [|ta res IH]; intros acc out Hacc; simpl.
    - intros [= <-]. exact Hacc.
    - destruct (for_each _ (snd ta) acc) as [e|mid] eqn:Em; simpl; [discriminate|].
      apply IH. revert Hacc Em. generalize acc mid. clear.
      induction (snd ta) as [|kv kvs IHk]; intros acc mid Hacc; simpl.
      + intros [= <-]. exact Hacc.
      + unfold census_row at 1. destruct (Z.eqb_spec total 0); simpl; [discriminate|].
        apply IHk. apply Forall_app. split; [exact Hacc|].
        constructor; [|constructor]. simpl. auto. }
  intros Ha Hr. specialize (G res [] appended (Forall_nil _) Ha).
  rewrite Forall_forall in G. exact (G r Hr).
Qed.

End CensusFacts.

(** ** The type rule engine *)

Lemma type_name_injective a b :
  type_id_to_redis_type a = type_id_to_redis_type b -> a = b.
Proof. destruct a, b; simpl; intros H; try reflexivity; discriminate. Qed.

Lemma dict_get_contains {K V} (eqb : K -> K -> bool) (k : K) (v : V) d :
  dict_get eqb k d = Some v -> contains eqb k (dict_keys d) = true.
Proof.
  induction d as [|[k0 v0] d IH]; simpl; [discriminate|].
  destruct (eqb k k0); [reflexivity | exact IH].
Qed.

Lemma dict_get_None {K V} (eqb : K -> K -> bool)
    (eqb_spec : forall a b, reflect (a = b) (eqb a b)) (k : K) (d : list (K * V)) :
  dict_get eqb k d = None <-> ~ In k (dict_keys d).
Proof.
  induction d as [|[k0 v0] d IH]; simpl; [tauto|].
  destruct (eqb_spec k k0) as [->|N].
  - split; [discriminate | intros H; exfalso; apply H; auto].
  - rewrite IH. split; [intros H [E|I]; [congruence | auto] | tauto].
Qed.

Section EngineFacts.
Variables percent stat node : Type.
Variable analyze : rule -> groups -> Z -> stat.

Lemma do_ram_loop self cls res :
  do_ram (percent := percent) (node := node) analyze self cls res
  = Stat (ram_loop analyze self cls res []).
Proof. reflexivity. Qed.

Lemma apply_rules_other n n' agg rules ret :
  n' <> n ->
  dict_get String.eqb n' (apply_rules analyze n agg rules ret) = dict_get String.eqb n' ret.
Proof.
  intros N. unfold apply_rules. revert ret.
  induction rules as [|r rules IH]; intros ret; simpl; [reflexivity|].
  rewrite IH. apply (dict_get_set_other String.eqb String.eqb_spec), N.
Qed.

Lemma apply_rules_last n agg rs r ret :
  dict_get String.eqb n (apply_rules analyze n agg (rs ++ [r]) ret)
  = Some (analyze r agg (total_keys agg)).
Proof.
  unfold apply_rules. rewrite fold_left_app. simpl.
  apply (dict_get_set_same String.eqb String.eqb_spec).
Qed.

Lemma ram_loop_other self cls res ret key :
  ~ In key (dict_keys res) ->
  dict_get String.eqb (type_id_to_redis_type key) (ram_loop analyze self cls res ret)
  = dict_get String.eqb (type_id_to_redis_type key) ret.
Proof.
  revert ret. unfold dict_keys.
  induction res as [|[k agg] res IH]; intros ret Hn; [reflexivity|].
  simpl in Hn. apply Decidable.not_or in Hn. destruct Hn as [Hk Hn].
  unfold ram_loop in *. simpl fold_left. rewrite IH by exact Hn.
  simpl fst. simpl snd.
  destruct (_ && _); [|reflexivity].
  destruct (dict_get type_id_eqb k (types_rules cls)); [|reflexivity].
  apply apply_rules_other. intros E. apply type_name_injective in E. congruence.
Qed.

Lemma ram_loop_slot self cls res ret key agg rs r_last :
  NoDup (dict_keys res) ->
  In (key, agg) res ->
  In key (types self) ->
  dict_get type_id_eqb key (types_rules cls) = Some (rs ++ [r_last])%list ->
  dict_get String.eqb (type_id_to_redis_type key) (ram_loop analyze self cls res ret)
  = Some (analyze r_last agg (total_keys agg)).
Proof.
  intros ND HI Ht Hr. revert ret.
  induction res as [|[k a] res IH]; intros ret; [contradiction|].
  inversion ND as [|? ? Hk ND']; subst.
  destruct HI as [E|HI].
  - injection E as -> ->.
    change (ram_loop analyze self cls ((key, agg) :: res) ret)
      with (ram_loop analyze self cls res
              (if contains type_id_eqb key (dict_keys (types_rules cls))
                  && contains type_id_eqb key (types self)
               then match dict_get type_id_eqb key (types_rules cls) with
                    | Some rules => apply_rules analyze (type_id_to_redis_type key) agg rules ret
                    | None => ret
                    end
               else ret)).
    rewrite (ram_loop_other _ _ _ _ _ Hk).
    rewrite (dict_get_contains _ _ _ _ Hr).
    rewrite (proj2 (contains_In type_id_eqb type_id_eqb_spec key (types self)) Ht).
    rewrite Hr. simpl. apply apply_rules_last.
  - apply (IH ND' HI).
Qed.

(** C7: the slot of a type holds the output of the rule registered last for
    it; what the earlier rules returned has been overwritten. *)
Theorem last_registered_rule_wins (self : RmaApplication) (cls : class_state)
    (res : list (type_id * groups)) (key : type_id) (aggregate_patterns : groups)
    (earlier : list rule) (last_rule : rule) :
  NoDup (dict_keys res) ->
  In (key, aggregate_patterns) res ->
  In key (types self) ->
  dict_get type_id_eqb key (types_rules cls) = Some (earlier ++ [last_rule])%list ->
  exists stat_map,
    do_ram (percent := percent) (node := node) analyze self cls res = Stat stat_map
    /\ dict_get String.eqb (type_id_to_redis_type key) stat_map
       = Some (analyze last_rule aggregate_patterns (total_keys aggregate_patterns)).
Proof.
  intros ND HI Ht Hr. exists (ram_loop analyze self cls res []). split.
  - apply do_ram_loop.
  - apply (ram_loop_slot _ _ _ _ _ _ _ _ ND HI Ht Hr).
Qed.

Lemma ram_loop_skips self cls res ret :
  (forall k agg, In (k, agg) res -> ~ In k (types self)) ->
  ram_loop analyze self cls res ret = ret.
Proof.
  revert ret. induction res as [|[k a] res IH]; intros ret H; [reflexivity|].
  unfold ram_loop in *. simpl.
  destruct (contains type_id_eqb k (types self)) eqn:E.
  - apply (contains_In type_id_eqb type_id_eqb_spec) in E.
    exfalso. apply (H k a); [left; reflexivity | exact E].
  - rewrite andb_false_r. apply IH. intros k' a' HI. apply (H k' a'). right. exact HI.
Qed.

Lemma apply_rules_single n agg rs r ret :
  ret = [] \/ (exists v, ret = [(n, v)]) ->
  apply_rules analyze n agg (rs ++ [r]) ret = [(n, analyze r agg (total_keys agg))].
Proof.
  assert (S : forall (v : stat) (ret : list (string * stat)),
             ret = [] \/ (exists v0, ret = [(n, v0)]) ->
             dict_set String.eqb n v ret = [(n, v)]).
  { intros v ret0 [->|[v0 ->]]; simpl; [reflexivity|].
    rewrite String.eqb_refl. reflexivity. }
  unfold apply_rules. revert ret.
  induction rs as [|a rs IH]; intros ret H; simpl.
  - apply S, H.
  - apply IH. right. eexists. apply S, H.
Qed.

(** With one accepted type, the loop of [do_ram] leaves one entry, written
    by the last rule of that type, or none when the grouped data has no
    bucket of that type. *)
Lemma ram_loop_single self cls res key rs r_last :
  types self = [key] ->
  NoDup (dict_keys res) ->
  dict_get type_id_eqb key (types_rules cls) = Some (rs ++ [r_last])%list ->
  ram_loop analyze self cls res []
  = match dict_get type_id_eqb key res with
    | Some agg => [(type_id_to_redis_type key, analyze r_last agg (total_keys agg))]
    | None => []
    end.
Proof.
  intros Ht ND Hr.
  assert (Hskip : forall l : list (type_id * groups),
             ~ In key (dict_keys l) ->
             forall k a, In (k, a) l -> ~ In k (types self)).
  { intros l Hl k a HI. rewrite Ht. simpl. intros [<-|[]]. apply Hl.
    apply in_map_iff. exists (key, a). auto. }
  destruct (dict_get type_id_eqb key res) as [agg|] eqn:G.
  - apply (dict_get_In type_id_eqb type_id_eqb_spec) in G.
    apply in_split in G. destruct G as (l1 & l2 & ->).
    unfold dict_keys in ND. rewrite map_app in ND. simpl in ND.
    pose proof (NoDup_remove_2 _ _ _ ND) as N.
    assert (H1 : ~ In key (dict_keys l1)).
    { intros HI. apply N, in_or_app. left. exact HI. }
    assert (H2 : ~ In key (dict_keys l2)).
    { intros HI. apply N, in_or_app. right. exact HI. }
    unfold ram_loop. rewrite fold_left_app.
    fold (ram_loop analyze self cls l1 []).
    rewrite (ram_loop_skips _ _ _ _ (Hskip _ H1)).
    simpl fold_left at 1.
    change (fold_left _ l2 ?r) with (ram_loop analyze self cls l2 r).
    rewrite (ram_loop_skips _ _ _ _ (Hskip _ H2)).
    cbn [fst snd].
    rewrite (dict_get_contains _ _ _ _ Hr), Hr, Ht. simpl.
    destruct (type_id_eqb_spec key key); [|contradiction]. simpl.
    apply apply_rules_single. left. reflexivity.
  - apply ram_loop_skips, Hskip.
    apply (dict_get_None type_id_eqb type_id_eqb_spec), G.
Qed.

End EngineFacts.

(** ** The version check *)

Lemma check_redis_version_true redis_info :
  check_redis_version redis_info = inr true
  <-> exists version, reported_version redis_info = inr version /\ supported version.
Proof.
  unfold check_redis_version.
  destruct (reported_version redis_info) as [e|version]; simpl.
  - split; [discriminate|]. intros (v & H & _). discriminate.
  - split.
    + intros H. exists version. split; [reflexivity|].
      destruct version as [|v0 rest]; simpl in *; [discriminate|].
      destruct (Z.gtb_spec v0 2); [left; assumption|].
      destruct (Z.eqb_spec v0 2); [|discriminate].
      destruct rest as [|v1 rest]; simpl in *; [discriminate|].
      destruct (Z.geb_spec v1 6); [right; split; assumption|discriminate].
    + intros (v & [= <-] & S).
      destruct version as [|v0 rest]; simpl in *; [contradiction|].
      destruct (Z.gtb_spec v0 2); [reflexivity|].
      destruct S as [S|[-> S]]; [lia|]. simpl.
      destruct rest as [|v1 rest]; simpl in *; [contradiction|].
      destruct (Z.geb_spec v1 6); [reflexivity|lia].
Qed.

Section VersionFacts.
Context {float percent stat node : Type}.
Variable splitter_split : string -> list string -> list string.
Variable truediv : Z -> Z -> float.
Variable floored_percentage : float -> Z -> percent.
Variable analyze : rule -> groups -> Z -> stat.
Variable global_analyze : global -> node.
Variable redis_info : exc (list (string * string)).
Variable redis_dbsize : Z.
Variable scanner_scan : string -> list type_id -> Z -> list KeyRecord.

Lemma connect_outcome :
  (check_redis_version redis_info = inr true
   /\ connect_to_redis (percent := percent) (stat := stat) (node := node) redis_info
      = ([CallInfo], inr tt))
  \/ (check_redis_version redis_info <> inr true
      /\ exists trace h,
           connect_to_redis (percent := percent) (stat := stat) (node := node) redis_info
           = (trace, inl h)
           /\ exit_status h <> 0%Z
           /\ Forall (@before_scan percent stat node) trace).
Proof.
  assert (B : forall msg, Forall (@before_scan percent stat node) [CallInfo; WriteStderr msg]).
  { intros msg. constructor; [left; reflexivity|].
    constructor; [right; exists msg; reflexivity | constructor]. }
  assert (B1 : Forall (@before_scan percent stat node) [CallInfo]).
  { constructor; [left; reflexivity | constructor]. }
  unfold connect_to_redis.
  destruct (check_redis_version redis_info) as [e|[|]].
  - right. split; [discriminate|].
    destruct e; simpl; eexists; eexists; (split; [reflexivity|]);
      (split; [discriminate|]); solve [apply B | apply B1].
  - left. split; reflexivity.
  - right. split; [discriminate|]. simpl. eexists; eexists. split; [reflexivity|].
    split; [discriminate | apply B].
Qed.

(** C9: [__init__] returns an instance exactly when the reported version has
    [major > 2], or [major == 2] and [minor >= 6], and a [filters] dictionary
    is given; for every reply that fails the version test the
    process ends with a non-zero status after the version query alone, with
    no scan call and nothing handed to the reporter.  When the version is
    readable and fails the test, the status is the [-1] of [sys.exit]. *)
Theorem supported_version_required (cfg : config) (cls : class_state) :
  ((exists self, init (percent := percent) (stat := stat) (node := node) redis_info cfg
                 = ([CallInfo], inr self))
   <-> (exists version, reported_version redis_info = inr version /\ supported version)
       /\ cfg_filters cfg <> None)
  /\ (~ (exists version, reported_version redis_info = inr version /\ supported version) ->
      exists trace h,
        session splitter_split truediv floored_percentage analyze global_analyze
          redis_info redis_dbsize scanner_scan cfg cls = (trace, inl h)
        /\ exit_status h <> 0%Z
        /\ Forall (@before_scan percent stat node) trace)
  /\ (check_redis_version redis_info = inr false ->
      exists msg,
        session splitter_split truediv floored_percentage analyze global_analyze
          redis_info redis_dbsize scanner_scan cfg cls
        = ([CallInfo; WriteStderr msg], inl (SystemExit (-1)))).
Proof.
  split; [|split].
  - rewrite <- check_redis_version_true. unfold init.
    destruct connect_outcome as [[Hc ->]|[Hc (trace & h & -> & _)]]; simpl.
    + destruct (cfg_filters cfg) as [given|]; simpl.
      * split; [intros _; split; [exact Hc | discriminate]|].
        intros _. eexists. reflexivity.
      * split; [intros [self H]; discriminate | intros [_ H]; contradiction].
    + split; [intros [self H]; discriminate | intros [H _]; contradiction].
  - rewrite <- check_redis_version_true. intros Hn.
    unfold session, init.
    destruct connect_outcome as [[Hc _]|[_ (trace & h & -> & Hs & Ht)]];
      [contradiction|].
    simpl. exists trace, h. auto.
  - intros Hf. unfold session, init, connect_to_redis. rewrite Hf. simpl.
    eexists. reflexivity.
Qed.

End VersionFacts.

(** ** No [IndexError] on any path through [run] *)

Lemma rules_append_raises t r reg e : rules_append t r reg = inl e -> e = KeyError.
Proof.
  unfold rules_append, getitem, bind, raise, ret.
  destruct (dict_get type_id_eqb t reg); [discriminate|]. intros [= <-]. reflexivity.
Qed.

Lemma init_types_rules_raises reg e : init_types_rules reg = inl e -> e = KeyError.
Proof.
  unfold init_types_rules.
  repeat match goal with
         | |- bind (rules_append ?t ?r ?g) _ = inl _ -> _ =>
             let E := fresh "E" in
             destruct (rules_append t r g) as [?|?] eqn:E; simpl;
             [intros [= <-]; exact (rules_append_raises _ _ _ _ E)|]
         end.
  apply rules_append_raises.
Qed.

Section RunFacts.
Context {float percent stat node : Type}.
Variable splitter_split : string -> list string -> list string.
Variable truediv : Z -> Z -> float.
Variable floored_percentage : float -> Z -> percent.
Variable analyze : rule -> groups -> Z -> stat.
Variable global_analyze : global -> node.
Variable redis_dbsize : Z.
Variable scanner_scan : string -> list type_id -> Z -> list KeyRecord.

Lemma census_row_raises total r_type kv e :
  census_row truediv floored_percentage total r_type kv = inl e -> e = ZeroDivisionError.
Proof.
  unfold census_row. destruct (total =? 0)%Z; [|discriminate].
  intros [= <-]. reflexivity.
Qed.

Lemma do_scanner_raises self res e :
  do_scanner truediv floored_percentage redis_dbsize (stat := stat) (node := node)
    self res = inl e ->
  e = ZeroDivisionError.
Proof.
  unfold do_scanner.
  match goal with
  | |- bind (for_each ?f res ?a) _ = _ -> _ =>
      assert (G : forall l acc e', for_each f l acc = inl e' -> e' = ZeroDivisionError)
  end.
  { induction l as [|ta l IH]; intros acc e'; simpl; [discriminate|].
    match goal with
    | |- bind (for_each ?g (snd ta) acc) _ = _ -> _ =>
        assert (I : forall kvs a e'', for_each g kvs a = inl e'' ->
                                      e'' = ZeroDivisionError)
    end.
    { induction kvs as [|kv kvs IHk]; intros a e''; simpl; [discriminate|].
      destruct (census_row _ _ _ _ kv) as [x|r] eqn:Er; simpl.
      - intros [= <-]. exact (census_row_raises _ _ _ _ Er).
      - apply IHk. }
    match goal with
    | |- bind (for_each ?g (snd ta) acc) _ = _ -> _ =>
        destruct (for_each g (snd ta) acc) as [x|mid] eqn:Em
    end; simpl.
    - intros [= <-]. exact (I _ _ _ Em).
    - apply IH. }
  match goal with
  | |- bind (for_each ?f res ?a) _ = _ -> _ =>
      destruct (for_each f res a) as [x|keys] eqn:Ek
  end; simpl; [|discriminate].
  intros [= <-]. exact (G _ _ _ Ek).
Qed.

(** On no path does [run] end with an [IndexError]. *)
Lemma run_no_IndexError self cls :
  snd (run splitter_split truediv floored_percentage analyze global_analyze
         redis_dbsize scanner_scan self cls) <> inl (Uncaught IndexError).
Proof.
  unfold run.
  destruct (init_types_rules (types_rules cls)) as [e|reg] eqn:Ei; simpl.
  - apply init_types_rules_raises in Ei. subst e. discriminate.
  - destruct (aggregate_all_ok (splitter_split (separator self)) _
                (keys_by_type_values
                   (scanner_scan (match_ self) (types self) (limit self))))
      as [keys Hk].
    destruct (isTextFormat self); simpl; rewrite Hk; simpl;
      destruct (String.eqb (behaviour self) "scanner" || String.eqb (behaviour self) "all");
      simpl; try discriminate;
      match goal with
      | |- context [do_scanner ?a ?b ?c ?s ?k] =>
          destruct (do_scanner a b c (stat := stat) (node := node) s k) as [x|r] eqn:Es
      end; simpl; try discriminate;
      apply do_scanner_raises in Es; subst x; discriminate.
Qed.

End RunFacts.

(** C10: a type key enters the mapping together with its first record, so
    every list handed to [get_pattern_aggregated_data] is non-empty, the read
    of [data[0]] succeeds for every bucket, and no path through [run] ends
    with an [IndexError]. *)
Theorem buckets_never_empty {float percent stat node : Type}
    (splitter_split : string -> list string -> list string)
    (truediv : Z -> Z -> float) (floored_percentage : float -> Z -> percent)
    (analyze : rule -> groups -> Z -> stat) (global_analyze : global -> node)
    (redis_dbsize : Z) (scanner_scan : string -> list type_id -> Z -> list KeyRecord)
    (self : RmaApplication) (cls : class_state) :
  let scanned := scanner_scan (match_ self) (types self) (limit self) in
  (forall k data, In (k, data) (keys_by_type scanned) ->
     data <> []
     /\ exists g, get_pattern_aggregated_data (splitter_split (separator self)) data
                  = inr g)
  /\ (exists res, aggregate_all (splitter_split (separator self)) (keys_by_type scanned)
                  = inr res)
  /\ snd (run splitter_split truediv floored_percentage analyze global_analyze
            redis_dbsize scanner_scan self cls) <> inl (Uncaught IndexError).
Proof.
  intros scanned. pose proof (keys_by_type_values scanned) as F.
  split; [|split].
  - intros k data HI. rewrite Forall_forall in F. specialize (F _ HI). simpl in F.
    split; [exact F|]. destruct data; [contradiction|]. eexists. reflexivity.
  - apply aggregate_all_ok, F.
  - apply run_no_IndexError.
Qed.

(** ** The pipeline on the sample store *)

Lemma sample_grouping :
  aggregate_all (Sample.splitter_split ":") (keys_by_type Sample.store)
  = inr Sample.grouped.
Proof. vm_compute. reflexivity. Qed.

(** Scenario A of the specification: two string keys, scanner mode, a limit
    of two, and one census row for the two of them. *)
Lemma sample_census :
  do_scanner Sample.truediv Sample.floored_percentage 2
    (stat := rule * Z) (node := unit)
    {| separator := ":"; isTextFormat := false; match_ := "*"; limit := 2;
       types := REDIS_TYPE_ID_ALL; behaviour := "scanner" |}
    [(REDIS_TYPE_ID_STRING,
      [("user:*:p", [Sample.key "user:1:p" REDIS_TYPE_ID_STRING;
                     Sample.key "user:2:p" REDIS_TYPE_ID_STRING])])]
  = inr (Keys [{| row_name := "user:*:p"; row_count := 2; row_type := "string";
                  row_percent := 10000%Z |}] census_headers).
Proof. vm_compute. reflexivity. Qed.

Lemma census_sorted_and_stable_witness :
  let self := Sample.app "scanner" REDIS_TYPE_ID_ALL in
  let rows :=
    [{| row_name := "user:*:p"; row_count := 2; row_type := "string";
        row_percent := 5000%Z |};
     {| row_name := "rank:*"; row_count := 1; row_type := "zset";
        row_percent := 2500%Z |};
     {| row_name := "cart:*"; row_count := 1; row_type := "hash";
        row_percent := 2500%Z |}] in
  do_scanner Sample.truediv Sample.floored_percentage 4
    (stat := rule * Z) (node := unit) self Sample.grouped
  = inr (Keys rows census_headers)
  /\ Sorted (fun a b => (row_count b <= row_count a)%Z) rows
  /\ exists appended,
       census_rows Sample.truediv Sample.floored_percentage
         (Z.min 4 (limit self)) Sample.grouped = inr appended
       /\ Permutation appended rows
       /\ forall c, with_key (@row_count Z) c rows = with_key (@row_count Z) c appended.
Proof.
  intros self rows.
  assert (H : do_scanner Sample.truediv Sample.floored_percentage 4
                (stat := rule * Z) (node := unit) self Sample.grouped
              = inr (Keys rows census_headers)) by (vm_compute; reflexivity).
  split; [exact H|].
  exact (proj2 (census_sorted_and_stable (Z * Z)%type Z (rule * Z)%type unit Sample.truediv
                  Sample.floored_percentage 4 self Sample.grouped)
           rows census_headers H).
Defined.

Lemma census_percent_denominator_witness :
  let self := Sample.app "scanner" REDIS_TYPE_ID_ALL in
  let r := {| row_name := "rank:*"; row_count := 1; row_type := "zset";
              row_percent := 2500%Z |} in
  let rows :=
    [{| row_name := "user:*:p"; row_count := 2; row_type := "string";
        row_percent := 5000%Z |};
     r;
     {| row_name := "cart:*"; row_count := 1; row_type := "hash";
        row_percent := 2500%Z |}] in
  do_scanner Sample.truediv Sample.floored_percentage 4
    (stat := rule * Z) (node := unit) self Sample.grouped
  = inr (Keys rows census_headers)
  /\ In r rows
  /\ Z.min 4 (limit self) <> 0%Z
  /\ row_percent r
     = Sample.floored_percentage
         (Sample.truediv (row_count r) (Z.min 4 (limit self))) 2.
Proof.
  intros self r rows.
  assert (H : do_scanner Sample.truediv Sample.floored_percentage 4
                (stat := rule * Z) (node := unit) self Sample.grouped
              = inr (Keys rows census_headers)) by (vm_compute; reflexivity).
  assert (Hr : In r rows) by (right; left; reflexivity).
  split; [exact H|]. split; [exact Hr|].
  exact (census_percent_denominator (Z * Z)%type Z (rule * Z)%type unit Sample.truediv
           Sample.floored_percentage 4 self Sample.grouped rows census_headers r H Hr).
Defined.

(** A group of two keys while [min(dbsize, limit)] is 1, as when the store
    has shrunk since the scan: the row reports 200.00 percent (the sample
    [floored_percentage] counts in hundredths of a percent). *)
Lemma census_percent_above_100 :
  do_scanner Sample.truediv Sample.floored_percentage 1
    (stat := rule * Z) (node := unit) (Sample.app "scanner" REDIS_TYPE_ID_ALL)
    [(REDIS_TYPE_ID_STRING,
      [("user:*:p", [Sample.key "user:1:p" REDIS_TYPE_ID_STRING;
                     Sample.key "user:2:p" REDIS_TYPE_ID_STRING])])]
  = inr (Keys [{| row_name := "user:*:p"; row_count := 2; row_type := "string";
                  row_percent := 20000%Z |}] census_headers)
  /\ (100 * 100 < 20000)%Z.
Proof. split; [vm_compute; reflexivity | lia]. Qed.

Lemma last_registered_rule_wins_witness :
  let self := Sample.app "ram" REDIS_TYPE_ID_ALL in
  let cls := {| globals := [GlobalKeySpace]; types_rules := Sample.registry |} in
  let users := [("user:*:p", [Sample.key "user:1:p" REDIS_TYPE_ID_STRING;
                              Sample.key "user:2:p" REDIS_TYPE_ID_STRING])] in
  NoDup (dict_keys Sample.grouped)
  /\ In (REDIS_TYPE_ID_STRING, users) Sample.grouped
  /\ In REDIS_TYPE_ID_STRING (types self)
  /\ dict_get type_id_eqb REDIS_TYPE_ID_STRING (types_rules cls)
     = Some ([KeyString] ++ [ValueString])%list
  /\ exists stat_map,
       do_ram (percent := Z) (node := unit) Sample.analyze self cls Sample.grouped
       = Stat stat_map
       /\ dict_get String.eqb "string" stat_map
          = Some (Sample.analyze ValueString users (total_keys users)).
Proof.
  intros self cls users.
  assert (ND : NoDup (dict_keys Sample.grouped)).
  { repeat constructor; simpl; intuition discriminate. }
  assert (HI : In (REDIS_TYPE_ID_STRING, users) Sample.grouped)
    by (right; left; reflexivity).
  assert (Ht : In REDIS_TYPE_ID_STRING (types self)) by (left; reflexivity).
  assert (Hr : dict_get type_id_eqb REDIS_TYPE_ID_STRING (types_rules cls)
               = Some ([KeyString] ++ [ValueString])%list) by reflexivity.
  repeat (split; [assumption|]).
  exact (last_registered_rule_wins Z (rule * Z)%type unit Sample.analyze self cls
           Sample.grouped REDIS_TYPE_ID_STRING users [KeyString] ValueString
           ND HI Ht Hr).
Defined.

(** Scenario C of the specification, run from the connection on. *)
Lemma sample_zset_session :
  session Sample.splitter_split Sample.truediv Sample.floored_percentage
    Sample.analyze Sample.global_analyze (Sample.redis_info "6.2.0") 4
    Sample.scanner_scan (Sample.cfg "ram" (Some ["zset"])) class_initial
  = ([CallInfo; CallScan "*" [REDIS_TYPE_ID_ZSET] sys_maxsize;
      ReporterPrint [Stat [("zset", (KeyString, 1%Z))]]],
     inr {| globals := [GlobalKeySpace]; types_rules := Sample.registry |}).
Proof. vm_compute. reflexivity. Qed.

Lemma supported_version_required_witness :
  let info := Sample.redis_info "2.4.0" in
  let run_it :=
    session Sample.splitter_split Sample.truediv Sample.floored_percentage
      Sample.analyze Sample.global_analyze info 4 Sample.scanner_scan
      (Sample.cfg "all" None) class_initial in
  ~ (exists version, reported_version info = inr version /\ supported version)
  /\ check_redis_version info = inr false
  /\ (exists trace h, run_it = (trace, inl h) /\ exit_status h <> 0%Z
                      /\ Forall (@before_scan Z (rule * Z)%type unit) trace)
  /\ (exists msg, run_it = ([CallInfo; WriteStderr msg], inl (SystemExit (-1)))).
Proof.
  intros info run_it.
  assert (Hn : ~ (exists version, reported_version info = inr version
                                  /\ supported version)).
  { intros (version & Hv & Hs). vm_compute in Hv. injection Hv as <-.
    simpl in Hs. lia. }
  assert (Hf : check_redis_version info = inr false) by (vm_compute; reflexivity).
  pose proof (supported_version_required Sample.splitter_split Sample.truediv
                Sample.floored_percentage Sample.analyze Sample.global_analyze
                info 4 Sample.scanner_scan (Sample.cfg "all" None) class_initial)
    as (_ & Hstop & Hexit).
  split; [exact Hn|]. split; [exact Hf|].
  split; [exact (Hstop Hn) | exact (Hexit Hf)].
Defined.

(* ===================================================================== *)
(** * Further properties of the module *)
(* ===================================================================== *)

(** ** [split], [join], [startswith], [endswith] *)

Lemma split_not_nil sep s : Py.split sep s <> [].
Proof.
  destruct s as [|c s]; simpl; [discriminate|].
  destruct (Ascii.eqb c sep); [discriminate|].
  destruct (Py.split sep s); discriminate.
Qed.

Lemma join_split sep s : Py.join (String sep EmptyString) (Py.split sep s) = s.
Proof.
  unfold Py.join. induction s as [|c s IH]; [reflexivity|].
  simpl Py.split. pose proof (split_not_nil sep s) as N.
  destruct (Ascii.eqb_spec c sep) as [->|Hc].
  - destruct (Py.split sep s) as [|w ws]; [contradiction|].
    change (String.concat (String sep "") ("" :: w :: ws))
      with (String sep (String.concat (String sep "") (w :: ws))).
    rewrite IH. reflexivity.
  - destruct (Py.split sep s) as [|w ws]; [contradiction|].
    rewrite <- IH. destruct ws; reflexivity.
Qed.

Lemma split_free sep a : free_of sep a -> Py.split sep a = [a].
Proof.
  unfold free_of. induction a as [|c a IH]; simpl; [reflexivity|].
  destruct (Ascii.eqb c sep); [discriminate|]. simpl. intros H.
  rewrite (IH H). reflexivity.
Qed.

Lemma split_at_first sep a b :
  free_of sep a -> Py.split sep (a ++ String sep b) = a :: Py.split sep b.
Proof.
  unfold free_of. induction a as [|c a IH]; simpl.
  - intros _. rewrite Ascii.eqb_refl. reflexivity.
  - destruct (Ascii.eqb c sep); [discriminate|]. simpl. intros H.
    rewrite (IH H). reflexivity.
Qed.

Lemma startswith_app p s : Py.startswith (p ++ s) p = true.
Proof.
  unfold Py.startswith. induction p as [|c p IH]; simpl.
  - destruct s; reflexivity.
  - destruct (ascii_dec c c); [exact IH | contradiction].
Qed.

Lemma string_length_app a b : String.length (a ++ b) = String.length a + String.length b.
Proof. induction a as [|c a IH]; simpl; [reflexivity | rewrite IH; reflexivity]. Qed.

Lemma drop_app a b : Py.drop (String.length a) (a ++ b) = b.
Proof. induction a as [|c a IH]; simpl; [reflexivity | exact IH]. Qed.

Lemma drop_split n s :
  n <= String.length s -> exists a, s = a ++ Py.drop n s /\ String.length a = n.
Proof.
  revert s. induction n as [|n IH]; intros s H.
  - exists "". split; reflexivity.
  - destruct s as [|c s]; simpl in H; [lia|].
    destruct (IH s) as (a & E & L); [lia|].
    exists (String c a). simpl. split; [rewrite <- E; reflexivity | lia].
Qed.

Lemma endswith_iff s p : Py.endswith s p = true <-> exists a, s = a ++ p.
Proof.
  unfold Py.endswith. split.
  - intros H. apply andb_true_iff in H. destruct H as [L E].
    apply Nat.leb_le in L. apply String.eqb_eq in E.
    destruct (drop_split (String.length s - String.length p) s) as (a & Ea & _); [lia|].
    exists a. rewrite E in Ea. exact Ea.
  - intros [a ->]. rewrite string_length_app.
    replace (String.length a + String.length p - String.length p)
      with (String.length a) by lia.
    rewrite drop_app, String.eqb_refl.
    apply andb_true_iff. split; [apply Nat.leb_le; lia | reflexivity].
Qed.

Lemma app_same_end a b a' b' :
  a ++ b = a' ++ b' -> String.length b <= String.length b' -> exists c, b' = c ++ b.
Proof.
  revert a'. induction a as [|x a IH]; intros a' E L.
  - simpl in E. subst b. destruct a' as [|y a'].
    + exists "". reflexivity.
    + exfalso. simpl in L. rewrite string_length_app in L. lia.
  - destruct a' as [|y a'].
    + simpl in E. exists (String x a). symmetry. exact E.
    + simpl in E. injection E as _ E. exact (IH a' E L).
Qed.

Lemma endswith_two s p q :
  Py.endswith s p = true -> Py.endswith s q = true ->
  String.length q <= String.length p -> Py.endswith p q = true.
Proof.
  intros Hp Hq L. apply endswith_iff in Hp, Hq.
  destruct Hp as [a ->], Hq as [a' E].
  symmetry in E. apply app_same_end in E; [|exact L].
  apply endswith_iff. exact E.
Qed.

Lemma app_assoc_s (a b c : string) : (a ++ b) ++ c = a ++ b ++ c.
Proof. induction a as [|x a IH]; simpl; [reflexivity | rewrite IH; reflexivity]. Qed.

Lemma count_char_app c a b : count_char c (a ++ b) = count_char c a + count_char c b.
Proof. induction a as [|x a IH]; simpl; [reflexivity | rewrite IH; lia]. Qed.

(** ** What the transposition rules do to a name *)

Lemma startswith_split s P : Py.startswith s P = true -> exists r, s = P ++ r.
Proof.
  unfold Py.startswith. revert s. induction P as [|c P IH]; intros s H.
  - exists s. reflexivity.
  - destruct s as [|d s]; simpl in *; [discriminate|].
    destruct (ascii_dec c d) as [->|]; [|discriminate].
    destruct (IH s H) as [r ->]. exists r. reflexivity.
Qed.

Lemma first_separator sep s :
  free_of sep s \/ exists w r, free_of sep w /\ s = w ++ String sep r.
Proof.
  unfold free_of. induction s as [|c s IH]; [left; reflexivity|].
  simpl. destruct (Ascii.eqb_spec c sep) as [->|N].
  - right. exists "", s. split; reflexivity.
  - destruct IH as [F|(w & r & F & ->)]; [left; exact F|].
    right. exists (String c w), r. simpl.
    destruct (Ascii.eqb_spec c sep); [contradiction|]. split; [exact F | reflexivity].
Qed.

Lemma prefix_rule_result (P w r : string) :
  P = "celery-task-meta"
  \/ P = "qo_cli.aff_aggregations.aggregate_aff_aname_aname" ->
  free_of "-" w ->
  ptransform (P ++ w ++ "-" ++ r) = P ++ w ++ ":" ++ r
  /\ ptransform (P ++ w) = P ++ w ++ ":".
Proof.
  intros HP Hw.
  assert (J : forall s, String.concat "-" (Py.split "-" s) = s)
    by (intros s; apply (join_split "-")).
  destruct HP as [-> | ->].
  - unfold ptransform.
    rewrite !(startswith_app "celery-task-meta").
    assert (S1 : forall s, Py.split "-" ("celery-task-meta" ++ s)
                           = "celery" :: "task" :: Py.split "-" ("meta" ++ s)).
    { intros s.
      change ("celery-task-meta" ++ s)
        with ("celery" ++ String "-" ("task" ++ String "-" ("meta" ++ s))).
      rewrite (split_at_first "-" "celery") by reflexivity.
      rewrite (split_at_first "-" "task") by reflexivity. reflexivity. }
    assert (Hm : free_of "-" ("meta" ++ w)).
    { unfold free_of in *. rewrite count_char_app, Hw. reflexivity. }
    split; cbv zeta; rewrite S1.
    + replace ("meta" ++ w ++ "-" ++ r) with (("meta" ++ w) ++ String "-" r)
        by (rewrite app_assoc_s; reflexivity).
      rewrite (split_at_first "-" _ r Hm).
      unfold Py.slice, Py.slice_from, Py.join. simpl skipn. simpl firstn.
      rewrite J. reflexivity.
    + rewrite (split_free "-" _ Hm).
      unfold Py.slice, Py.slice_from, Py.join. simpl.
      rewrite ?app_assoc_s; reflexivity.
  - set (P := "qo_cli.aff_aggregations.aggregate_aff_aname_aname").
    assert (Hm : free_of "-" (P ++ w)).
    { unfold free_of in *. rewrite count_char_app, Hw. reflexivity. }
    unfold ptransform.
    assert (N : forall s, Py.startswith (P ++ s) "celery-task-meta" = false)
      by (intros s; reflexivity).
    rewrite !N, !(startswith_app P).
    split; cbv zeta.
    + replace (P ++ w ++ "-" ++ r) with ((P ++ w) ++ String "-" r)
        by (rewrite app_assoc_s; reflexivity).
      rewrite (split_at_first "-" _ r Hm).
      unfold Py.slice, Py.slice_from, Py.join. simpl skipn. simpl firstn.
      rewrite J, ?app_assoc_s; reflexivity.
    + rewrite (split_free "-" _ Hm).
      unfold Py.slice, Py.slice_from, Py.join. simpl skipn. simpl firstn.
      simpl String.concat. rewrite ?app_assoc_s; reflexivity.
Qed.

(** X1: for a name that starts with [celery-task-meta] or with the
    aggregation prefix, [ptransform] replaces the first hyphen after the
    prefix by a colon, and appends a colon when no hyphen follows it. *)
Theorem prefix_rule_colon_at_first_hyphen (P w r : string) :
  P = "celery-task-meta"
  \/ P = "qo_cli.aff_aggregations.aggregate_aff_aname_aname" ->
  free_of "-" w ->
  ptransform (P ++ w ++ "-" ++ r) = P ++ w ++ ":" ++ r
  /\ ptransform (P ++ w) = P ++ w ++ ":".
Proof. apply prefix_rule_result. Qed.

Lemma prefix_rule_colon_at_first_hyphen_witness :
  free_of "-" "4f2a"
  /\ ptransform ("celery-task-meta" ++ "4f2a" ++ "-" ++ "77-01")
     = "celery-task-meta" ++ "4f2a" ++ ":" ++ "77-01".
Proof.
  split; [reflexivity|].
  apply (prefix_rule_colon_at_first_hyphen "celery-task-meta" "4f2a" "77-01");
    [left; reflexivity | reflexivity].
Defined.

Lemma no_prefix_then_suffix nm :
  Py.startswith nm "celery-task-meta" = false ->
  Py.startswith nm "qo_cli.aff_aggregations.aggregate_aff_aname_aname" = false ->
  ptransform nm =
  if Py.endswith nm "_trigger_queue_user_job" then
    let spl := Py.split "_" nm in
    Py.join "_" (Py.slice_from 1 spl) ++ ":" ++ Py.join "_" (Py.slice 0 1 spl)
  else if Py.endswith nm ".reply.celery.pidbox" then
    let spl := Py.split "." nm in
    Py.join "." (Py.slice_from 1 spl) ++ ":" ++ Py.item0 spl
  else if Py.endswith nm "_user_queue_user_job" then
    let spl := Py.split "_" nm in
    Py.join "_" (Py.slice_from 1 spl) ++ ":" ++ Py.item0 spl
  else nm.
Proof. intros H1 H2. unfold ptransform. rewrite H1, H2. reflexivity. Qed.

Lemma suffix_rule_result (a b : string) :
  (free_of "_" a ->
   Py.startswith (a ++ "_" ++ b) "celery-task-meta" = false ->
   Py.startswith (a ++ "_" ++ b)
     "qo_cli.aff_aggregations.aggregate_aff_aname_aname" = false ->
   Py.endswith (a ++ "_" ++ b) "_trigger_queue_user_job" = true
   \/ Py.endswith (a ++ "_" ++ b) "_user_queue_user_job" = true ->
   ptransform (a ++ "_" ++ b) = b ++ ":" ++ a)
  /\ (free_of "." a ->
      Py.startswith (a ++ "." ++ b) "celery-task-meta" = false ->
      Py.startswith (a ++ "." ++ b)
        "qo_cli.aff_aggregations.aggregate_aff_aname_aname" = false ->
      Py.endswith (a ++ "." ++ b) ".reply.celery.pidbox" = true ->
      ptransform (a ++ "." ++ b) = b ++ ":" ++ a).
Proof.
  split.
  - intros Ha H1 H2 Hs. rewrite (no_prefix_then_suffix _ H1 H2).
    change (a ++ "_" ++ b) with (a ++ String "_" b) in *.
    assert (R : let spl := Py.split "_" (a ++ String "_" b) in
                Py.join "_" (Py.slice_from 1 spl) ++ ":" ++ Py.join "_" (Py.slice 0 1 spl)
                = b ++ ":" ++ a
                /\ Py.join "_" (Py.slice_from 1 spl) ++ ":" ++ Py.item0 spl
                   = b ++ ":" ++ a).
    { cbv zeta. rewrite (split_at_first "_" a b Ha).
      unfold Py.slice, Py.slice_from, Py.item0. simpl skipn. simpl firstn. simpl hd.
      rewrite (join_split "_"). split; reflexivity. }
    destruct (Py.endswith (a ++ String "_" b) "_trigger_queue_user_job") eqn:E3;
      [exact (proj1 R)|].
    destruct Hs as [Hs|Hs]; [discriminate|].
    destruct (Py.endswith (a ++ String "_" b) ".reply.celery.pidbox") eqn:E4.
    + pose proof (endswith_two _ _ _ E4 Hs) as C. simpl in C.
      specialize (C (le_n _)). discriminate.
    + rewrite Hs. exact (proj2 R).
  - intros Ha H1 H2 Hs. rewrite (no_prefix_then_suffix _ H1 H2).
    change (a ++ "." ++ b) with (a ++ String "." b) in *.
    destruct (Py.endswith (a ++ String "." b) "_trigger_queue_user_job") eqn:E3.
    + pose proof (endswith_two _ _ _ E3 Hs) as C. simpl in C.
      assert (20 <= 23) as L by lia. specialize (C L). discriminate.
    + rewrite Hs. cbv zeta. rewrite (split_at_first "." a b Ha).
      unfold Py.slice_from, Py.item0. simpl skipn. simpl hd.
      rewrite (join_split "."). reflexivity.
Qed.

(** X2: for a name that ends with one of the three suffixes (and starts with
    neither prefix), [ptransform] cuts at the first separator: the text
    before it goes behind a colon, whatever separators the rest holds. *)
Theorem suffix_rule_cuts_at_first_separator (a b : string) :
  (free_of "_" a ->
   Py.startswith (a ++ "_" ++ b) "celery-task-meta" = false ->
   Py.startswith (a ++ "_" ++ b)
     "qo_cli.aff_aggregations.aggregate_aff_aname_aname" = false ->
   Py.endswith (a ++ "_" ++ b) "_trigger_queue_user_job" = true
   \/ Py.endswith (a ++ "_" ++ b) "_user_queue_user_job" = true ->
   ptransform (a ++ "_" ++ b) = b ++ ":" ++ a)
  /\ (free_of "." a ->
      Py.startswith (a ++ "." ++ b) "celery-task-meta" = false ->
      Py.startswith (a ++ "." ++ b)
        "qo_cli.aff_aggregations.aggregate_aff_aname_aname" = false ->
      Py.endswith (a ++ "." ++ b) ".reply.celery.pidbox" = true ->
      ptransform (a ++ "." ++ b) = b ++ ":" ++ a).
Proof. apply suffix_rule_result. Qed.

Lemma suffix_rule_cuts_at_first_separator_witness :
  free_of "_" "my"
  /\ Py.endswith ("my" ++ "_" ++ "id_trigger_queue_user_job")
       "_trigger_queue_user_job" = true
  /\ ptransform ("my" ++ "_" ++ "id_trigger_queue_user_job")
     = "id_trigger_queue_user_job" ++ ":" ++ "my".
Proof.
  split; [reflexivity|]. split; [reflexivity|].
  apply (proj1 (suffix_rule_cuts_at_first_separator "my" "id_trigger_queue_user_job"));
    [reflexivity | reflexivity | reflexivity | left; reflexivity].
Defined.

Lemma separator_present sep s :
  count_char sep s <> 0 -> exists w r, free_of sep w /\ s = w ++ String sep r.
Proof.
  intros H. destruct (first_separator sep s) as [F|E]; [contradiction | exact E].
Qed.

Lemma ptransform_colons (nm : string) :
  count_char ":" (ptransform nm)
  = count_char ":" nm + (if transposes nm then 1 else 0).
Proof.
  unfold transposes.
  destruct (Py.startswith nm "celery-task-meta") eqn:P1.
  { apply startswith_split in P1. destruct P1 as [s ->].
    destruct (first_separator "-" s) as [F|(w & r & F & ->)].
    - rewrite (proj2 (prefix_rule_result _ s "" (or_introl eq_refl) F)).
      rewrite <- app_assoc_s, !count_char_app. simpl. lia.
    - change (String "-" r) with ("-" ++ r).
      rewrite (proj1 (prefix_rule_result _ w r (or_introl eq_refl) F)).
      rewrite !count_char_app. simpl. lia. }
  destruct (Py.startswith nm "qo_cli.aff_aggregations.aggregate_aff_aname_aname")
    eqn:P2.
  { pose proof P2 as Q. apply startswith_split in Q. destruct Q as [s ->].
    destruct (first_separator "-" s) as [F|(w & r & F & ->)].
    - rewrite (proj2 (prefix_rule_result _ s "" (or_intror eq_refl) F)).
      rewrite <- app_assoc_s, !count_char_app. simpl. lia.
    - change (String "-" r) with ("-" ++ r).
      rewrite (proj1 (prefix_rule_result _ w r (or_intror eq_refl) F)).
      rewrite !count_char_app. simpl. lia. }
  assert (U : forall S, Py.endswith nm (String "_" S) = true ->
              exists w r, free_of "_" w /\ nm = w ++ "_" ++ r).
  { intros S H. apply endswith_iff in H. destruct H as [a E].
    apply separator_present. rewrite E, count_char_app. simpl. lia. }
  destruct (Py.endswith nm "_trigger_queue_user_job") eqn:S3.
  { destruct (U _ S3) as (w & r & F & ->).
    rewrite (proj1 (suffix_rule_result w r) F P1 P2 (or_introl S3)).
    rewrite !count_char_app. simpl. lia. }
  destruct (Py.endswith nm ".reply.celery.pidbox") eqn:S4.
  { pose proof S4 as H. apply endswith_iff in H. destruct H as [a E].
    destruct (separator_present "." nm) as (w & r & F & ->).
    { rewrite E, count_char_app. simpl. lia. }
    change (String "." r) with ("." ++ r) in *.
    rewrite (proj2 (suffix_rule_result w r) F P1 P2 S4).
    rewrite !count_char_app. simpl. lia. }
  destruct (Py.endswith nm "_user_queue_user_job") eqn:S5.
  { destruct (U _ S5) as (w & r & F & ->).
    rewrite (proj1 (suffix_rule_result w r) F P1 P2 (or_intror S5)).
    rewrite !count_char_app. simpl. lia. }
  simpl. rewrite ptransform_untouched; [lia|].
  unfold transposes. rewrite P1, P2, S3, S4, S5. reflexivity.
Qed.

(** X3: a transposition rule that applies adds exactly one colon to the name
    (it turns one separator into a colon or appends one), and a name to
    which no rule applies is returned as it is; so [ptransform] leaves a name
    unchanged exactly when no rule applies to it. *)
Theorem transposition_adds_one_colon (nm : string) :
  count_char ":" (ptransform nm)
  = count_char ":" nm + (if transposes nm then 1 else 0)
  /\ (ptransform nm = nm <-> transposes nm = false).
Proof.
  pose proof (ptransform_colons nm) as C.
  split; [exact C|]. split.
  - intros E. rewrite E in C. destruct (transposes nm); [lia | reflexivity].
  - apply ptransform_untouched.
Qed.

(** ** What the masking does to a name *)

Lemma skip_run_app t m : colon_or_end m -> skip_run (t ++ m) = skip_run t ++ m.
Proof.
  intros Hm. induction t as [|c t IH]; simpl.
  - apply skip_run_fixed, Hm.
  - destruct (is_colon c); [reflexivity | exact IH].
Qed.

Lemma skip_run_suffix t : exists a, t = a ++ skip_run t.
Proof.
  induction t as [|c t [a IH]]; simpl.
  - exists "". reflexivity.
  - destruct (is_colon c).
    + exists "". reflexivity.
    + exists (String c a). simpl. rewrite <- IH. reflexivity.
Qed.

Lemma skip_run_free t m :
  free_of ":" t -> colon_or_end m -> skip_run (t ++ m) = m.
Proof.
  unfold free_of. intros Ht Hm. induction t as [|c t IH]; simpl in *.
  - apply skip_run_fixed, Hm.
  - unfold is_colon. destruct (Ascii.eqb c ":"); [discriminate | apply IH, Ht].
Qed.

Lemma endswith_longer a r q : Py.endswith r q = true -> Py.endswith (a ++ r) q = true.
Proof.
  intros H. apply endswith_iff in H. destruct H as [b ->].
  apply endswith_iff. exists (a ++ b). rewrite app_assoc_s. reflexivity.
Qed.

Lemma endswith_tail a r q : Py.endswith (a ++ r) q = false -> Py.endswith r q = false.
Proof.
  intros H. destruct (Py.endswith r q) eqn:E; [|reflexivity].
  rewrite (endswith_longer a r q E) in H. discriminate.
Qed.

Lemma match_US_app c p m :
  Py.endswith (String c p) ":US" = false -> colon_or_end m ->
  match_US (String c p ++ m) = option_map (fun r => r ++ m) (match_US (String c p)).
Proof.
  intros He Hm.
  destruct p as [|c1 [|c2 [|c3 [|c4 t]]]].
  - destruct m as [|x [|x1 [|x2 [|x3 m']]]]; simpl in *; try reflexivity.
    subst x. destruct (Ascii.eqb c ":"); reflexivity.
  - destruct m as [|x [|x1 [|x2 m']]]; simpl in *; try reflexivity.
    subst x. destruct (Ascii.eqb c ":"), (Ascii.eqb c1 "U"); reflexivity.
  - destruct m as [|x [|x1 m']]; simpl in *; try reflexivity.
    subst x. unfold Py.endswith in He. simpl in He.
    destruct (Ascii.eqb_spec c ":"), (Ascii.eqb_spec c1 "U"), (Ascii.eqb_spec c2 "S");
      subst; simpl in *; try reflexivity. discriminate.
  - destruct m as [|x m']; simpl in *; [reflexivity|]. subst x.
    unfold is_colon. simpl. rewrite !andb_false_r. reflexivity.
  - simpl. destruct (_ && _); [|reflexivity]. simpl.
    rewrite (skip_run_app _ _ Hm). reflexivity.
Qed.

(** Text that begins at a colon is masked on its own, whatever comes before
    it, unless the text before it ends with [:US]. *)
Lemma re_sub_US_app p m :
  Py.endswith p ":US" = false -> colon_or_end m ->
  re_sub_US (p ++ m) = re_sub_US p ++ re_sub_US m.
Proof.
  intros He Hm. revert He.
  induction p as [p IH] using (well_founded_induction
                                 (Wf_nat.well_founded_ltof _ String.length)).
  intros He. destruct p as [|c p]; [reflexivity|].
  change (String c p ++ m) with (String c (p ++ m)).
  rewrite !re_sub_US_cons.
  change (String c (p ++ m)) with (String c p ++ m).
  rewrite (match_US_app _ _ _ He Hm).
  destruct (match_US (String c p)) as [r|] eqn:E; simpl.
  - assert (Hs : exists a, String c p = a ++ r).
    { destruct p as [|c1 [|c2 [|c3 [|c4 t]]]]; simpl in E; try discriminate.
      destruct (_ && _); [|discriminate]. injection E as <-.
      destruct (skip_run_suffix t) as [a Ha].
      exists (String c (String c1 (String c2 (String c3 (String c4 a))))).
      simpl. rewrite <- Ha. reflexivity. }
    destruct Hs as [a Ha].
    rewrite IH.
    + reflexivity.
    + unfold Wf_nat.ltof. apply (match_US_length _ _ E).
    + apply (endswith_tail a). rewrite <- Ha. exact He.
  - rewrite IH; [reflexivity | unfold Wf_nat.ltof; simpl; lia |].
    apply (endswith_tail (String c "")). exact He.
Qed.

(** X4: the masking replaces the identifier after [:US:] by [1], whatever
    the identifier is and whatever text surrounds it: so two names that
    differ only there are masked to the same name. *)
Theorem masking_collapses_identifier (p : string) (c : ascii) (id rest : string) :
  Py.endswith p ":US" = false ->
  free_of ":" (String c id) ->
  colon_or_end rest ->
  re_sub_US (p ++ ":US:" ++ String c id ++ rest)
  = re_sub_US p ++ ":US:1" ++ re_sub_US rest.
Proof.
  intros Hp Hid Hr.
  rewrite (re_sub_US_app p _ Hp) by reflexivity.
  f_equal.
  change (":US:" ++ String c id ++ rest)
    with (String ":" (String "U" (String "S" (String ":" (String c (id ++ rest)))))).
  rewrite re_sub_US_cons. unfold free_of in Hid. simpl in Hid. simpl match_US.
  unfold is_colon. destruct (c =? ":")%char; [discriminate|]. simpl.
  rewrite (skip_run_free id rest Hid Hr). reflexivity.
Qed.

Lemma masking_collapses_identifier_witness :
  Py.endswith "foo" ":US" = false
  /\ free_of ":" "abc123"
  /\ colon_or_end ":bar"
  /\ re_sub_US ("foo" ++ ":US:" ++ "abc123" ++ ":bar")
     = re_sub_US "foo" ++ ":US:1" ++ re_sub_US ":bar".
Proof.
  split; [reflexivity|]. split; [reflexivity|]. split; [reflexivity|].
  apply (masking_collapses_identifier "foo" "a" "bc123" ":bar"); reflexivity.
Defined.

Lemma skip_run_counts t :
  String.length (skip_run t) <= String.length t
  /\ count_char ":" (skip_run t) = count_char ":" t.
Proof.
  induction t as [|c t [IH1 IH2]]; simpl; [split; reflexivity|].
  unfold is_colon. destruct (Ascii.eqb c ":") eqn:E; simpl;
    [rewrite E; split; reflexivity|].
  split; [lia | exact IH2].
Qed.

Lemma re_sub_US_counts (s : string) :
  String.length (re_sub_US s) <= String.length s
  /\ count_char ":" (re_sub_US s) = count_char ":" s.
Proof.
  induction s as [s IH] using (well_founded_induction
                                 (Wf_nat.well_founded_ltof _ String.length)).
  destruct s as [|c s]; [split; reflexivity|].
  rewrite re_sub_US_cons.
  destruct (match_US (String c s)) as [r|] eqn:E.
  - destruct (IH r (match_US_length _ _ E)) as [L C].
    destruct s as [|c1 [|c2 [|c3 [|c4 t]]]]; simpl in E; try discriminate.
    destruct (Ascii.eqb_spec c ":"); [subst c|discriminate].
    destruct (Ascii.eqb_spec c1 "U"); [subst c1|discriminate].
    destruct (Ascii.eqb_spec c2 "S"); [subst c2|discriminate].
    destruct (Ascii.eqb_spec c3 ":"); [subst c3|discriminate].
    unfold is_colon in E. destruct (Ascii.eqb c4 ":") eqn:E4; [discriminate|].
    simpl in E. injection E as <-.
    destruct (skip_run_counts t) as [L' C'].
    simpl. rewrite E4. simpl. split; lia.
  - destruct (IH s) as [L C]; [unfold Wf_nat.ltof; simpl; lia|].
    simpl. split; lia.
Qed.

(** X5: the masking never makes a name longer and keeps its colons; the
    name handed to the pattern deriver, [ptransform] of the masked name, has
    the colons of the key name and one more exactly when a transposition
    rule applies to the masked name. *)
Theorem masking_keeps_segments (s : string) :
  String.length (re_sub_US s) <= String.length s
  /\ count_char ":" (re_sub_US s) = count_char ":" s
  /\ count_char ":" (normalize s)
     = count_char ":" s + (if transposes (re_sub_US s) then 1 else 0).
Proof.
  destruct (re_sub_US_counts s) as [L C].
  split; [exact L|]. split; [exact C|].
  unfold normalize. rewrite ptransform_colons, C. reflexivity.
Qed.

(** ** When normalizing twice changes nothing *)

Lemma re_sub_US_prefix (P t : string) :
  free_of ":" P -> re_sub_US (P ++ t) = P ++ re_sub_US t.
Proof.
  unfold free_of. induction P as [|c P IH]; simpl; [reflexivity|].
  destruct (Ascii.eqb_spec c ":") as [->|N]; [discriminate|]. simpl. intros F.
  rewrite re_sub_US_cons.
  destruct (match_US (String c (P ++ t))) as [r|] eqn:E.
  - apply match_US_colon in E. contradiction.
  - rewrite (IH F). reflexivity.
Qed.

Lemma prefixed_transposes nm : prefixed nm = true -> transposes nm = true.
Proof.
  unfold prefixed, transposes. intros H.
  apply orb_true_iff in H. destruct H as [-> | ->]; [reflexivity|].
  rewrite orb_true_r. reflexivity.
Qed.

(** The output of a prefix rule keeps the prefix, and so does its masking. *)
Lemma prefixed_again nm : prefixed nm = true -> prefixed (re_sub_US (ptransform nm)) = true.
Proof.
  unfold prefixed. intros H.
  assert (G : forall P s,
             P = "celery-task-meta"
             \/ P = "qo_cli.aff_aggregations.aggregate_aff_aname_aname" ->
             free_of ":" P ->
             Py.startswith (re_sub_US (ptransform (P ++ s))) P = true).
  { intros P s HP F.
    destruct (first_separator "-" s) as [Fs|(w & r & Fw & ->)].
    - rewrite (proj2 (prefix_rule_result P s "" HP Fs)).
      rewrite (re_sub_US_prefix P _ F). apply startswith_app.
    - change (String "-" r) with ("-" ++ r).
      rewrite (proj1 (prefix_rule_result P w r HP Fw)).
      rewrite (re_sub_US_prefix P _ F). apply startswith_app. }
  apply orb_true_iff in H. destruct H as [H|H];
    apply startswith_split in H; destruct H as [s ->]; apply orb_true_iff.
  - left. apply G; [left; reflexivity | reflexivity].
  - right. apply G; [right; reflexivity | reflexivity].
Qed.

Lemma normalize_twice_stable (x : string) :
  normalize (normalize x) = normalize x
  <-> transposes (normalize x) = false /\ re_sub_US (normalize x) = normalize x.
Proof.
  set (y := normalize x).
  change (normalize y) with (ptransform (re_sub_US y)).
  split.
  - intros H.
    pose proof (ptransform_colons (re_sub_US y)) as C.
    rewrite H, (proj2 (re_sub_US_counts y)) in C.
    destruct (transposes (re_sub_US y)) eqn:T; [lia|].
    rewrite (ptransform_untouched _ T) in H.
    rewrite H in T. split; assumption.
  - intros [T M]. rewrite M. apply ptransform_untouched, T.
Qed.

Lemma normalize_twice_prefixed (x : string) :
  prefixed (re_sub_US x) = true -> normalize (normalize x) <> normalize x.
Proof.
  intros H E. apply normalize_twice_stable in E. destruct E as [T M].
  apply prefixed_again in H. fold (normalize x) in H. rewrite M in H.
  apply prefixed_transposes in H. congruence.
Qed.

(** C3, amended: the masking step is idempotent on every name; normalizing
    twice gives the result of normalizing once exactly when that result
    triggers no transposition rule and is left as it is by the masking.
    This is so for every name whose masked form triggers no rule, and never
    so for a name whose masked form starts with one of the two prefixes: the
    prefix stays in front and the rule applies again. *)
Theorem normalize_idempotent_when_stable (x : string) :
  re_sub_US (re_sub_US x) = re_sub_US x
  /\ (normalize (normalize x) = normalize x
      <-> transposes (normalize x) = false /\ re_sub_US (normalize x) = normalize x)
  /\ (transposes (re_sub_US x) = false -> normalize (normalize x) = normalize x)
  /\ (prefixed (re_sub_US x) = true -> normalize (normalize x) <> normalize x).
Proof.
  split; [apply re_sub_US_idempotent|].
  split; [apply normalize_twice_stable|].
  split; [apply normalize_idempotent_untransposed | apply normalize_twice_prefixed].
Qed.

(** The two suffix examples of the specification are stable, a name whose
    identifier moves behind [:US:] is not. *)
Lemma normalize_idempotent_when_stable_witness :
  normalize (normalize "myid_trigger_queue_user_job")
  = normalize "myid_trigger_queue_user_job"
  /\ normalize (normalize "svc.reply.celery.pidbox") = normalize "svc.reply.celery.pidbox"
  /\ normalize (normalize "foo:US:abc123:bar") = normalize "foo:US:abc123:bar"
  /\ normalize (normalize "celery-task-meta-aa-bb") <> normalize "celery-task-meta-aa-bb"
  /\ normalize (normalize "US:abc_trigger_queue_user_job")
     <> normalize "US:abc_trigger_queue_user_job".
Proof.
  split; [|split; [|split; [|split]]].
  - apply (proj1 (proj2 (normalize_idempotent_when_stable "myid_trigger_queue_user_job"))).
    split; vm_compute; reflexivity.
  - apply (proj1 (proj2 (normalize_idempotent_when_stable "svc.reply.celery.pidbox"))).
    split; vm_compute; reflexivity.
  - apply (proj1 (proj2 (proj2 (normalize_idempotent_when_stable "foo:US:abc123:bar")))).
    vm_compute. reflexivity.
  - apply (proj2 (proj2 (proj2 (normalize_idempotent_when_stable "celery-task-meta-aa-bb")))).
    vm_compute. reflexivity.
  - intros E.
    apply (proj1 (proj2 (normalize_idempotent_when_stable "US:abc_trigger_queue_user_job")))
      in E.
    destruct E as [_ M]. vm_compute in M. discriminate.
Defined.

(** ** Keys and buckets of the grouping *)

Section KeyOrder.
Context {K V : Type} (eqb : K -> K -> bool).
Hypothesis eqb_spec : forall a b, reflect (a = b) (eqb a b).

Lemma filter_filter {A} (f g : A -> bool) l :
  filter f (filter g l) = filter (fun y => g y && f y) l.
Proof.
  induction l as [|x l IH]; simpl; [reflexivity|].
  destruct (g x); simpl; [destruct (f x)|]; rewrite IH; reflexivity.
Qed.

Lemma contains_app (y : K) l x :
  contains eqb y (l ++ [x]) = contains eqb y l || eqb y x.
Proof.
  unfold contains. rewrite existsb_app. simpl. rewrite orb_false_r. reflexivity.
Qed.

(** A loop whose every step assigns to one key: the keys afterwards are the
    keys before, then the new ones at their first occurrence. *)
Lemma fold_keys {A} (key : A -> K) (step : list (K * V) -> A -> list (K * V)) :
  (forall d x, dict_keys (step d x)
               = if contains eqb (key x) (dict_keys d) then dict_keys d
                 else (dict_keys d ++ [key x])%list) ->
  forall l d,
    dict_keys (fold_left step l d)
    = (dict_keys d
       ++ filter (fun y => negb (contains eqb y (dict_keys d)))
            (first_occurrences eqb (map key l)))%list.
Proof.
  intros Hstep. induction l as [|x l IH]; intros d; simpl.
  - rewrite app_nil_r. reflexivity.
  - rewrite IH, Hstep. destruct (contains eqb (key x) (dict_keys d)) eqn:C; simpl.
    + f_equal. rewrite filter_filter. apply filter_ext. intros y.
      destruct (eqb_spec y (key x)) as [->|N]; simpl; [rewrite C|]; reflexivity.
    + rewrite <- app_assoc. simpl. f_equal. f_equal.
      rewrite filter_filter. apply filter_ext. intros y.
      rewrite contains_app, negb_orb, andb_comm. reflexivity.
Qed.

Lemma first_occurrences_In (x : K) l : In x (first_occurrences eqb l) <-> In x l.
Proof.
  induction l as [|y l IH]; simpl; [tauto|].
  rewrite filter_In, IH. destruct (eqb_spec x y) as [->|N]; simpl.
  - tauto.
  - split; [tauto|]. intros [E|H]; [congruence | auto].
Qed.

Lemma first_occurrences_NoDup l : NoDup (first_occurrences eqb l).
Proof.
  induction l as [|y l IH]; simpl; constructor.
  - rewrite filter_In. intros [_ H]. destruct (eqb_spec y y); [discriminate|contradiction].
  - apply NoDup_filter, IH.
Qed.

End KeyOrder.

Lemma filter_all {A} (f : A -> bool) l : (forall x, In x l -> f x = true) -> filter f l = l.
Proof.
  induction l as [|x l IH]; simpl; intros H; [reflexivity|].
  rewrite (H x (or_introl eq_refl)), IH; [reflexivity|]. intros y Hy. apply H. auto.
Qed.

Lemma filter_none {A} (f : A -> bool) l :
  (forall x, In x l -> f x = false) -> filter f l = [].
Proof.
  induction l as [|x l IH]; simpl; intros H; [reflexivity|].
  rewrite (H x (or_introl eq_refl)). apply IH. intros y Hy. apply H. auto.
Qed.

Lemma dict_keys_set_string {V} (k : string) (v : V) d :
  dict_keys (dict_set String.eqb k v d)
  = if contains String.eqb k (dict_keys d) then dict_keys d
    else (dict_keys d ++ [k])%list.
Proof. apply (dict_keys_set String.eqb String.eqb_spec). Qed.

(** X6: the groups of a bucket are keyed by the derived templates, each once
    and in the order of its first occurrence, and every template has its
    group, the records of the bucket that match it in scan order, also when
    no record matches it. *)
Theorem groups_keyed_by_templates (splitter_split : list string -> list string)
    (data : list KeyRecord) (g : groups) :
  get_pattern_aggregated_data splitter_split data = inr g ->
  dict_keys g = first_occurrences String.eqb (derived_templates splitter_split data)
  /\ NoDup (dict_keys g)
  /\ forall t, In t (derived_templates splitter_split data) ->
               dict_get String.eqb t g = Some (filter (member_of t) data).
Proof.
  intros Hg.
  assert (Hk : dict_keys g
               = first_occurrences String.eqb (derived_templates splitter_split data)).
  { destruct data as [|r0 data']; [discriminate|].
    unfold get_pattern_aggregated_data, ret in Hg.
    set (sp := derived_templates splitter_split (r0 :: data')) in *.
    injection Hg as <-.
    rewrite (fold_keys String.eqb String.eqb_spec (fun p : string => p)
               (fun d pattern => dict_set String.eqb pattern
                                   (filter (member_of pattern) (r0 :: data')) d))
      by (intros; apply dict_keys_set_string).
    rewrite (fold_keys String.eqb String.eqb_spec (fun p : string => p)
               (fun d item => dict_set String.eqb item (@nil KeyRecord) d))
      by (intros; apply dict_keys_set_string).
    simpl. rewrite map_id.
    rewrite (filter_all (fun _ => true)) by reflexivity.
    rewrite filter_none; [apply app_nil_r|].
    intros x Hx. apply negb_false_iff.
    apply (contains_In String.eqb String.eqb_spec). exact Hx. }
  split; [exact Hk|]. split.
  - rewrite Hk. apply (first_occurrences_NoDup String.eqb String.eqb_spec).
  - intros t Ht. rewrite (gpad_get _ _ _ t Hg).
    apply (contains_In String.eqb String.eqb_spec) in Ht. rewrite Ht. reflexivity.
Qed.

Lemma defaultdict_append_keys d v :
  dict_keys (defaultdict_append d v)
  = if contains type_id_eqb (type v) (dict_keys d) then dict_keys d
    else (dict_keys d ++ [type v])%list.
Proof.
  unfold defaultdict_append.
  destruct (dict_get type_id_eqb (type v) d);
    apply (dict_keys_set type_id_eqb type_id_eqb_spec).
Qed.

Lemma keys_by_type_keys scanned :
  dict_keys (keys_by_type scanned) = first_occurrences type_id_eqb (map type scanned).
Proof.
  unfold keys_by_type.
  rewrite (fold_keys type_id_eqb type_id_eqb_spec type defaultdict_append
             defaultdict_append_keys).
  simpl. apply filter_all. reflexivity.
Qed.

Lemma keys_by_type_get_from l d t :
  dict_get type_id_eqb t (fold_left defaultdict_append l d)
  = match dict_get type_id_eqb t d with
    | Some x => Some (x ++ of_type t l)%list
    | None => match of_type t l with
              | [] => None
              | data => Some data
              end
    end.
Proof.
  revert d. induction l as [|v l IH]; intros d; simpl.
  - destruct (dict_get type_id_eqb t d); [rewrite app_nil_r|]; reflexivity.
  - rewrite IH. unfold defaultdict_append.
    destruct (type_id_eqb_spec (type v) t) as [E|N].
    + rewrite E.
      destruct (dict_get type_id_eqb t d) as [x|];
        rewrite (dict_get_set_same type_id_eqb type_id_eqb_spec);
        [rewrite <- app_assoc|]; reflexivity.
    + destruct (dict_get type_id_eqb (type v) d);
        rewrite (dict_get_set_other type_id_eqb type_id_eqb_spec) by congruence;
        reflexivity.
Qed.

Lemma keys_by_type_get scanned t :
  dict_get type_id_eqb t (keys_by_type scanned)
  = match of_type t scanned with
    | [] => None
    | data => Some data
    end.
Proof. unfold keys_by_type. rewrite keys_by_type_get_from. reflexivity. Qed.

(** X7: the scan loop partitions the records by type: the bucket of a type
    holds exactly the scanned records of that type, in scan order; a type
    without records has no bucket; and the buckets come in the order in
    which their types were first seen. *)
Theorem buckets_partition_by_type (scanned : list KeyRecord) :
  dict_keys (keys_by_type scanned) = first_occurrences type_id_eqb (map type scanned)
  /\ forall t, dict_get type_id_eqb t (keys_by_type scanned)
               = match of_type t scanned with
                 | [] => None
                 | data => Some data
                 end.
Proof. split; [apply keys_by_type_keys | apply keys_by_type_get]. Qed.

Lemma aggregate_from splitter_split (l : list (type_id * list KeyRecord)) :
  NoDup (dict_keys l) ->
  Forall (fun kv => snd kv <> []) l ->
  forall d : list (type_id * groups),
    (forall k, In k (dict_keys l) -> ~ In k (dict_keys d)) ->
    exists res,
      for_each (fun d kv =>
                  g <- get_pattern_aggregated_data splitter_split (snd kv) ;;
                  ret (dict_set type_id_eqb (fst kv) g d)) l d = inr res
      /\ dict_keys res = (dict_keys d ++ dict_keys l)%list
      /\ (forall k data, In (k, data) l ->
            exists g, get_pattern_aggregated_data splitter_split data = inr g
                      /\ dict_get type_id_eqb k res = Some g)
      /\ (forall k, ~ In k (dict_keys l) ->
            dict_get type_id_eqb k res = dict_get type_id_eqb k d).
Proof.
  induction l as [|[k v] l IH]; intros ND F d Hd.
  - exists d. simpl. rewrite app_nil_r.
    split; [reflexivity|]. split; [reflexivity|].
    split; [intros ? ? [] | reflexivity].
  - inversion ND as [|? ? Hk ND']; subst. inversion F as [|? ? Hv F']; subst.
    simpl in Hv. destruct v as [|r0 v]; [contradiction|].
    destruct (gpad_nonempty splitter_split r0 v) as [g Hg].
    cbn [for_each snd fst]. rewrite Hg. cbn [bind ret].
    assert (Hkd : contains type_id_eqb k (dict_keys d) = false).
    { destruct (contains type_id_eqb k (dict_keys d)) eqn:C; [|reflexivity].
      apply (contains_In type_id_eqb type_id_eqb_spec) in C.
      exfalso. apply (Hd k); [left; reflexivity | exact C]. }
    destruct (IH ND' F' (dict_set type_id_eqb k g d)) as (res & Hr & Hkeys & Hin & Hout).
    { intros k' Hk'. rewrite (dict_keys_set type_id_eqb type_id_eqb_spec), Hkd.
      rewrite in_app_iff. intros [H|[<-|[]]]; [|contradiction].
      apply (Hd k'); [right; exact Hk' | exact H]. }
    exists res. split; [exact Hr|]. split; [|split].
    + rewrite Hkeys, (dict_keys_set type_id_eqb type_id_eqb_spec), Hkd.
      rewrite <- app_assoc. reflexivity.
    + intros k' data [E|HI].
      * injection E as <- <-. exists g. split; [exact Hg|].
        rewrite (Hout k Hk). apply (dict_get_set_same type_id_eqb type_id_eqb_spec).
      * apply (Hin k' data HI).
    + intros k' Hk'. simpl in Hk'. rewrite Hout by tauto.
      apply (dict_get_set_other type_id_eqb type_id_eqb_spec). intros E. apply Hk'. auto.
Qed.

Lemma aggregate_all_buckets
    (splitter_split : list string -> list string) (scanned : list KeyRecord) :
  exists res,
    aggregate_all splitter_split (keys_by_type scanned) = inr res
    /\ dict_keys res = first_occurrences type_id_eqb (map type scanned)
    /\ forall t,
         match of_type t scanned with
         | [] => dict_get type_id_eqb t res = None
         | data =>
             exists g, get_pattern_aggregated_data splitter_split data = inr g
                       /\ dict_get type_id_eqb t res = Some g
         end.
Proof.
  destruct (aggregate_from splitter_split (keys_by_type scanned)) with (d := @nil (type_id * groups))
    as (res & Hr & Hkeys & Hin & Hout).
  - rewrite keys_by_type_keys.
    apply (first_occurrences_NoDup type_id_eqb type_id_eqb_spec).
  - apply keys_by_type_values.
  - intros k _ [].
  - exists res. split; [exact Hr|]. split; [rewrite Hkeys; apply keys_by_type_keys|].
    intros t. pose proof (keys_by_type_get scanned t) as G.
    destruct (of_type t scanned) as [|r data].
    + rewrite Hout; [reflexivity|].
      apply (dict_get_None type_id_eqb type_id_eqb_spec), G.
    + apply Hin. apply (dict_get_In type_id_eqb type_id_eqb_spec), G.
Qed.

(** X8: grouping never fails on the buckets of a scan, and the grouped
    mapping has the same types in the same order: a type with scanned records
    is mapped to the groups of exactly those records, a type without any is
    absent. *)
Theorem grouped_mapping_follows_buckets
    (splitter_split : list string -> list string) (scanned : list KeyRecord) :
  exists res,
    aggregate_all splitter_split (keys_by_type scanned) = inr res
    /\ dict_keys res = first_occurrences type_id_eqb (map type scanned)
    /\ forall t,
         match of_type t scanned with
         | [] => dict_get type_id_eqb t res = None
         | data =>
             exists g, get_pattern_aggregated_data splitter_split data = inr g
                       /\ dict_get type_id_eqb t res = Some g
         end.
Proof. apply aggregate_all_buckets. Qed.

(** ** The census, row by row *)

Section CensusRowFacts.
Variables float percent stat node : Type.
Variable truediv : Z -> Z -> float.
Variable floored_percentage : float -> Z -> percent.
Variable redis_dbsize : Z.

Lemma do_scanner_unsorted (self : RmaApplication) res :
  do_scanner truediv floored_percentage redis_dbsize (stat := stat) (node := node) self res
  = (rows <- census_rows truediv floored_percentage
               (Z.min redis_dbsize (limit self)) res ;;
     ret (Keys (sort_reverse (@row_count percent) rows) census_headers)).
Proof.
  unfold do_scanner, census_rows.
  pose proof (census_outer float percent truediv floored_percentage
                (Z.min redis_dbsize (limit self)) res []) as H.
  simpl sort_reverse in H. rewrite H.
  match goal with
  | |- context [for_each ?f res []] => destruct (for_each f res []) as [e|rows]
  end; reflexivity.
Qed.

Lemma census_rows_nonzero total res acc :
  total <> 0%Z ->
  for_each
    (fun acc ta =>
       for_each
         (fun acc kv =>
            r <- census_row truediv floored_percentage total
                   (type_id_to_redis_type (fst ta)) kv ;;
            ret (acc ++ [r])%list)
         (snd ta) acc)
    res acc
  = inr (acc ++ rows_of truediv floored_percentage total res)%list.
Proof.
  intros Ht. revert acc. induction res as [|ta res IH]; intros acc; simpl.
  - rewrite app_nil_r. reflexivity.
  - assert (I : forall kvs a,
               for_each
                 (fun acc kv =>
                    r <- census_row truediv floored_percentage total
                           (type_id_to_redis_type (fst ta)) kv ;;
                    ret (acc ++ [r])%list) kvs a
               = inr (a ++ map (row_of truediv floored_percentage total
                                  (type_id_to_redis_type (fst ta))) kvs)%list).
    { induction kvs as [|kv kvs IHk]; intros a; simpl.
      - rewrite app_nil_r. reflexivity.
      - unfold census_row at 1. destruct (Z.eqb_spec total 0); [contradiction|].
        simpl. rewrite IHk, <- app_assoc. reflexivity. }
    rewrite I. simpl. rewrite IH, <- app_assoc. reflexivity.
Qed.

Lemma census_rows_zero res acc :
  (for_each
     (fun acc ta =>
        for_each
          (fun acc kv =>
             r <- census_row truediv floored_percentage 0
                    (type_id_to_redis_type (fst ta)) kv ;;
             ret (acc ++ [r])%list)
          (snd ta) acc)
     res acc = inr acc
   /\ forall ta, In ta res -> snd ta = [])
  \/ (for_each
        (fun acc ta =>
           for_each
             (fun acc kv =>
                r <- census_row truediv floored_percentage 0
                       (type_id_to_redis_type (fst ta)) kv ;;
                ret (acc ++ [r])%list)
             (snd ta) acc)
        res acc = inl ZeroDivisionError
      /\ exists ta kv, In ta res /\ In kv (snd ta)).
Proof.
  induction res as [|[t g] res IH]; simpl.
  - left. split; [reflexivity | intros ? []].
  - destruct g as [|kv g]; simpl.
    + destruct IH as [[E H]|[E (ta & kv & H1 & H2)]].
      * left. split; [exact E|]. intros ta [<-|HI]; [reflexivity | auto].
      * right. split; [exact E|]. exists ta, kv. auto.
    + right. split; [reflexivity|]. exists (t, kv :: g), kv. simpl. auto.
Qed.

(** X9: the census fails only by a division by zero, and it does so exactly
    when [min(dbsize, limit)] is 0 and the grouped data holds at least one
    template; with no template at all it returns the empty table whatever
    the total is. *)
Theorem census_division_by_zero (self : RmaApplication) (res : list (type_id * groups)) :
  (forall e,
     do_scanner truediv floored_percentage redis_dbsize (stat := stat) (node := node)
       self res = inl e
     <-> e = ZeroDivisionError
         /\ Z.min redis_dbsize (limit self) = 0%Z
         /\ exists ta kv, In ta res /\ In kv (snd ta))
  /\ ((forall ta, In ta res -> snd ta = []) ->
      do_scanner truediv floored_percentage redis_dbsize (stat := stat) (node := node)
        self res = inr (Keys [] census_headers)).
Proof.
  rewrite do_scanner_unsorted. unfold census_rows.
  destruct (Z.eq_dec (Z.min redis_dbsize (limit self)) 0) as [Z0|NZ].
  - rewrite Z0.
    destruct (census_rows_zero res []) as [[E H]|[E X]]; rewrite E; simpl.
    + split; [|intros _; reflexivity].
      intros e. split; [discriminate|]. intros (_ & _ & ta & kv & H1 & H2).
      specialize (H ta H1). destruct ta as [t g]. simpl in *. subst g. destruct H2.
    + split.
      * intros e. split; [intros [= <-]; auto | intros (-> & _); reflexivity].
      * intros H. destruct X as (ta & kv & H1 & H2).
        specialize (H ta H1). destruct ta as [t g]. simpl in *. subst g. destruct H2.
  - rewrite (census_rows_nonzero _ res [] NZ). simpl. split.
    + intros e. split; [discriminate | intros (_ & Z0 & _); contradiction].
    + intros H. replace (rows_of truediv floored_percentage
                           (Z.min redis_dbsize (limit self)) res)
        with (@nil (row percent)); [reflexivity|].
      unfold rows_of. clear NZ. induction res as [|[t g] res IH]; [reflexivity|].
      pose proof (H (t, g) (or_introl eq_refl)) as G. simpl in G. subst g.
      simpl. apply IH. intros ta' H'. apply H. right. exact H'.
Qed.

Lemma do_scanner_rows (self : RmaApplication) (res : list (type_id * groups)) :
  Z.min redis_dbsize (limit self) <> 0%Z ->
  do_scanner truediv floored_percentage redis_dbsize (stat := stat) (node := node)
    self res
  = inr (Keys (sort_reverse (@row_count percent)
                 (rows_of truediv floored_percentage
                    (Z.min redis_dbsize (limit self)) res))
           census_headers).
Proof.
  intros NZ. rewrite do_scanner_unsorted. unfold census_rows.
  rewrite (census_rows_nonzero _ res [] NZ). reflexivity.
Qed.

(** X10: when [min(dbsize, limit)] is not 0 the census has one row for every
    template of every type, carrying the template, the size of its group,
    the name of the type and the percentage of that size in
    [min(dbsize, limit)], and the rows are these in descending order of
    count, ties in loop order. *)
Theorem census_one_row_per_template (self : RmaApplication)
    (res : list (type_id * groups)) :
  Z.min redis_dbsize (limit self) <> 0%Z ->
  do_scanner truediv floored_percentage redis_dbsize (stat := stat) (node := node)
    self res
  = inr (Keys (sort_reverse (@row_count percent)
                 (rows_of truediv floored_percentage
                    (Z.min redis_dbsize (limit self)) res))
           census_headers)
  /\ length (rows_of truediv floored_percentage
               (Z.min redis_dbsize (limit self)) res)
     = length (flat_map (fun ta : type_id * groups => snd ta) res).
Proof.
  intros NZ. split; [apply do_scanner_rows, NZ|].
  unfold rows_of. induction res as [|ta res IH]; simpl; [reflexivity|].
  rewrite !length_app, length_map, IH. reflexivity.
Qed.

End CensusRowFacts.

(** ** Which types get a statistic *)

Section EngineEntries.
Variables percent stat node : Type.
Variable analyze : rule -> groups -> Z -> stat.

Lemma apply_rules_entry n redis_type agg rules (ret : list (string * stat)) :
  dict_get String.eqb n (apply_rules analyze redis_type agg rules ret) <> None
  <-> dict_get String.eqb n ret <> None \/ (n = redis_type /\ rules <> []).
Proof.
  destruct (String.eqb_spec n redis_type) as [->|N].
  - destruct rules as [|r rules].
    + simpl. split; [auto | intros [H|[_ H]]; [exact H | contradiction]].
    + destruct (@exists_last _ (r :: rules)) as (rs & r_last & E); [discriminate|].
      rewrite E, apply_rules_last. split; [intros _|discriminate].
      right. split; [reflexivity | destruct rs; discriminate].
  - rewrite (apply_rules_other _ _ _ _ _ _ _ N).
    split; [auto | intros [H|[E _]]; [exact H | contradiction]].
Qed.

Lemma ram_loop_entry self cls res (ret : list (string * stat)) n :
  dict_get String.eqb n (ram_loop analyze self cls res ret) <> None
  <-> dict_get String.eqb n ret <> None
      \/ exists k agg rules,
           In (k, agg) res /\ type_id_to_redis_type k = n /\ In k (types self)
           /\ dict_get type_id_eqb k (types_rules cls) = Some rules /\ rules <> [].
Proof.
  revert ret. induction res as [|[k agg] res IH]; intros ret.
  - simpl. split; [auto | intros [H|(? & ? & ? & [] & _)]; exact H].
  - change (ram_loop analyze self cls ((k, agg) :: res) ret)
      with (ram_loop analyze self cls res
              (if contains type_id_eqb k (dict_keys (types_rules cls))
                  && contains type_id_eqb k (types self)
               then match dict_get type_id_eqb k (types_rules cls) with
                    | Some rules => apply_rules analyze (type_id_to_redis_type k) agg rules ret
                    | None => ret
                    end
               else ret)).
    rewrite IH. clear IH.
    assert (Hstep :
      dict_get String.eqb n
        (if contains type_id_eqb k (dict_keys (types_rules cls))
            && contains type_id_eqb k (types self)
         then match dict_get type_id_eqb k (types_rules cls) with
              | Some rules => apply_rules analyze (type_id_to_redis_type k) agg rules ret
              | None => ret
              end
         else ret) <> None
      <-> dict_get String.eqb n ret <> None
          \/ (type_id_to_redis_type k = n /\ In k (types self)
              /\ exists rules, dict_get type_id_eqb k (types_rules cls) = Some rules
                               /\ rules <> [])).
    { destruct (dict_get type_id_eqb k (types_rules cls)) as [rules|] eqn:R.
      - rewrite (dict_get_contains _ _ _ _ R). simpl.
        destruct (contains type_id_eqb k (types self)) eqn:T.
        + apply (contains_In type_id_eqb type_id_eqb_spec) in T.
          rewrite apply_rules_entry. split.
          * intros [H|[-> H]]; [auto|]. right. split; [reflexivity|].
            split; [exact T|]. exists rules. auto.
          * intros [H|(<- & _ & rules' & [= <-] & H)]; auto.
        + split; [auto|]. intros [H|(_ & H & _)]; [exact H|].
          apply (contains_In type_id_eqb type_id_eqb_spec) in H. congruence.
      - assert (X : (if contains type_id_eqb k (dict_keys (types_rules cls))
                        && contains type_id_eqb k (types self) then ret else ret) = ret)
          by (destruct (_ && _); reflexivity).
        rewrite X. split; [auto|]. intros [H|(_ & _ & rules & H & _)];
          [exact H | discriminate]. }
    rewrite Hstep. split.
    + intros [[H|(E & T & rules & R & N)]|(k' & agg' & rules & HI & H)].
      * left. exact H.
      * right. exists k, agg, rules. simpl. auto.
      * right. exists k', agg', rules. simpl. tauto.
    + intros [H|(k' & agg' & rules & [E|HI] & E' & T & R & N)].
      * left. left. exact H.
      * injection E as -> ->. left. right. split; [exact E'|]. split; [exact T|].
        exists rules. auto.
      * right. exists k', agg', rules. auto.
Qed.

(** X11: the stat map has an entry for a type name exactly when the type is
    in the grouped data, is one of the accepted types and has at least one
    registered rule; a type that was filtered out or has no rule is never
    reported. *)
Theorem stat_entries_only_for_accepted_types (self : RmaApplication)
    (cls : class_state) (res : list (type_id * groups)) :
  exists stat_map,
    do_ram (percent := percent) (node := node) analyze self cls res = Stat stat_map
    /\ forall n,
         dict_get String.eqb n stat_map <> None
         <-> exists k agg rules,
               In (k, agg) res /\ type_id_to_redis_type k = n /\ In k (types self)
               /\ dict_get type_id_eqb k (types_rules cls) = Some rules
               /\ rules <> [].
Proof.
  exists (ram_loop analyze self cls res []). split; [reflexivity|].
  intros n. rewrite ram_loop_entry. simpl. split; [|auto].
  intros [H|H]; [contradiction | exact H].
Qed.

End EngineEntries.

(** ** The registry across runs *)

Lemma rules_append_effect t r reg :
  In t (dict_keys reg) ->
  exists reg',
    rules_append t r reg = inr reg'
    /\ dict_keys reg' = dict_keys reg
    /\ forall t', dict_get type_id_eqb t' reg'
                  = if type_id_eqb t' t
                    then option_map (fun l => l ++ [r])%list (dict_get type_id_eqb t' reg)
                    else dict_get type_id_eqb t' reg.
Proof.
  intros Ht. unfold rules_append, getitem.
  destruct (dict_get type_id_eqb t reg) as [l|] eqn:G.
  - simpl. eexists. split; [reflexivity|]. split.
    + rewrite (dict_keys_set type_id_eqb type_id_eqb_spec).
      apply (contains_In type_id_eqb type_id_eqb_spec) in Ht. rewrite Ht. reflexivity.
    + intros t'. destruct (type_id_eqb_spec t' t) as [->|N].
      * rewrite (dict_get_set_same type_id_eqb type_id_eqb_spec), G. reflexivity.
      * apply (dict_get_set_other type_id_eqb type_id_eqb_spec), N.
  - apply (dict_get_None type_id_eqb type_id_eqb_spec) in G. contradiction.
Qed.

Lemma rules_append_needs_key t r reg reg' :
  rules_append t r reg = inr reg' -> In t (dict_keys reg) /\ dict_keys reg' = dict_keys reg.
Proof.
  intros H.
  assert (Ht : In t (dict_keys reg)).
  { unfold rules_append, getitem in H.
    destruct (dict_get type_id_eqb t reg) as [l|] eqn:G; [|discriminate].
    apply (contains_In type_id_eqb type_id_eqb_spec).
    apply (dict_get_contains _ _ _ _ G). }
  split; [exact Ht|].
  destruct (rules_append_effect t r reg Ht) as (reg2 & E & K & _).
  rewrite E in H. injection H as <-. exact K.
Qed.

Lemma init_types_rules_ok (reg : list (type_id * list rule)) :
  (forall t, In t (dict_keys reg)) ->
  exists reg',
    init_types_rules reg = inr reg'
    /\ dict_keys reg' = dict_keys reg
    /\ forall t, dict_get type_id_eqb t reg'
                 = option_map (fun l => l ++ registered t)%list
                     (dict_get type_id_eqb t reg).
Proof.
  intros Hall. unfold init_types_rules.
  repeat match goal with
         | |- exists reg', bind (rules_append ?t ?r ?g) _ = _ /\ _ =>
             let g' := fresh "reg" in
             let E := fresh "E" in
             let K := fresh "K" in
             let G := fresh "G" in
             destruct (rules_append_effect t r g) as (g' & E & K & G);
             [try (repeat match goal with H : dict_keys _ = _ |- _ => rewrite H end);
              apply Hall
             | rewrite E; cbn [bind] ]
         end.
  destruct (rules_append_effect REDIS_TYPE_ID_ZSET KeyString reg7) as (reg8 & E8 & K8 & G8).
  { rewrite K6, K5, K4, K3, K2, K1, K0, K. apply Hall. }
  exists reg8. split; [exact E8|]. split.
  - rewrite K8, K6, K5, K4, K3, K2, K1, K0, K. reflexivity.
  - intros t. rewrite G8, G6, G5, G4, G3, G2, G1, G0, G.
    destruct t; simpl; destruct (dict_get type_id_eqb _ reg) as [l|]; simpl;
      rewrite <- ?app_assoc; reflexivity.
Qed.

(** X12: [init_types_rules] succeeds exactly when the registry has all five
    type keys, and fails with [KeyError] otherwise; when it succeeds it keeps
    the keys and their order and appends to each type's list the rules of
    that type, so every further run lengthens the lists again. *)
Theorem rules_appended_on_every_run (reg : list (type_id * list rule)) :
  ((forall t, In t (dict_keys reg)) ->
   exists reg',
     init_types_rules reg = inr reg'
     /\ dict_keys reg' = dict_keys reg
     /\ forall t, dict_get type_id_eqb t reg'
                  = option_map (fun l => l ++ registered t)%list
                      (dict_get type_id_eqb t reg))
  /\ ((exists t, ~ In t (dict_keys reg)) -> init_types_rules reg = inl KeyError).
Proof.
  split; [apply init_types_rules_ok|].
  intros (t & Ht).
  destruct (init_types_rules reg) as [e|reg'] eqn:E.
  - apply init_types_rules_raises in E. rewrite E. reflexivity.
  - exfalso. apply Ht. unfold init_types_rules in E.
    repeat match type of E with
           | bind (rules_append ?t0 ?r ?g) _ = inr _ =>
               let g' := fresh "reg" in
               let A := fresh "A" in
               destruct (rules_append t0 r g) as [?|g'] eqn:A; [discriminate|];
               cbn [bind] in E; apply rules_append_needs_key in A
           end.
    apply rules_append_needs_key in E.
    repeat match goal with H : _ /\ _ |- _ => destruct H end.
    repeat match goal with H : dict_keys _ = dict_keys _ |- _ =>
             rewrite H in *; clear H end.
    destruct t; assumption.
Qed.

(** ** A run from the scan to the reporter *)

Lemma printed_app {percent stat node : Type} (t1 t2 : list (event percent stat node)) :
  printed (t1 ++ t2) = (printed t1 ++ printed t2)%list.
Proof.
  induction t1 as [|e t1 IH]; simpl; [reflexivity|].
  destruct e; simpl; rewrite IH; reflexivity.
Qed.

Section RunShape.
Context {float percent stat node : Type}.
Variable splitter_split : string -> list string -> list string.
Variable truediv : Z -> Z -> float.
Variable floored_percentage : float -> Z -> percent.
Variable analyze : rule -> groups -> Z -> stat.
Variable global_analyze : global -> node.
Variable redis_info : exc (list (string * string)).
Variable redis_dbsize : Z.
Variable scanner_scan : string -> list type_id -> Z -> list KeyRecord.

(** What [run] does once the registry is extended: the scan, the store
    queries and one call of the reporter, unless the census fails. *)
Lemma run_unfolded (self : RmaApplication) (cls : class_state) reg :
  init_types_rules (types_rules cls) = inr reg ->
  exists keys,
    aggregate_all (splitter_split (separator self))
      (keys_by_type (scanner_scan (match_ self) (types self) (limit self))) = inr keys
    /\ run splitter_split truediv floored_percentage analyze global_analyze
         redis_dbsize scanner_scan self cls
       = let cls' := {| globals := (globals cls ++ [GlobalKeySpace])%list;
                        types_rules := reg |} in
         let wants m :=
           String.eqb (behaviour self) m || String.eqb (behaviour self) "all" in
         let before :=
           CallScan (match_ self) (types self) (limit self)
           :: (if isTextFormat self then [CallDbsize] else []) in
         let nodes :=
           if wants "global" then [do_globals global_analyze (globals cls')] else [] in
         let stats :=
           if wants "ram" then [do_ram analyze self cls' keys] else [] in
         if wants "scanner" then
           match do_scanner truediv floored_percentage redis_dbsize self keys with
           | inl e => ((before ++ [CallDbsize])%list, inl (Uncaught e))
           | inr census =>
               ((before ++ [CallDbsize; ReporterPrint (nodes ++ [census] ++ stats)])%list,
                inr cls')
           end
         else ((before ++ [ReporterPrint (nodes ++ stats)])%list, inr cls').
Proof.
  intros Hreg.
  destruct (aggregate_all_ok (splitter_split (separator self)) _
              (keys_by_type_values
                 (scanner_scan (match_ self) (types self) (limit self))))
    as [keys Hk].
  exists keys. split; [exact Hk|].
  unfold run. rewrite Hreg. cbn [lift pbind emit pret app].
  destruct (isTextFormat self); cbn [pbind emit pret app]; rewrite Hk;
    cbn [lift pbind emit pret app];
    destruct (String.eqb (behaviour self) "scanner" || String.eqb (behaviour self) "all");
    cbn [pbind emit pret app lift];
    try (destruct (do_scanner truediv floored_percentage redis_dbsize self keys);
         cbn [pbind emit pret app lift]);
    unfold init_globals;
    destruct (String.eqb (behaviour self) "global" || String.eqb (behaviour self) "all");
    destruct (String.eqb (behaviour self) "ram" || String.eqb (behaviour self) "all");
    reflexivity.
Qed.

Lemma run_outcome (self : RmaApplication) (cls : class_state) trace r :
  run splitter_split truediv floored_percentage analyze global_analyze
    redis_dbsize scanner_scan self cls = (trace, r) ->
  (exists e, r = inl (Uncaught e) /\ printed trace = []
             /\ (init_types_rules (types_rules cls) = inl e
                 \/ exists reg keys,
                      init_types_rules (types_rules cls) = inr reg
                      /\ wants self "scanner" = true
                      /\ do_scanner truediv floored_percentage redis_dbsize
                           (stat := stat) (node := node) self keys = inl e))
  \/ (exists reg cls' str_res dbsize_calls,
        init_types_rules (types_rules cls) = inr reg
        /\ cls' = {| globals := (globals cls ++ [GlobalKeySpace])%list;
                     types_rules := reg |}
        /\ r = inr cls'
        /\ trace = (CallScan (match_ self) (types self) (limit self)
                    :: dbsize_calls ++ [ReporterPrint str_res])%list
        /\ Forall (fun ev => ev = CallDbsize) dbsize_calls
        /\ map kind_of str_res
           = ((if wants self "global" then [OfGlobals] else [])
              ++ (if wants self "scanner" then [OfScanner] else [])
              ++ (if wants self "ram" then [OfRam] else []))%list
        /\ forall nodes, In (Nodes nodes) str_res ->
                         length nodes = S (length (globals cls))).
Proof.
  destruct (init_types_rules (types_rules cls)) as [e|reg] eqn:Hreg.
  - unfold run. rewrite Hreg. cbn [lift pbind]. intros [= <- <-].
    left. exists e. split; [reflexivity|]. split; [reflexivity|]. left. reflexivity.
  - destruct (run_unfolded self cls reg Hreg) as (keys & Hk & ->).
    cbv zeta. unfold wants. cbn [globals].
    set (ws := String.eqb (behaviour self) "scanner" || String.eqb (behaviour self) "all").
    set (wg := String.eqb (behaviour self) "global" || String.eqb (behaviour self) "all").
    set (wr := String.eqb (behaviour self) "ram" || String.eqb (behaviour self) "all").
    assert (Hn : forall nodes,
               In (Nodes nodes)
                 (if wg
                  then [do_globals (percent := percent) (stat := stat) global_analyze
                          (globals cls ++ [GlobalKeySpace])%list]
                  else []) ->
               length nodes = S (length (globals cls))).
    { intros nodes. destruct (wg); [|intros []].
      intros [E|[]]. unfold do_globals in E. injection E as <-.
      rewrite length_map, length_app. simpl. lia. }
    assert (Hd : forall l : list (event percent stat node),
               l = [] \/ l = [CallDbsize] \/ l = [CallDbsize; CallDbsize] ->
               Forall (fun ev => ev = CallDbsize) l).
    { intros l [->|[->| ->]]; repeat constructor. }
    destruct (ws) eqn:Ws.
    + destruct (do_scanner truediv floored_percentage redis_dbsize self keys)
        as [e|census] eqn:Hs.
      * intros [= <- <-]. left. exists e. split; [reflexivity|]. split.
        { destruct (isTextFormat self); reflexivity. }
        right. exists reg, keys. auto.
      * intros [= <- <-]. right.
        exists reg. eexists. eexists.
        exists ((if isTextFormat self then [CallDbsize] else []) ++ [CallDbsize])%list.
        split; [reflexivity|]. split; [reflexivity|]. split; [reflexivity|].
        split; [destruct (isTextFormat self); reflexivity|].
        split; [apply Hd; destruct (isTextFormat self); auto|].
        split.
        { rewrite !map_app.
          assert (K : kind_of census = OfScanner).
          { unfold do_scanner in Hs.
            match type of Hs with
            | bind ?m _ = _ => destruct m; [discriminate|]
            end. simpl in Hs. injection Hs as <-. reflexivity. }
          simpl. rewrite K.
          destruct (wg), (wr); reflexivity. }
        intros nodes HI. apply Hn. apply in_app_or in HI.
        destruct HI as [HI|[E|HI]]; [exact HI | |].
        { exfalso. unfold do_scanner in Hs.
          match type of Hs with
          | bind ?m _ = _ => destruct m; [discriminate|]
          end. simpl in Hs. injection Hs as <-. discriminate. }
        { exfalso. destruct (wr); [|destruct HI].
          destruct HI as [E|[]]. discriminate. }
    + intros [= <- <-]. right.
      exists reg. eexists. eexists.
      exists (if isTextFormat self then [CallDbsize] else []).
      split; [reflexivity|]. split; [reflexivity|]. split; [reflexivity|].
      split; [destruct (isTextFormat self); reflexivity|].
      split; [apply Hd; destruct (isTextFormat self); auto|].
      split.
      { rewrite map_app. destruct (wg), (wr); reflexivity. }
      intros nodes HI. apply Hn. apply in_app_or in HI.
      destruct HI as [HI|HI]; [exact HI|].
      exfalso. destruct (wr); [|destruct HI].
      destruct HI as [E|[]]. discriminate.
Qed.

(** What a run that returns has handed to the reporter, and the one scan
    it has started. *)
Lemma run_results (self : RmaApplication) (cls cls' : class_state) trace :
  run splitter_split truediv floored_percentage analyze global_analyze
    redis_dbsize scanner_scan self cls = (trace, inr cls') ->
  exists keys census,
    aggregate_all (splitter_split (separator self))
      (keys_by_type (scanner_scan (match_ self) (types self) (limit self))) = inr keys
    /\ init_types_rules (types_rules cls) = inr (types_rules cls')
    /\ globals cls' = (globals cls ++ [GlobalKeySpace])%list
    /\ (wants self "scanner" = true ->
        do_scanner truediv floored_percentage redis_dbsize self keys = inr census)
    /\ scans trace = [(match_ self, types self, limit self)]
    /\ printed trace
       = [((if wants self "global"
            then [do_globals global_analyze (globals cls')] else [])
           ++ (if wants self "scanner" then [census] else [])
           ++ (if wants self "ram" then [do_ram analyze self cls' keys] else []))%list].
Proof.
  destruct (init_types_rules (types_rules cls)) as [e|reg] eqn:Hreg.
  - unfold run. rewrite Hreg. cbn [lift pbind]. discriminate.
  - destruct (run_unfolded self cls reg Hreg) as (keys & Hk & ->).
    cbv zeta. unfold wants.
    set (ws := String.eqb (behaviour self) "scanner" || String.eqb (behaviour self) "all").
    set (wg := String.eqb (behaviour self) "global" || String.eqb (behaviour self) "all").
    set (wr := String.eqb (behaviour self) "ram" || String.eqb (behaviour self) "all").
    destruct ws.
    + destruct (do_scanner truediv floored_percentage redis_dbsize self keys)
        as [e|census] eqn:Hs; [discriminate|].
      intros [= <- <-]. exists keys, census.
      split; [exact Hk|]. split; [reflexivity|]. split; [reflexivity|].
      split; [intros _; exact Hs|].
      destruct (isTextFormat self); split; reflexivity.
    + intros [= <- <-]. exists keys, (Stat []).
      split; [exact Hk|]. split; [reflexivity|]. split; [reflexivity|].
      split; [discriminate|].
      destruct (isTextFormat self); split; reflexivity.
Qed.

(** X13: a run that returns has started one scan, with the match pattern,
    the accepted types and the limit of the instance, and has called the
    reporter once, with the partial results of the behaviour: what
    [do_globals], [do_scanner] and [do_ram] return on the grouped records of
    that scan and on the class attributes as the run has extended them, in
    this order, each only if the behaviour is its own name or [all]; a
    behaviour that is none of the four still scans and hands the reporter an
    empty list. *)
Theorem reporter_receives_results_by_mode (self : RmaApplication)
    (cls cls' : class_state) trace :
  run splitter_split truediv floored_percentage analyze global_analyze
    redis_dbsize scanner_scan self cls = (trace, inr cls') ->
  exists keys census,
    aggregate_all (splitter_split (separator self))
      (keys_by_type (scanner_scan (match_ self) (types self) (limit self))) = inr keys
    /\ (wants self "scanner" = true ->
        do_scanner truediv floored_percentage redis_dbsize self keys = inr census)
    /\ scans trace = [(match_ self, types self, limit self)]
    /\ printed trace
       = [((if wants self "global"
            then [do_globals global_analyze (globals cls')] else [])
           ++ (if wants self "scanner" then [census] else [])
           ++ (if wants self "ram" then [do_ram analyze self cls' keys] else []))%list].
Proof.
  intros H.
  destruct (run_results _ _ _ _ H) as (keys & census & Hk & _ & _ & Hs & Hc & Hp).
  exists keys, census. auto.
Qed.

(** X14: the class attributes grow with every run that returns: one more
    global analyzer and the rules appended again; so the global report of
    a run lists one node for every run made so far in the process, this
    one included. *)
Theorem class_attributes_grow (self : RmaApplication) (cls cls' : class_state) trace :
  run splitter_split truediv floored_percentage analyze global_analyze
    redis_dbsize scanner_scan self cls = (trace, inr cls') ->
  globals cls' = (globals cls ++ [GlobalKeySpace])%list
  /\ init_types_rules (types_rules cls) = inr (types_rules cls')
  /\ forall str_res nodes,
       In (ReporterPrint str_res) trace -> In (Nodes nodes) str_res ->
       length nodes = S (length (globals cls)).
Proof.
  intros H. destruct (run_outcome _ _ _ _ H)
    as [(e & E & _)|(reg & c & str_res & calls & R & C & E & T & D & _ & N)];
    [discriminate|].
  injection E as E. subst. simpl. split; [reflexivity|]. split; [exact R|].
  intros s nodes Hs Hn. destruct Hs as [Hs|Hs]; [discriminate|].
  apply in_app_or in Hs. destruct Hs as [Hs|[Hs|[]]].
  - rewrite Forall_forall in D. specialize (D _ Hs). discriminate.
  - injection Hs as <-. apply N, Hn.
Qed.

End RunShape.

(** ** A ram analysis restricted to zset *)

Section ZsetRun.
Context {float percent stat node : Type}.
Variable splitter_split : string -> list string -> list string.
Variable truediv : Z -> Z -> float.
Variable floored_percentage : float -> Z -> percent.
Variable analyze : rule -> groups -> Z -> stat.
Variable global_analyze : global -> node.
Variable redis_dbsize : Z.
Variable scanner_scan : string -> list type_id -> Z -> list KeyRecord.

(** C8, amended: after [init_types_rules] on the class's initial registry,
    ZSET has the key-name rule alone while the other four types have it
    followed by their value rule.  A run with behaviour [ram] and the types
    filter [zset] returns and calls the reporter once, with the stat map
    alone: when the scan has yielded zset records, the map has the one entry
    [zset], the output of [KeyString] on the groups of these records; when it
    has yielded none, the map is empty. *)
Theorem zset_key_name_rule_only (self : RmaApplication) (cls : class_state) :
  behaviour self = "ram" ->
  types self = flat_map redis_type_to_id ["zset"] ->
  (forall t, In t (dict_keys (types_rules cls))) ->
  init_types_rules (types_rules class_initial)
  = inr [(REDIS_TYPE_ID_STRING, [KeyString; ValueString]);
         (REDIS_TYPE_ID_HASH, [KeyString; Hash]);
         (REDIS_TYPE_ID_LIST, [KeyString; List]);
         (REDIS_TYPE_ID_SET, [KeyString; Set_]);
         (REDIS_TYPE_ID_ZSET, [KeyString])]
  /\ exists trace cls',
       run splitter_split truediv floored_percentage analyze global_analyze
         redis_dbsize scanner_scan self cls = (trace, inr cls')
       /\ match of_type REDIS_TYPE_ID_ZSET
                 (scanner_scan (match_ self) (types self) (limit self)) with
          | [] => printed trace = [[Stat []]]
          | data =>
              exists aggregate_patterns,
                get_pattern_aggregated_data (splitter_split (separator self)) data
                = inr aggregate_patterns
                /\ printed trace
                   = [[Stat [("zset",
                              analyze KeyString aggregate_patterns
                                (total_keys aggregate_patterns))]]]
          end.
Proof.
  intros Hb Ht Hkeys. split; [reflexivity|].
  destruct (init_types_rules_ok _ Hkeys) as (reg & Hinit & _ & Hget).
  destruct (run_unfolded splitter_split truediv floored_percentage analyze
              global_analyze redis_dbsize scanner_scan self cls reg Hinit)
    as (keys & Hk & Hrun).
  rewrite Hrun. cbv zeta. rewrite Hb. simpl String.eqb. cbn [orb app].
  eexists. eexists. split; [reflexivity|].
  cbn [printed]. rewrite printed_app.
  replace (printed (if isTextFormat self then [CallDbsize] else []))
    with (@nil (list (partial_result percent stat node)))
    by (destruct (isTextFormat self); reflexivity).
  cbn [printed app]. rewrite do_ram_loop.
  assert (Hz : exists rs, dict_get type_id_eqb REDIS_TYPE_ID_ZSET reg
                          = Some (rs ++ [KeyString])%list).
  { rewrite Hget.
    destruct (dict_get type_id_eqb REDIS_TYPE_ID_ZSET (types_rules cls)) as [rs|] eqn:G.
    - exists rs. reflexivity.
    - exfalso. apply (dict_get_None type_id_eqb type_id_eqb_spec) in G.
      apply G, Hkeys. }
  destruct Hz as [rs Hz].
  destruct (aggregate_all_buckets (splitter_split (separator self))
              (scanner_scan (match_ self) (types self) (limit self)))
    as (res & Hres & Hord & Hbuckets).
  rewrite Hk in Hres. injection Hres as <-.
  assert (ND : NoDup (dict_keys keys)).
  { rewrite Hord. apply (first_occurrences_NoDup type_id_eqb type_id_eqb_spec). }
  rewrite (ram_loop_single stat analyze self
             {| globals := (globals cls ++ [GlobalKeySpace])%list; types_rules := reg |}
             keys REDIS_TYPE_ID_ZSET rs KeyString Ht ND Hz).
  specialize (Hbuckets REDIS_TYPE_ID_ZSET).
  destruct (of_type REDIS_TYPE_ID_ZSET
              (scanner_scan (match_ self) (types self) (limit self))) as [|r0 data].
  - rewrite Hbuckets. reflexivity.
  - destruct Hbuckets as (g & Hg & ->). exists g. split; [exact Hg | reflexivity].
Qed.

End ZsetRun.

(** ** A session from the connection on *)

Lemma reported_version_not_empty redis_info version :
  reported_version redis_info = inr version -> version <> [].
Proof.
  unfold reported_version, getitem.
  destruct redis_info as [e|si]; simpl; [discriminate|].
  destruct (dict_get String.eqb "redis_version" si) as [vs|]; simpl; [|discriminate].
  pose proof (split_not_nil "." vs) as N.
  destruct (Py.split "." vs) as [|p ps]; [contradiction|]. simpl.
  destruct (Int.parse p); [|discriminate].
  destruct (map_int ps); simpl; [discriminate|]. intros [= <-]. discriminate.
Qed.

(** X15: the version check raises [IndexError] exactly when the reported
    version is the single component 2 (the minor is read only then); for
    every other readable version it answers, and the first component is
    always there. *)
Theorem version_check_index_error (redis_info : exc (list (string * string)))
    (version : list Z) :
  reported_version redis_info = inr version ->
  version <> []
  /\ (check_redis_version redis_info = inl IndexError <-> version = [2%Z])
  /\ (version <> [2%Z] -> exists answer, check_redis_version redis_info = inr answer).
Proof.
  intros H. pose proof (reported_version_not_empty _ _ H) as N.
  split; [exact N|]. unfold check_redis_version. rewrite H. simpl.
  destruct version as [|v0 rest]; [contradiction|]. simpl.
  destruct (Z.gtb_spec v0 2).
  - split; [split; [discriminate | intros [= -> ?]; lia]|]. intros _. eexists. reflexivity.
  - destruct (Z.eqb_spec v0 2) as [->|N2].
    + destruct rest as [|v1 rest]; simpl.
      * split; [split; reflexivity|]. intros C. contradiction.
      * destruct (v1 >=? 6)%Z;
          (split; [split; discriminate|]); intros _; eexists; reflexivity.
    + split; [split; [discriminate | intros [= -> ?]; contradiction]|].
      intros _. eexists. reflexivity.
Qed.

Lemma version_check_index_error_witness :
  reported_version (Sample.redis_info "2") = inr [2%Z]
  /\ check_redis_version (Sample.redis_info "2") = inl IndexError.
Proof.
  assert (H : reported_version (Sample.redis_info "2") = inr [2%Z])
    by (vm_compute; reflexivity).
  split; [exact H|].
  apply (proj1 (proj2 (version_check_index_error _ _ H))). reflexivity.
Defined.

Lemma map_int_fails l :
  (exists part, In part l /\ Int.parse part = None) -> map_int l = inl ValueError.
Proof.
  induction l as [|p l IH]; intros (part & HI & HP); [destruct HI|].
  simpl. destruct (Int.parse p) eqn:E.
  - destruct HI as [->|HI]; [congruence|].
    rewrite IH; [reflexivity | exists part; auto].
  - reflexivity.
Qed.

Section SessionFacts.
Context {float percent stat node : Type}.
Variable splitter_split : string -> list string -> list string.
Variable truediv : Z -> Z -> float.
Variable floored_percentage : float -> Z -> percent.
Variable analyze : rule -> groups -> Z -> stat.
Variable global_analyze : global -> node.
Variable redis_dbsize : Z.
Variable scanner_scan : string -> list type_id -> Z -> list KeyRecord.

Lemma session_uncaught (redis_info : exc (list (string * string)))
    (cfg : config) (cls : class_state) e :
  check_redis_version redis_info = inl e ->
  e <> ConnectionError -> e <> ResponseError ->
  session splitter_split truediv floored_percentage analyze global_analyze
    redis_info redis_dbsize scanner_scan cfg cls
  = ([CallInfo], inl (Uncaught e)).
Proof.
  intros H N1 N2. unfold session, init, connect_to_redis. rewrite H.
  destruct e; try contradiction; reflexivity.
Qed.

(** X16: a reply of the store that has no [redis_version] entry, or whose
    version has a component that [int] does not accept, ends the process with
    the uncaught [KeyError] or [ValueError] right after the query: no message
    is written, nothing is scanned. *)
Theorem unreadable_version_is_uncaught (cfg : config) (cls : class_state)
    (server_info : list (string * string)) :
  (dict_get String.eqb "redis_version" server_info = None ->
   session splitter_split truediv floored_percentage analyze global_analyze
     (inr server_info) redis_dbsize scanner_scan cfg cls
   = ([CallInfo], inl (Uncaught KeyError)))
  /\ (forall version_str,
        dict_get String.eqb "redis_version" server_info = Some version_str ->
        (exists part, In part (Py.split "." version_str) /\ Int.parse part = None) ->
        session splitter_split truediv floored_percentage analyze global_analyze
          (inr server_info) redis_dbsize scanner_scan cfg cls
        = ([CallInfo], inl (Uncaught ValueError))).
Proof.
  split.
  - intros Hk. apply session_uncaught; try discriminate.
    unfold check_redis_version, reported_version, getitem. simpl.
    rewrite Hk. reflexivity.
  - intros vs Hk Hp. apply session_uncaught; try discriminate.
    unfold check_redis_version, reported_version, getitem. simpl.
    rewrite Hk. simpl. rewrite (map_int_fails _ Hp). reflexivity.
Qed.

Lemma session_connected (redis_info : exc (list (string * string)))
    (cfg : config) (cls : class_state) :
  check_redis_version redis_info = inr true ->
  session splitter_split truediv floored_percentage analyze global_analyze
    redis_info redis_dbsize scanner_scan cfg cls
  = match cfg_filters cfg with
    | None => ([CallInfo], inl (Uncaught TypeError))
    | Some given =>
        (CallInfo :: fst (run splitter_split truediv floored_percentage analyze
                            global_analyze redis_dbsize scanner_scan
                            (instance_of cfg given) cls),
         snd (run splitter_split truediv floored_percentage analyze
                global_analyze redis_dbsize scanner_scan (instance_of cfg given) cls))
    end.
Proof.
  intros H. unfold session, init, connect_to_redis. rewrite H.
  destruct (cfg_filters cfg) as [given|]; [|reflexivity].
  cbn [pbind emit pret app]. fold (instance_of cfg given).
  destruct (run _ _ _ _ _ _ _ (instance_of cfg given) cls) as [t r]. reflexivity.
Qed.

Lemma limit_not_zero (cfg : config) (given : filters) :
  limit (instance_of cfg given) <> 0%Z.
Proof.
  simpl. destruct (Z.eqb_spec (cfg_limit cfg) 0); [discriminate | assumption].
Qed.

(** X17: with a supported version, a [filters] dictionary, a registry that
    has its five keys and a store that reports a size other than 0, the
    statements of the module raise nothing: the session returns, having
    started one scan, with the match option, the accepted types and the
    limit option (the largest integer when that option is 0), and having
    called the reporter once, with one partial result for every branch the
    behaviour asks for. *)
Theorem session_completes (redis_info : exc (list (string * string)))
    (cfg : config) (given : filters) (cls : class_state) :
  (exists version, reported_version redis_info = inr version /\ supported version) ->
  cfg_filters cfg = Some given ->
  (forall t, In t (dict_keys (types_rules cls))) ->
  redis_dbsize <> 0%Z ->
  exists trace str_res cls',
    session splitter_split truediv floored_percentage analyze global_analyze
      redis_info redis_dbsize scanner_scan cfg cls
    = (trace, inr cls')
    /\ scans trace
       = [(cfg_match cfg, types (instance_of cfg given),
           if (cfg_limit cfg =? 0)%Z then sys_maxsize else cfg_limit cfg)]
    /\ printed trace = [str_res]
    /\ map kind_of str_res
       = ((if wants (instance_of cfg given) "global" then [OfGlobals] else [])
          ++ (if wants (instance_of cfg given) "scanner" then [OfScanner] else [])
          ++ (if wants (instance_of cfg given) "ram" then [OfRam] else []))%list.
Proof.
  intros Hv Hf Hreg Hdb. apply check_redis_version_true in Hv.
  rewrite (session_connected _ cfg cls Hv), Hf.
  set (self := instance_of cfg given).
  assert (NZ : Z.min redis_dbsize (limit self) <> 0%Z).
  { pose proof (limit_not_zero cfg given). fold self in H. lia. }
  destruct (run splitter_split truediv floored_percentage analyze global_analyze
              redis_dbsize scanner_scan self cls) as [trace r] eqn:Hrun.
  destruct (init_types_rules_ok _ Hreg) as (reg & Hinit & _).
  destruct (run_outcome _ _ _ _ _ _ _ _ _ _ _ Hrun)
    as [(e & _ & _ & [E|(reg' & keys & _ & _ & E)])
       |(reg' & cls' & str_res & calls & _ & _ & -> & _)].
  - congruence.
  - rewrite (do_scanner_rows float percent stat node) in E by exact NZ. discriminate.
  - destruct (run_results _ _ _ _ _ _ _ _ _ _ _ Hrun)
      as (keys & census & _ & _ & _ & Hs & Hc & Hp).
    cbn [fst snd]. eexists. eexists. exists cls'.
    split; [reflexivity|]. cbn [scans printed]. rewrite Hc, Hp.
    split; [reflexivity|]. split; [reflexivity|].
    rewrite !map_app.
    destruct (wants self "scanner") eqn:Ws.
    + rewrite (do_scanner_rows float percent stat node _ _ _ _ _ NZ) in Hs.
      specialize (Hs eq_refl). injection Hs as <-.
      destruct (wants self "global"), (wants self "ram"); reflexivity.
    + destruct (wants self "global"), (wants self "ram"); reflexivity.
Qed.

(** X18: once the version is accepted and the registry has its five keys,
    the statements of the module raise in two cases only, and in both the
    reporter is never called: [TypeError] from the test of line 96 when
    [filters] is left at [None], before any scan; and the division by zero
    of the census, which needs a store that reports size 0 and a behaviour
    that asks for the census. *)
Theorem session_fails_by_filters_or_zero_division
    (redis_info : exc (list (string * string))) (cfg : config) (cls : class_state)
    trace h :
  (exists version, reported_version redis_info = inr version /\ supported version) ->
  (forall t, In t (dict_keys (types_rules cls))) ->
  session splitter_split truediv floored_percentage analyze global_analyze
    redis_info redis_dbsize scanner_scan cfg cls = (trace, inl h) ->
  printed trace = []
  /\ ((h = Uncaught TypeError /\ cfg_filters cfg = None /\ scans trace = [])
      \/ (h = Uncaught ZeroDivisionError
          /\ redis_dbsize = 0%Z
          /\ exists given,
               cfg_filters cfg = Some given
               /\ wants (instance_of cfg given) "scanner" = true)).
Proof.
  intros Hv Hreg. apply check_redis_version_true in Hv.
  rewrite (session_connected _ cfg cls Hv).
  destruct (cfg_filters cfg) as [given|].
  - set (self := instance_of cfg given).
    destruct (run splitter_split truediv floored_percentage analyze global_analyze
                redis_dbsize scanner_scan self cls) as [t r] eqn:Hrun.
    simpl. intros [= <- ->].
    destruct (init_types_rules_ok _ Hreg) as (reg & Hinit & _).
    destruct (run_outcome _ _ _ _ _ _ _ _ _ _ _ Hrun)
      as [(e & [= ->] & P & [E|(reg' & keys & _ & W & E)])
         |(reg' & cls' & str_res & calls & _ & _ & [=] & _)].
    + congruence.
    + pose proof (do_scanner_raises _ _ _ _ _ _ E) as ->.
      split; [exact P|]. right. split; [reflexivity|]. split.
      * destruct (Z.eq_dec (Z.min redis_dbsize (limit self)) 0) as [Z0|NZ].
        -- pose proof (limit_not_zero cfg given). fold self in H. lia.
        -- rewrite (do_scanner_rows float percent stat node _ _ _ _ _ NZ) in E.
           discriminate.
      * exists given. split; [reflexivity | exact W].
  - intros [= <- <-]. split; [reflexivity|]. left. auto.
Qed.

End SessionFacts.

(** ** The added properties on the sample data *)

Lemma groups_keyed_by_templates_witness :
  let data := [Sample.key "user:1:p" REDIS_TYPE_ID_STRING;
               Sample.key "cart:9" REDIS_TYPE_ID_STRING;
               Sample.key "user:2:p" REDIS_TYPE_ID_STRING] in
  let g := [("user:*:p", [Sample.key "user:1:p" REDIS_TYPE_ID_STRING;
                          Sample.key "user:2:p" REDIS_TYPE_ID_STRING]);
            ("cart:*", [Sample.key "cart:9" REDIS_TYPE_ID_STRING])] in
  get_pattern_aggregated_data (SimpleSplitter.split ":") data = inr g
  /\ dict_keys g
     = first_occurrences String.eqb (derived_templates (SimpleSplitter.split ":") data)
  /\ NoDup (dict_keys g)
  /\ forall t, In t (derived_templates (SimpleSplitter.split ":") data) ->
               dict_get String.eqb t g = Some (filter (member_of t) data).
Proof.
  intros data g.
  assert (H : get_pattern_aggregated_data (SimpleSplitter.split ":") data = inr g)
    by (vm_compute; reflexivity).
  split; [exact H|].
  exact (groups_keyed_by_templates (SimpleSplitter.split ":") data g H).
Defined.

Lemma census_division_by_zero_witness :
  do_scanner Sample.truediv Sample.floored_percentage 0
    (stat := rule * Z) (node := unit) (Sample.app "scanner" REDIS_TYPE_ID_ALL)
    Sample.grouped
  = inl ZeroDivisionError
  /\ do_scanner Sample.truediv Sample.floored_percentage 0
       (stat := rule * Z) (node := unit) (Sample.app "scanner" REDIS_TYPE_ID_ALL)
       [(REDIS_TYPE_ID_STRING, [])]
     = inr (Keys [] census_headers).
Proof.
  split.
  - apply (proj1 (census_division_by_zero (Z * Z)%type Z (rule * Z)%type unit
                    Sample.truediv Sample.floored_percentage 0
                    (Sample.app "scanner" REDIS_TYPE_ID_ALL) Sample.grouped)).
    split; [reflexivity|]. split; [reflexivity|].
    exists (REDIS_TYPE_ID_ZSET, [("rank:*", [Sample.key "rank:7" REDIS_TYPE_ID_ZSET])]),
           ("rank:*", [Sample.key "rank:7" REDIS_TYPE_ID_ZSET]).
    split; left; reflexivity.
  - apply (proj2 (census_division_by_zero (Z * Z)%type Z (rule * Z)%type unit
                    Sample.truediv Sample.floored_percentage 0
                    (Sample.app "scanner" REDIS_TYPE_ID_ALL)
                    [(REDIS_TYPE_ID_STRING, [])])).
    intros ta [<-|[]]. reflexivity.
Defined.

Lemma census_one_row_per_template_witness :
  Z.min 4 (limit (Sample.app "scanner" REDIS_TYPE_ID_ALL)) <> 0%Z
  /\ do_scanner Sample.truediv Sample.floored_percentage 4
       (stat := rule * Z) (node := unit) (Sample.app "scanner" REDIS_TYPE_ID_ALL)
       Sample.grouped
     = inr (Keys (sort_reverse (@row_count Z)
                    (rows_of Sample.truediv Sample.floored_percentage
                       (Z.min 4 (limit (Sample.app "scanner" REDIS_TYPE_ID_ALL)))
                       Sample.grouped))
              census_headers)
  /\ length (rows_of Sample.truediv Sample.floored_percentage
               (Z.min 4 (limit (Sample.app "scanner" REDIS_TYPE_ID_ALL)))
               Sample.grouped)
     = 3.
Proof.
  assert (NZ : Z.min 4 (limit (Sample.app "scanner" REDIS_TYPE_ID_ALL)) <> 0%Z)
    by (vm_compute; discriminate).
  split; [exact NZ|].
  exact (census_one_row_per_template (Z * Z)%type Z (rule * Z)%type unit
           Sample.truediv Sample.floored_percentage 4
           (Sample.app "scanner" REDIS_TYPE_ID_ALL) Sample.grouped NZ).
Defined.

Lemma rules_appended_on_every_run_witness :
  (exists reg',
     init_types_rules Sample.registry = inr reg'
     /\ dict_keys reg' = dict_keys Sample.registry
     /\ forall t, dict_get type_id_eqb t reg'
                  = option_map (fun l => l ++ registered t)%list
                      (dict_get type_id_eqb t Sample.registry))
  /\ init_types_rules [(REDIS_TYPE_ID_STRING, []); (REDIS_TYPE_ID_HASH, [])]
     = inl KeyError.
Proof.
  split.
  - apply (proj1 (rules_appended_on_every_run Sample.registry)).
    intros t. destruct t; simpl; tauto.
  - apply (proj2 (rules_appended_on_every_run
                    [(REDIS_TYPE_ID_STRING, []); (REDIS_TYPE_ID_HASH, [])])).
    exists REDIS_TYPE_ID_LIST. simpl. intros [H|[H|[]]]; discriminate.
Defined.

Lemma reporter_receives_results_by_mode_witness :
  let self := Sample.app "all" REDIS_TYPE_ID_ALL in
  let cls' := {| globals := [GlobalKeySpace]; types_rules := Sample.registry |} in
  let census :=
    Keys [{| row_name := "user:*:p"; row_count := 2; row_type := "string";
             row_percent := 5000%Z |};
          {| row_name := "rank:*"; row_count := 1; row_type := "zset";
             row_percent := 2500%Z |};
          {| row_name := "cart:*"; row_count := 1; row_type := "hash";
             row_percent := 2500%Z |}] census_headers in
  let trace :=
    [CallScan "*" REDIS_TYPE_ID_ALL sys_maxsize; CallDbsize;
     ReporterPrint
       [Nodes [tt]; census;
        Stat [("zset", (KeyString, 1%Z)); ("string", (ValueString, 2%Z));
              ("hash", (Hash, 1%Z))]]] in
  run Sample.splitter_split Sample.truediv Sample.floored_percentage
    Sample.analyze Sample.global_analyze 4 Sample.scanner_scan self class_initial
  = (trace, inr cls')
  /\ exists keys census',
       aggregate_all (Sample.splitter_split (separator self))
         (keys_by_type (Sample.scanner_scan (match_ self) (types self) (limit self)))
       = inr keys
       /\ (wants self "scanner" = true ->
           do_scanner Sample.truediv Sample.floored_percentage 4 self keys
           = inr census')
       /\ scans trace = [(match_ self, types self, limit self)]
       /\ printed trace
          = [((if wants self "global"
               then [do_globals Sample.global_analyze (globals cls')] else [])
              ++ (if wants self "scanner" then [census'] else [])
              ++ (if wants self "ram"
                  then [do_ram Sample.analyze self cls' keys] else []))%list].
Proof.
  intros self cls' census trace.
  assert (H : run Sample.splitter_split Sample.truediv Sample.floored_percentage
                Sample.analyze Sample.global_analyze 4 Sample.scanner_scan self
                class_initial
              = (trace, inr cls')) by (vm_compute; reflexivity).
  split; [exact H|].
  exact (reporter_receives_results_by_mode Sample.splitter_split Sample.truediv
           Sample.floored_percentage Sample.analyze Sample.global_analyze 4
           Sample.scanner_scan self class_initial cls' trace H).
Defined.

Lemma class_attributes_grow_witness :
  let self := Sample.app "global" REDIS_TYPE_ID_ALL in
  let cls := {| globals := [GlobalKeySpace]; types_rules := Sample.registry |} in
  let trace := [CallScan "*" REDIS_TYPE_ID_ALL sys_maxsize;
                ReporterPrint [Nodes [tt; tt]]] in
  let cls' :=
    {| globals := [GlobalKeySpace; GlobalKeySpace];
       types_rules :=
         [(REDIS_TYPE_ID_STRING, [KeyString; ValueString; KeyString; ValueString]);
          (REDIS_TYPE_ID_HASH, [KeyString; Hash; KeyString; Hash]);
          (REDIS_TYPE_ID_LIST, [KeyString; List; KeyString; List]);
          (REDIS_TYPE_ID_SET, [KeyString; Set_; KeyString; Set_]);
          (REDIS_TYPE_ID_ZSET, [KeyString; KeyString])] |} in
  run Sample.splitter_split Sample.truediv Sample.floored_percentage
    Sample.analyze Sample.global_analyze 4 Sample.scanner_scan self cls
  = (trace, inr cls')
  /\ globals cls' = (globals cls ++ [GlobalKeySpace])%list
  /\ init_types_rules (types_rules cls) = inr (types_rules cls')
  /\ forall str_res nodes,
       In (ReporterPrint str_res) trace -> In (Nodes nodes) str_res ->
       length nodes = S (length (globals cls)).
Proof.
  intros self cls trace cls'.
  assert (H : run Sample.splitter_split Sample.truediv Sample.floored_percentage
                Sample.analyze Sample.global_analyze 4 Sample.scanner_scan self cls
              = (trace, inr cls')) by (vm_compute; reflexivity).
  split; [exact H|].
  exact (class_attributes_grow Sample.splitter_split Sample.truediv
           Sample.floored_percentage Sample.analyze Sample.global_analyze 4
           Sample.scanner_scan self cls cls' trace H).
Defined.

Lemma unreadable_version_is_uncaught_witness :
  session Sample.splitter_split Sample.truediv Sample.floored_percentage
    Sample.analyze Sample.global_analyze (inr [("redis_mode", "standalone")]) 4
    Sample.scanner_scan (Sample.cfg "all" None) class_initial
  = ([CallInfo], inl (Uncaught KeyError))
  /\ session Sample.splitter_split Sample.truediv Sample.floored_percentage
       Sample.analyze Sample.global_analyze (inr [("redis_version", "7.0.0-rc1")]) 4
       Sample.scanner_scan (Sample.cfg "all" None) class_initial
     = ([CallInfo], inl (Uncaught ValueError)).
Proof.
  split.
  - apply (proj1 (unreadable_version_is_uncaught Sample.splitter_split Sample.truediv
                    Sample.floored_percentage Sample.analyze Sample.global_analyze 4
                    Sample.scanner_scan (Sample.cfg "all" None) class_initial
                    [("redis_mode", "standalone")])).
    reflexivity.
  - apply (proj2 (unreadable_version_is_uncaught Sample.splitter_split Sample.truediv
                    Sample.floored_percentage Sample.analyze Sample.global_analyze 4
                    Sample.scanner_scan (Sample.cfg "all" None) class_initial
                    [("redis_version", "7.0.0-rc1")]) "7.0.0-rc1").
    + reflexivity.
    + exists "0-rc1". split; [vm_compute; tauto | reflexivity].
Defined.

Lemma session_completes_witness :
  let given := {| filter_types := None; filter_behaviour := Some "scanner" |} in
  (exists version,
     reported_version (Sample.redis_info "6.2.0") = inr version /\ supported version)
  /\ cfg_filters (Sample.cfg "scanner" None) = Some given
  /\ (forall t, In t (dict_keys (types_rules class_initial)))
  /\ 4%Z <> 0%Z
  /\ exists trace str_res cls',
       session Sample.splitter_split Sample.truediv Sample.floored_percentage
         Sample.analyze Sample.global_analyze (Sample.redis_info "6.2.0") 4
         Sample.scanner_scan (Sample.cfg "scanner" None) class_initial
       = (trace, inr cls')
       /\ scans trace = [("*", REDIS_TYPE_ID_ALL, sys_maxsize)]
       /\ printed trace = [str_res]
       /\ map kind_of str_res = [OfScanner].
Proof.
  intros given.
  assert (Hv : exists version,
             reported_version (Sample.redis_info "6.2.0") = inr version
             /\ supported version).
  { exists [6; 2; 0]%Z. split; [vm_compute; reflexivity|]. left. reflexivity. }
  assert (Hf : cfg_filters (Sample.cfg "scanner" None) = Some given) by reflexivity.
  assert (Hk : forall t, In t (dict_keys (types_rules class_initial)))
    by (intros t; destruct t; simpl; tauto).
  assert (Hd : 4%Z <> 0%Z) by discriminate.
  repeat (split; [assumption|]).
  exact (session_completes Sample.splitter_split Sample.truediv
           Sample.floored_percentage Sample.analyze Sample.global_analyze 4
           Sample.scanner_scan (Sample.redis_info "6.2.0")
           (Sample.cfg "scanner" None) given class_initial Hv Hf Hk Hd).
Defined.

Lemma session_fails_by_filters_or_zero_division_witness :
  let unfiltered :=
    {| cfg_format := "json"; cfg_separator := ":"; cfg_match := "*"; cfg_limit := 0;
       cfg_filters := None |} in
  let trace := [CallInfo; CallScan "*" REDIS_TYPE_ID_ALL sys_maxsize; CallDbsize] in
  (session Sample.splitter_split Sample.truediv Sample.floored_percentage
     Sample.analyze Sample.global_analyze (Sample.redis_info "6.2.0") 4
     Sample.scanner_scan unfiltered class_initial
   = ([CallInfo], inl (Uncaught TypeError))
   /\ printed [@CallInfo Z (rule * Z)%type unit] = [])
  /\ (session Sample.splitter_split Sample.truediv Sample.floored_percentage
        Sample.analyze Sample.global_analyze (Sample.redis_info "6.2.0") 0
        Sample.scanner_scan (Sample.cfg "all" None) class_initial
      = (trace, inl (Uncaught ZeroDivisionError))
      /\ printed trace = []).
Proof.
  intros unfiltered trace.
  assert (Hv : exists version,
             reported_version (Sample.redis_info "6.2.0") = inr version
             /\ supported version).
  { exists [6; 2; 0]%Z. split; [vm_compute; reflexivity|]. left. reflexivity. }
  assert (Hk : forall t, In t (dict_keys (types_rules class_initial)))
    by (intros t; destruct t; simpl; tauto).
  assert (H1 : session Sample.splitter_split Sample.truediv Sample.floored_percentage
                 Sample.analyze Sample.global_analyze (Sample.redis_info "6.2.0") 4
                 Sample.scanner_scan unfiltered class_initial
               = ([CallInfo], inl (Uncaught TypeError)))
    by (vm_compute; reflexivity).
  assert (H2 : session Sample.splitter_split Sample.truediv Sample.floored_percentage
                 Sample.analyze Sample.global_analyze (Sample.redis_info "6.2.0") 0
                 Sample.scanner_scan (Sample.cfg "all" None) class_initial
               = (trace, inl (Uncaught ZeroDivisionError)))
    by (vm_compute; reflexivity).
  split; (split; [assumption|]).
  - exact (proj1 (session_fails_by_filters_or_zero_division Sample.splitter_split
                    Sample.truediv Sample.floored_percentage Sample.analyze
                    Sample.global_analyze 4 Sample.scanner_scan
                    (Sample.redis_info "6.2.0") unfiltered class_initial
                    [CallInfo] (Uncaught TypeError) Hv Hk H1)).
  - exact (proj1 (session_fails_by_filters_or_zero_division Sample.splitter_split
                    Sample.truediv Sample.floored_percentage Sample.analyze
                    Sample.global_analyze 0 Sample.scanner_scan
                    (Sample.redis_info "6.2.0") (Sample.cfg "all" None) class_initial
                    trace (Uncaught ZeroDivisionError) Hv Hk H2)).
Defined.

Lemma zset_key_name_rule_only_witness :
  let self := Sample.app "ram" (flat_map redis_type_to_id ["zset"]) in
  behaviour self = "ram"
  /\ types self = flat_map redis_type_to_id ["zset"]
  /\ (forall t, In t (dict_keys (types_rules class_initial)))
  /\ of_type REDIS_TYPE_ID_ZSET
       (Sample.scanner_scan (match_ self) (types self) (limit self))
     = [Sample.key "rank:7" REDIS_TYPE_ID_ZSET]
  /\ exists trace cls',
       run Sample.splitter_split Sample.truediv Sample.floored_percentage
         Sample.analyze Sample.global_analyze 4 Sample.scanner_scan self class_initial
       = (trace, inr cls')
       /\ exists aggregate_patterns,
            get_pattern_aggregated_data (Sample.splitter_split (separator self))
              [Sample.key "rank:7" REDIS_TYPE_ID_ZSET]
            = inr aggregate_patterns
            /\ printed trace
               = [[Stat [("zset",
                          Sample.analyze KeyString aggregate_patterns
                            (total_keys aggregate_patterns))]]].
Proof.
  intros self.
  assert (Hb : behaviour self = "ram") by reflexivity.
  assert (Ht : types self = flat_map redis_type_to_id ["zset"]) by reflexivity.
  assert (Hk : forall t, In t (dict_keys (types_rules class_initial)))
    by (intros t; destruct t; simpl; tauto).
  assert (Hz : of_type REDIS_TYPE_ID_ZSET
                 (Sample.scanner_scan (match_ self) (types self) (limit self))
               = [Sample.key "rank:7" REDIS_TYPE_ID_ZSET]) by (vm_compute; reflexivity).
  repeat (split; [assumption|]).
  pose proof (proj2 (zset_key_name_rule_only Sample.splitter_split Sample.truediv
                       Sample.floored_percentage Sample.analyze Sample.global_analyze
                       4 Sample.scanner_scan self class_initial Hb Ht Hk)) as H.
  rewrite Hz in H. exact H.
Defined.

(** A store without zset keys: the run restricted to zset hands the reporter
    an empty stat map, with no [zset] entry. *)
Lemma zset_run_without_zset_keys :
  run Sample.splitter_split Sample.truediv Sample.floored_percentage
    Sample.analyze Sample.global_analyze 4 (fun _ _ _ => [])
    (Sample.app "ram" (flat_map redis_type_to_id ["zset"])) class_initial
  = ([CallScan "*" [REDIS_TYPE_ID_ZSET] sys_maxsize;
      ReporterPrint [@Stat Z (rule * Z)%type unit []]],
     inr {| globals := [GlobalKeySpace]; types_rules := Sample.registry |}).
Proof. vm_compute. reflexivity. Qed.
